(** * A shallow embedding of the arc-bug Discord bug tracker

    Sources embedded:
    - [src/Downloads/arc-bug-main/src/db.ts]       (the SQLite store)
    - [src/Downloads/arc-bug-main/src/analyzer.ts] (the AI-assisted matcher)
    - [src/unnamed/part_000]                        (the bot: message routing,
      completion handling, history scans, watermark persistence, channel
      management)
    - [src/Downloads/arc-bug-main/src/index.ts]    (the dashboard server:
      authorisation, admin edits and listings)

    Modelling choices.
    - A JavaScript string is a list of UTF-16 code units ([list N]); the
      marker glyphs are written as their code units.  [toLowerCase] is
      modelled on the Basic Latin block only (other code units unchanged).
    - Discord message ids (snowflakes, kept as decimal strings by the code)
      are [Z]; equality and [BigInt] comparison of canonical decimal strings
      coincide with equality and order on [Z].
    - ISO timestamps are [Z] (ISO strings compare like the instants they
      denote); [new Date()] is an explicit [now] argument.
    - A SQL table is a list of rows in rowid order; a unique-constraint
      violation is the absence of the insert.
    - The AI collaborator is an oracle held by the bot configuration; a call
      that throws or returns no JSON object is the oracle answering [None].
    - Asynchronous handlers are run to completion one after the other. *)

From Stdlib Require Import String Ascii.
From Stdlib Require Import ZArith NArith List Bool Lia.
From Stdlib Require Import Sorted Permutation.
Import ListNotations.
Open Scope Z_scope.

(* ------------------------------------------------------------------ *)
(** ** JavaScript strings *)

Module JsString.

Definition jsstr := list N.

(** Code units of an ASCII Rocq string, to write concrete messages. *)
Fixpoint of_ascii (s : String.string) : jsstr :=
  match s with
  | String.EmptyString => []
  | String.String c s' => N.of_nat (Ascii.nat_of_ascii c) :: of_ascii s'
  end.

(** [▶️] is U+25B6 U+FE0F, [✅] is U+2705. *)
Definition play_glyph : jsstr := [9654%N; 65039%N].
Definition check_glyph : jsstr := [9989%N].

(** ECMAScript WhiteSpace and LineTerminator code units (used by
    [String.prototype.trim] and by the regex class [\s]). *)
Definition is_ws (c : N) : bool :=
  ((9 <=? c)%N && (c <=? 13)%N) || (c =? 32)%N || (c =? 160)%N
  || (c =? 5760)%N || ((8192 <=? c)%N && (c <=? 8202)%N)
  || (c =? 8232)%N || (c =? 8233)%N || (c =? 8239)%N || (c =? 8287)%N
  || (c =? 12288)%N || (c =? 65279)%N.

Fixpoint drop_ws (s : jsstr) : jsstr :=
  match s with
  | c :: s' => if is_ws c then drop_ws s' else s
  | [] => []
  end.

Definition trim (s : jsstr) : jsstr := rev (drop_ws (rev (drop_ws s))).

Fixpoint jsstr_eqb (a b : jsstr) : bool :=
  match a, b with
  | [], [] => true
  | x :: a', y :: b' => (x =? y)%N && jsstr_eqb a' b'
  | _, _ => false
  end.

Fixpoint startsWith (s p : jsstr) : bool :=
  match p, s with
  | [], _ => true
  | x :: p', y :: s' => (x =? y)%N && startsWith s' p'
  | _ :: _, [] => false
  end.

Fixpoint includes (s p : jsstr) : bool :=
  startsWith s p || match s with [] => false | _ :: s' => includes s' p end.

Definition lower_unit (c : N) : N :=
  if (65 <=? c)%N && (c <=? 90)%N then (c + 32)%N else c.

Definition toLowerCase (s : jsstr) : jsstr := map lower_unit s.

(** [s.replace(/✅\s*/, '')]: the first [✅] and the white space after it
    are removed. *)
Fixpoint replace_check (s : jsstr) : jsstr :=
  match s with
  | [] => []
  | c :: s' => if (c =? 9989)%N then drop_ws s' else c :: replace_check s'
  end.

(** [s.replace(/^▶️\s*/, '')]. *)
Definition strip_play (s : jsstr) : jsstr :=
  if startsWith s play_glyph then drop_ws (skipn 2 s) else s.

(** [s.replace(/^bug:\s*/i, '')]. *)
Definition strip_bug_label (s : jsstr) : jsstr :=
  if startsWith (toLowerCase (firstn 4 s)) (of_ascii "bug:"%string)
  then drop_ws (skipn 4 s) else s.

(** [s.split(/\s+/)]: the pieces between runs of white space (an empty
    piece where [s] starts or ends with white space, or is empty). *)
Fixpoint split_ws_aux (s : jsstr) (cur : jsstr) (in_ws : bool) : list jsstr :=
  match s with
  | [] => [rev cur]
  | c :: s' =>
      if is_ws c then
        if in_ws then split_ws_aux s' [] true
        else rev cur :: split_ws_aux s' [] true
      else split_ws_aux s' (c :: cur) false
  end.

Definition split_ws (s : jsstr) : list jsstr := split_ws_aux s [] false.

End JsString.
Import JsString.

(* ------------------------------------------------------------------ *)
(** ** The store: [db.ts] *)

Module Db.

Inductive Status := Open | Fixed.

Definition status_eqb (a b : Status) : bool :=
  match a, b with Open, Open | Fixed, Fixed => true | _, _ => false end.

Inductive BugType := TBug | TRequest.

Record Reaction := mkReaction {
  emoji : jsstr;
  count : Z;
  users : list jsstr
}.

(** [interface Bug] *)
Record Bug := mkBug {
  id : Z;
  discord_message_id : Z;
  channel_id : Z;
  channel_name : jsstr;
  author_id : Z;
  author_name : jsstr;
  content : jsstr;
  type : BugType;
  status : Status;
  created_at : Z;
  updated_at : Z;
  discord_url : jsstr;
  reactions : list Reaction
}.

(** [interface BugUpdate] (the attachment columns are not used by the bot). *)
Record BugUpdate := mkBugUpdate {
  u_id : Z;
  bug_id : Z;
  u_discord_message_id : Z;
  u_author_id : Z;
  u_author_name : jsstr;
  u_content : jsstr;
  u_created_at : Z;
  u_discord_url : jsstr;
  u_reactions : list Reaction
}.

(** The tables [bugs], [bug_updates] and [scan_state]; [next_bug_rowid] and
    [next_update_rowid] are the AUTOINCREMENT counters. *)
Record BugDatabase := mkDb {
  bugs : list Bug;
  bug_updates : list BugUpdate;
  scan_state : list (Z * Z);
  next_bug_rowid : Z;
  next_update_rowid : Z
}.

Definition set_bugs (db : BugDatabase) (bs : list Bug) : BugDatabase :=
  mkDb bs (bug_updates db) (scan_state db) (next_bug_rowid db) (next_update_rowid db).

Definition set_scan_state (db : BugDatabase) (ss : list (Z * Z)) : BugDatabase :=
  mkDb (bugs db) (bug_updates db) ss (next_bug_rowid db) (next_update_rowid db).

Definition with_id (b : Bug) (i : Z) : Bug :=
  mkBug i (discord_message_id b) (channel_id b) (channel_name b) (author_id b)
    (author_name b) (content b) (type b) (status b) (created_at b)
    (updated_at b) (discord_url b) (reactions b).

Definition with_status (b : Bug) (s : Status) (t : Z) : Bug :=
  mkBug (id b) (discord_message_id b) (channel_id b) (channel_name b)
    (author_id b) (author_name b) (content b) (type b) s (created_at b)
    t (discord_url b) (reactions b).

Definition with_updated_at (b : Bug) (t : Z) : Bug := with_status b (status b) t.

Definition with_u_id (u : BugUpdate) (i : Z) : BugUpdate :=
  mkBugUpdate i (bug_id u) (u_discord_message_id u) (u_author_id u)
    (u_author_name u) (u_content u) (u_created_at u) (u_discord_url u)
    (u_reactions u).

(** [getBugById]: [SELECT * FROM bugs WHERE id = ?]. *)
Definition getBugById (db : BugDatabase) (i : Z) : option Bug :=
  find (fun b => id b =? i) (bugs db).

(** [getBugByMessageId]: [SELECT * FROM bugs WHERE discord_message_id = ?]. *)
Definition getBugByMessageId (db : BugDatabase) (m : Z) : option Bug :=
  find (fun b => discord_message_id b =? m) (bugs db).

(** [getBugIdFromUpdateMessage]: [result?.bug_id || null], so a [bug_id]
    of [0] reads as no result. *)
Definition getBugIdFromUpdateMessage (db : BugDatabase) (m : Z) : option Z :=
  match find (fun u => u_discord_message_id u =? m) (bug_updates db) with
  | Some u => if bug_id u =? 0 then None else Some (bug_id u)
  | None => None
  end.

(** [addBug]: the INSERT fails on the UNIQUE [discord_message_id], and the
    failure is caught and returned as [null]. *)
Definition addBug (db : BugDatabase) (b : Bug) : option Bug * BugDatabase :=
  if existsb (fun r => discord_message_id r =? discord_message_id b) (bugs db)
  then (None, db)
  else
    let row := with_id b (next_bug_rowid db) in
    let db' := mkDb (bugs db ++ [row]) (bug_updates db) (scan_state db)
                 (next_bug_rowid db + 1) (next_update_rowid db) in
    (getBugById db' (next_bug_rowid db), db').

(** [UPDATE bugs SET updated_at = ? WHERE id = ?] *)
Definition touch_bug (db : BugDatabase) (i t : Z) : BugDatabase :=
  set_bugs db (map (fun b => if id b =? i then with_updated_at b t else b) (bugs db)).

(** [addBugUpdate]: the INSERT (UNIQUE [discord_message_id]) then the
    [updated_at] refresh of the owning bug; a duplicate throws before the
    refresh and is returned as [null].  The FOREIGN KEY on [bug_id] is not
    modelled: for a [bug_id] naming no bug the code throws
    SQLITE_CONSTRAINT_FOREIGNKEY and rethrows it, where this model appends
    the row.  The bot's callers pass a bug they have just read from the
    store, so this branch only differs under a concurrent deletion;
    statements about the insert itself assume the bug exists. *)
Definition addBugUpdate (db : BugDatabase) (u : BugUpdate) : option BugUpdate * BugDatabase :=
  if existsb (fun r => u_discord_message_id r =? u_discord_message_id u) (bug_updates db)
  then (None, db)
  else
    let row := with_u_id u (next_update_rowid db) in
    let db1 := mkDb (bugs db) (bug_updates db ++ [row]) (scan_state db)
                 (next_bug_rowid db) (next_update_rowid db + 1) in
    (Some row, touch_bug db1 (bug_id u) (u_created_at u)).

(** [updateBugStatus]: [UPDATE bugs SET status = ?, updated_at = ? WHERE id = ?]. *)
Definition updateBugStatus (db : BugDatabase) (i : Z) (s : Status) (now : Z) : BugDatabase :=
  set_bugs db (map (fun b => if id b =? i then with_status b s now else b) (bugs db)).

(** [ORDER BY updated_at DESC]: a stable insertion sort (rows with equal
    [updated_at] keep their rowid order). *)
Fixpoint insert_desc (b : Bug) (l : list Bug) : list Bug :=
  match l with
  | [] => [b]
  | c :: l' => if updated_at c <? updated_at b then b :: l else c :: insert_desc b l'
  end.

Definition sort_updated_desc (l : list Bug) : list Bug :=
  fold_right insert_desc [] (rev l).

Definition is_open (b : Bug) : bool := status_eqb (status b) Open.

(** [getOpenBugs]: [WHERE status = 'open' ORDER BY updated_at DESC]. *)
Definition getOpenBugs (db : BugDatabase) : list Bug :=
  sort_updated_desc (filter is_open (bugs db)).

(** [getRecentlyActiveBugs]: [WHERE channel_id = ? AND status = 'open'
    ORDER BY updated_at DESC LIMIT ?]. *)
Definition getRecentlyActiveBugs (db : BugDatabase) (ch : Z) (limit : nat) : list Bug :=
  firstn limit (sort_updated_desc
    (filter (fun b => (channel_id b =? ch) && is_open b) (bugs db))).

(** [saveScanState]: [INSERT ... ON CONFLICT(channel_id) DO UPDATE]. *)
Definition saveScanState (db : BugDatabase) (ch last : Z) : BugDatabase :=
  if existsb (fun p => fst p =? ch) (scan_state db)
  then set_scan_state db (map (fun p => if fst p =? ch then (ch, last) else p) (scan_state db))
  else set_scan_state db (scan_state db ++ [(ch, last)]).

(** Every update row names a non-zero, existing bug (the foreign key the
    code keeps: updates are inserted for a bug just read from the store, and
    deleted together with it). *)
Definition updates_wf (d : BugDatabase) : Prop :=
  forall u, In u (bug_updates d) -> bug_id u <> 0 /\ getBugById d (bug_id u) <> None.

(** No bug recorded as fixed is open (or gone) afterwards. *)
Definition keeps_fixed (d d' : BugDatabase) : Prop :=
  forall i, option_map status (getBugById d i) = Some Fixed ->
            option_map status (getBugById d' i) = Some Fixed.

Definition with_reactions (b : Bug) (rs : list Reaction) : Bug :=
  mkBug (id b) (discord_message_id b) (channel_id b) (channel_name b)
    (author_id b) (author_name b) (content b) (type b) (status b) (created_at b)
    (updated_at b) (discord_url b) rs.

Definition with_u_reactions (u : BugUpdate) (rs : list Reaction) : BugUpdate :=
  mkBugUpdate (u_id u) (bug_id u) (u_discord_message_id u) (u_author_id u)
    (u_author_name u) (u_content u) (u_created_at u) (u_discord_url u) rs.

(** [updateBugReactions] *)
Definition updateBugReactions (d : BugDatabase) (mid : Z) (rs : list Reaction) : BugDatabase :=
  set_bugs d (map (fun b => if discord_message_id b =? mid then with_reactions b rs else b)
                (bugs d)).

(** [updateUpdateReactions] *)
Definition updateUpdateReactions (d : BugDatabase) (mid : Z) (rs : list Reaction) : BugDatabase :=
  mkDb (bugs d)
    (map (fun u => if u_discord_message_id u =? mid then with_u_reactions u rs else u)
       (bug_updates d))
    (scan_state d) (next_bug_rowid d) (next_update_rowid d).

Fixpoint insert_created_asc (u : BugUpdate) (l : list BugUpdate) : list BugUpdate :=
  match l with
  | [] => [u]
  | v :: l' => if u_created_at u <? u_created_at v then u :: l else v :: insert_created_asc u l'
  end.

(** [getBugUpdates]: [WHERE bug_id = ? ORDER BY created_at ASC]. *)
Definition getBugUpdates (d : BugDatabase) (i : Z) : list BugUpdate :=
  fold_right insert_created_asc [] (rev (filter (fun u => bug_id u =? i) (bug_updates d))).

(** [getScanState] (its [lastMessageId]). *)
Definition getScanState (db : BugDatabase) (ch : Z) : option Z :=
  option_map snd (find (fun p => fst p =? ch) (scan_state db)).

End Db.
Import Db.

(* ------------------------------------------------------------------ *)
(** ** The AI-assisted analyzer: [analyzer.ts] *)

Module Analyzer.

Inductive Confidence := High | Medium | Low.

Definition is_low (c : Confidence) : bool :=
  match c with Low => true | _ => false end.

(** [AddToBugResult] and [MatchResult] (the [reasoning] text is dropped). *)
Record AddToBugResult := mkAddToBugResult {
  shouldAdd : bool;
  a_bugId : option Z;
  a_confidence : Confidence
}.

Record MatchResult := mkMatchResult {
  r_bugId : option Z;
  r_confidence : Confidence
}.

(** The JSON object extracted from the model's answer: [!!parsed.shouldAdd],
    [parsed.bugId ?? null], and [parsed.confidence] when present. *)
Record AddParsed := mkAddParsed {
  p_shouldAdd : bool;
  p_bugId : option Z;
  p_confidence : option Confidence
}.

Record MatchParsed := mkMatchParsed {
  q_bugId : option Z;
  q_confidence : option Confidence
}.

(** The model behind [this.client.messages.create]: given what the prompt
    carries, the parsed JSON answer, or [None] when the call throws or the
    answer holds no JSON object. *)
Record MessageAnalyzer := mkMessageAnalyzer {
  ask_add : jsstr -> jsstr -> list (Z * jsstr * jsstr)
            -> list (jsstr * jsstr * option Z) -> option AddParsed;
  ask_match : jsstr -> list (Z * jsstr * jsstr) -> option MatchParsed
}.

Definition conf_or_medium (c : option Confidence) : Confidence :=
  match c with Some c' => c' | None => Medium end.

(** [shouldAddToBug] *)
Definition shouldAddToBug (a : MessageAnalyzer) (messageContent messageAuthor : jsstr)
    (recentBugs : list (Z * jsstr * jsstr))
    (recentMessages : list (jsstr * jsstr * option Z)) : AddToBugResult :=
  match recentBugs with
  | [] => mkAddToBugResult false None High
  | _ =>
      match ask_add a messageContent messageAuthor recentBugs recentMessages with
      | Some p => mkAddToBugResult (p_shouldAdd p) (p_bugId p) (conf_or_medium (p_confidence p))
      | None => mkAddToBugResult false None Low
      end
  end.

(** [matchCompletionToBug] *)
Definition matchCompletionToBug (a : MessageAnalyzer) (completionText : jsstr)
    (openBugs : list (Z * jsstr * jsstr)) : MatchResult :=
  match openBugs with
  | [] => mkMatchResult None High
  | [(i, _, _)] => mkMatchResult (Some i) Medium
  | _ =>
      match ask_match a completionText openBugs with
      | Some q => mkMatchResult (q_bugId q) (conf_or_medium (q_confidence q))
      | None => mkMatchResult None Low
      end
  end.

(** [.split(/\s+/).filter(w => w.length > 2)] *)
Definition long_words (s : jsstr) : list jsstr :=
  filter (fun w => Nat.ltb 2 (length w)) (split_ws s).

Definition mem_word (w : jsstr) (ws : list jsstr) : bool := existsb (jsstr_eqb w) ws.

(** [new Set(...)]: the distinct words, first occurrences kept. *)
Fixpoint dedup_words (ws : list jsstr) (seen : list jsstr) : list jsstr :=
  match ws with
  | [] => rev seen
  | w :: ws' => if mem_word w seen then dedup_words ws' seen else dedup_words ws' (w :: seen)
  end.

(** The test of one bug in [findExactOrCloseMatch].  The ratio test
    [matches / max > 0.7] is written [10 * matches > 7 * max]; the two agree
    for every word count below 10^15. *)
Definition close_match (normalizedText : jsstr) (bugContent : jsstr) : bool :=
  let normalizedBug := toLowerCase bugContent in
  if includes normalizedBug normalizedText || includes normalizedText normalizedBug
  then true
  else
    let bugTextAfterPrefix := trim (strip_bug_label (strip_play normalizedBug)) in
    let completionTextClean := trim (strip_bug_label (strip_play normalizedText)) in
    if jsstr_eqb bugTextAfterPrefix completionTextClean then true
    else
      let bugWords := dedup_words (long_words bugTextAfterPrefix) [] in
      let textWords := long_words completionTextClean in
      if Nat.ltb 0 (length textWords) && Nat.ltb 0 (length bugWords) then
        let matches := length (filter (fun w => mem_word w bugWords) textWords) in
        Nat.ltb (7 * Nat.max (length textWords) (length bugWords)) (10 * matches)
      else false.

(** [findExactOrCloseMatch]: the first bug, in the given order, passing the
    test. *)
Definition findExactOrCloseMatch (text : jsstr) (bugs : list (Z * jsstr)) : option Z :=
  let normalizedText := trim (toLowerCase text) in
  option_map fst (find (fun b => close_match normalizedText (snd b)) bugs).

End Analyzer.
Import Analyzer.

(* ------------------------------------------------------------------ *)
(** ** The bot: [part_000] ([class BugTrackerBot]) *)

Module Bot.

(** The fields of a discord.js [Message] the bot reads; [m_reactions] is
    what [extractReactions] returns for it. *)
Record Message := mkMessage {
  m_id : Z;
  m_channelId : Z;
  m_guildId : Z;
  m_author_id : Z;
  m_author_name : jsstr;
  m_author_bot : bool;
  m_content : jsstr;
  m_reference : option Z;
  m_createdAt : Z;
  m_reactions : list Reaction
}.

(** [interface RecentMessage] *)
Record RecentMessage := mkRecentMessage {
  rm_id : Z;
  rm_author : jsstr;
  rm_authorId : Z;
  rm_content : jsstr;
  rm_bugId : option Z;
  rm_timestamp : Z
}.

(** The collaborators the bot is built with: the monitored channel ids
    ([getMonitoredChannelIds]), the optional analyzer, and the channel
    names the gateway reports. *)
Record BotConfig := mkBotConfig {
  monitored : list Z;
  analyzer : option MessageAnalyzer;
  channel_names : Z -> option jsstr
}.

(** The mutable state: the database and [this.recentMessages]. *)
Record BotState := mkBotState {
  db : BugDatabase;
  recentMessages : list (Z * list RecentMessage)
}.

Definition MAX_RECENT_MESSAGES : nat := 10.

Fixpoint decimal_aux (fuel : nat) (n : Z) (acc : jsstr) : jsstr :=
  match fuel with
  | O => acc
  | S f =>
      let acc' := Z.to_N (48 + n mod 10) :: acc in
      if n <? 10 then acc' else decimal_aux f (n / 10) acc'
  end.

(** [`${n}`] for the non-negative ids of Discord. *)
Definition decimal (n : Z) : jsstr := decimal_aux 25 n [].

(** [https://discord.com/channels/${guildId}/${channelId}/${id}] *)
Definition discordUrl (m : Message) : jsstr :=
  of_ascii "https://discord.com/channels/" ++ decimal (m_guildId m) ++ of_ascii "/"
  ++ decimal (m_channelId m) ++ of_ascii "/" ++ decimal (m_id m).

Definition isMonitoredChannel (cfg : BotConfig) (ch : Z) : bool :=
  existsb (Z.eqb ch) (monitored cfg).

(** [isNewBugReport]: [content.trim().startsWith('▶️')] *)
Definition isNewBugReport (c : jsstr) : bool := startsWith (trim c) play_glyph.

(** [isCompletionMarker]: [content.trim().includes('✅')] *)
Definition isCompletionMarker (c : jsstr) : bool := includes (trim c) check_glyph.

Definition bugKeywords : list jsstr :=
  map of_ascii ["bug"; "issue"; "broken"; "error"; "crash"; "fail"; "problem";
                "not working"; "doesn't work"; "doesnt work"]%string.

(** [detectType] *)
Definition detectType (c : jsstr) : BugType :=
  let lower := toLowerCase c in
  if existsb (includes lower) bugKeywords then TBug else TRequest.

(** [r.emoji === '✅' || r.emoji === 'white_check_mark'] over a reaction list. *)
Definition hasCheckReaction (rs : list Reaction) : bool :=
  existsb (fun r => jsstr_eqb (emoji r) check_glyph
                    || jsstr_eqb (emoji r) (of_ascii "white_check_mark")) rs.

Definition recent_of (st : BotState) (ch : Z) : list RecentMessage :=
  match find (fun p => fst p =? ch) (recentMessages st) with
  | Some p => snd p
  | None => []
  end.

(** [addToRecentMessages]: push, drop the oldest beyond ten, [Map.set]. *)
Definition addToRecentMessages (st : BotState) (ch : Z) (m : Message) (bugId : option Z)
  : BotState :=
  let recent := recent_of st ch ++
    [mkRecentMessage (m_id m) (m_author_name m) (m_author_id m) (m_content m) bugId
       (m_createdAt m)] in
  let recent' := if Nat.ltb MAX_RECENT_MESSAGES (length recent) then tl recent else recent in
  let tbl := recentMessages st in
  mkBotState (db st)
    (if existsb (fun p => fst p =? ch) tbl
     then map (fun p => if fst p =? ch then (ch, recent') else p) tbl
     else tbl ++ [(ch, recent')]).

(** The bug row built from a [▶️] message ([createBug], and the two history
    scans with the status they choose). *)
Definition bug_of_message (m : Message) (channelName : jsstr) (s : Status) : Bug :=
  mkBug 0 (m_id m) (m_channelId m) channelName (m_author_id m) (m_author_name m)
    (m_content m) (detectType (m_content m)) s (m_createdAt m) (m_createdAt m)
    (discordUrl m) (m_reactions m).

(** The update row built from a message attached to bug [b]. *)
Definition update_of_message (m : Message) (b : Z) : BugUpdate :=
  mkBugUpdate 0 b (m_id m) (m_author_id m) (m_author_name m) (m_content m)
    (m_createdAt m) (discordUrl m) (m_reactions m).

(** [createBug] *)
Definition createBug (cfg : BotConfig) (st : BotState) (m : Message) : BotState :=
  let channelName :=
    match channel_names cfg (m_channelId m) with
    | Some n => n
    | None => of_ascii "unknown"
    end in
  mkBotState (snd (addBug (db st) (bug_of_message m channelName Open))) (recentMessages st).

(** The reply-chain lookup written out identically in [handleReply], in
    [scanChannelHistory] and in step 3 of [scanExistingMessages]: the bug
    whose message is [ref], else the bug owning the update whose message is
    [ref]. *)
Definition resolveReply (d : BugDatabase) (ref : Z) : option Bug :=
  match getBugByMessageId d ref with
  | Some b => Some b
  | None =>
      match getBugIdFromUpdateMessage d ref with
      | Some bid => getBugById d bid
      | None => None
      end
  end.

(** The reply branch written out identically in [handleCompletion] and in
    step 2 of [scanExistingMessages]: close the replied-to bug if it is
    open, else the bug owning the replied-to update if it is open; [None]
    when neither applies (the code falls through). *)
Definition closeReplyTarget (d : BugDatabase) (ref : Z) (now : Z) : option BugDatabase :=
  let direct :=
    match getBugByMessageId d ref with
    | Some b => if is_open b then Some (updateBugStatus d (id b) Fixed now) else None
    | None => None
    end in
  match direct with
  | Some d' => Some d'
  | None =>
      match getBugIdFromUpdateMessage d ref with
      | Some bid =>
          match getBugById d bid with
          | Some rb => if is_open rb then Some (updateBugStatus d bid Fixed now) else None
          | None => None
          end
      | None => None
      end
  end.

(** [handleCompletion] *)
Definition handleCompletion (cfg : BotConfig) (now : Z) (st : BotState) (m : Message)
  : BotState :=
  let d := db st in
  let replied :=
    match m_reference m with
    | Some ref => closeReplyTarget d ref now
    | None => None
    end in
  match replied with
  | Some d' => mkBotState d' (recentMessages st)
  | None =>
      (* Standalone ✅ message - need to match to a bug *)
      let completionText := trim (replace_check (m_content m)) in
      let openBugs := getOpenBugs d in
      let close i := mkBotState (updateBugStatus d i Fixed now) (recentMessages st) in
      let fallback :=
        match openBugs with
        | [b] => close (id b)
        | _ => st
        end in
      match openBugs with
      | [] => st
      | _ =>
          match analyzer cfg with
          | Some a =>
              let ai_step :=
                let result := matchCompletionToBug a completionText
                                (map (fun b => (id b, content b, author_name b)) openBugs) in
                match r_bugId result with
                | Some i => if (i =? 0) || is_low (r_confidence result) then fallback else close i
                | None => fallback
                end in
              match findExactOrCloseMatch completionText
                      (map (fun b => (id b, content b)) openBugs) with
              | Some e => if e =? 0 then ai_step else close e
              | None => ai_step
              end
          | None => fallback
          end
      end
  end.

(** [handleReply]: whether the reply was handled, and the new state. *)
Definition handleReply (st : BotState) (m : Message) : bool * BotState :=
  match m_reference m with
  | None => (false, st)
  | Some ref =>
      match resolveReply (db st) ref with
      | None => (false, st)
      | Some b =>
          let (u, d') := addBugUpdate (db st) (update_of_message m (id b)) in
          let st' := mkBotState d' (recentMessages st) in
          (true, match u with
                 | Some _ => addToRecentMessages st' (m_channelId m) m (Some (id b))
                 | None => st'
                 end)
      end
  end.

(** [handleContextMessage] *)
Definition handleContextMessage (cfg : BotConfig) (st : BotState) (m : Message) : BotState :=
  let ch := m_channelId m in
  match analyzer cfg with
  | None => addToRecentMessages st ch m None
  | Some a =>
      let recentBugs := getRecentlyActiveBugs (db st) ch 5 in
      match recentBugs with
      | [] => addToRecentMessages st ch m None
      | _ =>
          let channelRecent := recent_of st ch in
          let result :=
            shouldAddToBug a (m_content m) (m_author_name m)
              (map (fun b => (id b, content b, author_name b)) recentBugs)
              (map (fun r => (rm_author r, rm_content r, rm_bugId r)) channelRecent) in
          let not_added := addToRecentMessages st ch m None in
          if shouldAdd result then
            match a_bugId result with
            | Some bid =>
                if bid =? 0 then not_added
                else if existsb (fun b => id b =? bid) recentBugs then
                  let (u, d') := addBugUpdate (db st) (update_of_message m bid) in
                  let st' := mkBotState d' (recentMessages st) in
                  match u with
                  | Some _ => addToRecentMessages st' ch m (Some bid)
                  | None => addToRecentMessages st' ch m None
                  end
                else not_added
            | None => not_added
            end
          else not_added
      end
  end.

(** [handleMessage]: the live path for a created (or edited) message. *)
Definition handleMessage (cfg : BotConfig) (now : Z) (st : BotState) (m : Message)
  : BotState :=
  if m_author_bot m then st
  else if negb (isMonitoredChannel cfg (m_channelId m)) then st
  else
    let c := m_content m in
    if isNewBugReport c then
      addToRecentMessages (createBug cfg st m) (m_channelId m) m None
    else if isCompletionMarker c then handleCompletion cfg now st m
    else
      let (handled, st1) :=
        match m_reference m with
        | Some _ => handleReply st m
        | None => (false, st)
        end in
      if handled then st1 else handleContextMessage cfg st1 m.

(** The body of the per-message loop of [scanExistingMessages] (the watermark
    tracking is in [track_newest]). *)
Definition scanExistingMessage (now : Z) (channelName : jsstr) (d : BugDatabase)
    (m : Message) : BugDatabase :=
  if m_author_bot m then d
  else
    let c := m_content m in
    if isNewBugReport c then
      let st := if hasCheckReaction (m_reactions m) then Fixed else Open in
      snd (addBug d (bug_of_message m channelName st))
    else if isCompletionMarker c then
      match m_reference m with
      | Some ref =>
          match closeReplyTarget d ref now with
          | Some d' => d'
          | None => d
          end
      | None => d (* Standalone ✅ without reply - skip during scan *)
      end
    else
      match m_reference m with
      | Some ref =>
          match resolveReply d ref with
          | Some b => snd (addBugUpdate d (update_of_message m (id b)))
          | None => d
          end
      | None => d
      end.

(** The body of the per-message loop of [scanChannelHistory]. *)
Definition scanChannelHistoryMessage (now : Z) (channelName : jsstr) (d : BugDatabase)
    (m : Message) : BugDatabase :=
  if m_author_bot m then d
  else
    let c := m_content m in
    if isNewBugReport c then
      let st := if hasCheckReaction (m_reactions m) then Fixed else Open in
      snd (addBug d (bug_of_message m channelName st))
    else
      match m_reference m with
      | Some ref =>
          match resolveReply d ref with
          | Some b =>
              let d1 := if isCompletionMarker c && is_open b
                        then updateBugStatus d (id b) Fixed now else d in
              snd (addBugUpdate d1 (update_of_message m (id b)))
          | None => d
          end
      | None => d
      end.

(** [handleReactionAdd] for the emoji [emojiName] put on message [mid];
    [live] is what [extractReactions] reads on that message when the stored
    snapshot is refreshed ([updateMessageReactions]; [None] when no
    monitored channel holds the message). *)
Definition handleReactionAdd (now : Z) (d : BugDatabase) (emojiName : jsstr) (mid : Z)
    (live : option (list Reaction)) : BugDatabase :=
  let refresh :=
    match live with
    | Some rs =>
        match getBugByMessageId d mid with
        | Some _ => updateBugReactions d mid rs
        | None => updateUpdateReactions d mid rs
        end
    | None => d
    end in
  if jsstr_eqb emojiName check_glyph || jsstr_eqb emojiName (of_ascii "white_check_mark") then
    match closeReplyTarget d mid now with
    | Some d' => d'
    | None => refresh
    end
  else refresh.

(** The inner [for (const update of updates)] loop of
    [syncReactionsOnOpenBugs]; [fetched] gives the live reactions of a
    message, [None] when it cannot be fetched (deleted). *)
Fixpoint sync_updates (now : Z) (fetched : Z -> option (list Reaction)) (b : Bug)
    (d : BugDatabase) (ups : list BugUpdate) : BugDatabase :=
  match ups with
  | [] => d
  | u :: rest =>
      match fetched (u_discord_message_id u) with
      | None => sync_updates now fetched b d rest
      | Some rs =>
          if hasCheckReaction rs then
            updateUpdateReactions (updateBugStatus d (id b) Fixed now) (u_discord_message_id u) rs
          else sync_updates now fetched b (updateUpdateReactions d (u_discord_message_id u) rs) rest
      end
  end.

(** [syncReactionsOnOpenBugs] (a channel that cannot be fetched behaves
    like one whose messages all fail to fetch). *)
Definition syncReactionsOnOpenBugs (now : Z) (fetched : Z -> option (list Reaction))
    (d : BugDatabase) : BugDatabase :=
  fold_left (fun d b =>
    match fetched (discord_message_id b) with
    | Some rs =>
        if hasCheckReaction rs then
          updateBugReactions (updateBugStatus d (id b) Fixed now) (discord_message_id b) rs
        else sync_updates now fetched b (updateBugReactions d (discord_message_id b) rs)
               (getBugUpdates d (id b))
    | None => sync_updates now fetched b d (getBugUpdates d (id b))
    end) (getOpenBugs d) d.

End Bot.
Import Bot.

(* ------------------------------------------------------------------ *)
(** ** History pagination and the scan watermark *)

Module Watermark.

(** The gateway's [channel.messages.fetch({ limit: 100, after })]: a
    channel's history is the list of its messages in increasing id order;
    with [after] the page is the 100 oldest messages with a larger id,
    without it the 100 newest ones.  The page is given oldest first, the
    order the code sorts it into. *)
Definition fetch_batch (hist : list Message) (after : option Z) : list Message :=
  match after with
  | Some a => firstn 100 (filter (fun m => a <? m_id m) hist)
  | None => skipn (length hist - 100) hist
  end.

(** [if (!newestMessageId || BigInt(message.id) > BigInt(newestMessageId))] *)
Definition track_newest (newest : option Z) (m : Message) : option Z :=
  match newest with
  | None => Some (m_id m)
  | Some n => if n <? m_id m then Some (m_id m) else newest
  end.

Definition no_message : Message := mkMessage 0 0 0 0 [] false [] None 0 [].

(** The [while (hasMore)] loop of [scanExistingMessages]; [fuel] bounds the
    number of pages (each page but the last is full). *)
Fixpoint scan_pages (fuel : nat) (now : Z) (channelName : jsstr) (hist : list Message)
    (d : BugDatabase) (afterId : option Z) (newest : option Z) : BugDatabase * option Z :=
  match fuel with
  | O => (d, newest)
  | S f =>
      match fetch_batch hist afterId with
      | [] => (d, newest)
      | msgs =>
          let newest' := fold_left track_newest msgs newest in
          let d' := fold_left (scanExistingMessage now channelName) msgs d in
          let afterId' := Some (m_id (last msgs no_message)) in
          if Nat.ltb (length msgs) 100 then (d', newest')
          else scan_pages f now channelName hist d' afterId' newest'
      end
  end.

Definition DISCORD_EPOCH : Z := 1420070400000.

(** [dateToSnowflake] (a date as milliseconds since 1970). *)
Definition dateToSnowflake (t : Z) : Z := Z.shiftl (t - DISCORD_EPOCH) 22.

(** One channel of [scanExistingMessages]: starting point, pagination, and
    the single [saveScanState] of the newest id seen. *)
Definition scanExistingChannel (now : Z) (sinceDate : option Z) (resumeFromSaved : bool)
    (ch : Z) (channelName : jsstr) (hist : list Message) (d : BugDatabase) : BugDatabase :=
  let saved := if resumeFromSaved then getScanState d ch else None in
  let afterId :=
    match saved with
    | Some x => Some x
    | None => option_map dateToSnowflake sinceDate
    end in
  let (d', newest) := scan_pages (S (length hist)) now channelName hist d afterId None in
  match newest with
  | Some n => saveScanState d' ch n
  | None => d'
  end.

(** The store calls of one channel scan, in order: the loop body run on a
    message ([Processed m]: [scanExistingMessage], which calls [addBug],
    [addBugUpdate], [updateBugStatus] and the getters), and a call
    [saveScanState(c, n)] ([SavedState c n]). *)
Inductive ScanEvent := Processed (m : Message) | SavedState (c n : Z).

(** One iteration of [for (const message of sortedMessages)] with its call
    recorded: [newestMessageId] is tracked, then the body runs. *)
Definition scan_step_traced (now : Z) (channelName : jsstr)
    (acc : BugDatabase * list ScanEvent * option Z) (m : Message)
    : BugDatabase * list ScanEvent * option Z :=
  let '(d, tr, newest) := acc in
  (scanExistingMessage now channelName d m, tr ++ [Processed m], track_newest newest m).

(** [scan_pages] with the store calls recorded. *)
Fixpoint scan_pages_traced (fuel : nat) (now : Z) (channelName : jsstr)
    (hist : list Message) (acc : BugDatabase * list ScanEvent * option Z)
    (afterId : option Z) : BugDatabase * list ScanEvent * option Z :=
  match fuel with
  | O => acc
  | S f =>
      match fetch_batch hist afterId with
      | [] => acc
      | msgs =>
          let acc' := fold_left (scan_step_traced now channelName) msgs acc in
          let afterId' := Some (m_id (last msgs no_message)) in
          if Nat.ltb (length msgs) 100 then acc'
          else scan_pages_traced f now channelName hist acc' afterId'
      end
  end.

(** [scanExistingChannel] with the store calls recorded. *)
Definition scanExistingChannel_traced (now : Z) (sinceDate : option Z)
    (resumeFromSaved : bool) (ch : Z) (channelName : jsstr) (hist : list Message)
    (d : BugDatabase) : BugDatabase * list ScanEvent :=
  let saved := if resumeFromSaved then getScanState d ch else None in
  let afterId :=
    match saved with
    | Some x => Some x
    | None => option_map dateToSnowflake sinceDate
    end in
  let '(d', tr, newest) :=
    scan_pages_traced (S (length hist)) now channelName hist (d, [], None) afterId in
  match newest with
  | Some n => (saveScanState d' ch n, tr ++ [SavedState ch n])
  | None => (d', tr)
  end.

(** [saveCurrentPosition]: for every monitored channel, the id of its most
    recent message ([fetch({ limit: 1 })]) is saved. *)
Definition saveCurrentPosition (channels : list Z) (history : Z -> list Message)
    (d : BugDatabase) : BugDatabase :=
  fold_left (fun d ch =>
    match rev (history ch) with
    | m :: _ => saveScanState d ch (m_id m)
    | [] => d
    end) channels d.

End Watermark.
Import Watermark.

(* ------------------------------------------------------------------ *)
(** ** The rest of the store: admin edits, deletions, listings, statistics,
    monitored channels ([db.ts]) *)

Module DbAdmin.

Definition type_eqb (a b : BugType) : bool :=
  match a, b with TBug, TBug | TRequest, TRequest => true | _, _ => false end.

(** [updateBug]: [UPDATE bugs SET <given fields>, updated_at = ? WHERE id = ?]
    then [getBugById]; with no field given the row is only read back.  A
    field is given when it is not [undefined] (an empty string is given). *)
Definition updateBug (d : BugDatabase) (i : Z) (new_content : option jsstr)
    (new_type : option BugType) (new_status : option Status) (now : Z)
    : option Bug * BugDatabase :=
  match new_content, new_type, new_status with
  | None, None, None => (getBugById d i, d)
  | _, _, _ =>
      let upd b :=
        mkBug (id b) (discord_message_id b) (channel_id b) (channel_name b)
          (author_id b) (author_name b)
          (match new_content with Some c => c | None => content b end)
          (match new_type with Some t => t | None => type b end)
          (match new_status with Some s => s | None => status b end)
          (created_at b) now (discord_url b) (reactions b) in
      let d' := set_bugs d (map (fun b => if id b =? i then upd b else b) (bugs d)) in
      (getBugById d' i, d')
  end.

(** [deleteBug]: [false] when the id is unknown; otherwise the bug's
    updates, then the bug. *)
Definition deleteBug (d : BugDatabase) (i : Z) : bool * BugDatabase :=
  match getBugById d i with
  | None => (false, d)
  | Some _ =>
      let d1 := mkDb (bugs d) (filter (fun u => negb (bug_id u =? i)) (bug_updates d))
                  (scan_state d) (next_bug_rowid d) (next_update_rowid d) in
      (true, set_bugs d1 (filter (fun b => negb (id b =? i)) (bugs d1)))
  end.

(** [deleteBugsByChannel]: the ids of the channel's bugs; [0] when there
    are none; otherwise their updates ([bug_id IN (...)]), then the bugs
    ([DELETE ... WHERE channel_id = ?], whose [changes] is returned). *)
Definition deleteBugsByChannel (d : BugDatabase) (ch : Z) : nat * BugDatabase :=
  let bugIds := map id (filter (fun b => channel_id b =? ch) (bugs d)) in
  match bugIds with
  | [] => (0%nat, d)
  | _ =>
      let d1 := mkDb (bugs d)
                  (filter (fun u => negb (existsb (Z.eqb (bug_id u)) bugIds)) (bug_updates d))
                  (scan_state d) (next_bug_rowid d) (next_update_rowid d) in
      let changes := length (filter (fun b => channel_id b =? ch) (bugs d1)) in
      (changes, set_bugs d1 (filter (fun b => negb (channel_id b =? ch)) (bugs d1)))
  end.

(** The [options] of [getAllBugs]; [opt_limit] is [None] for [undefined]
    and for [NaN] (what [parseInt] gives on a non-number). *)
Record BugQuery := mkBugQuery {
  opt_status : option Status;
  opt_type : option BugType;
  opt_channelId : option Z;
  opt_limit : option Z
}.

Definition query_matches (o : BugQuery) (b : Bug) : bool :=
  (match opt_status o with Some s => status_eqb (status b) s | None => true end)
  && (match opt_type o with Some t => type_eqb (type b) t | None => true end)
  && (match opt_channelId o with Some c => channel_id b =? c | None => true end).

(** [ORDER BY created_at DESC]: a stable insertion sort. *)
Fixpoint insert_created_desc (b : Bug) (l : list Bug) : list Bug :=
  match l with
  | [] => [b]
  | c :: l' => if created_at c <? created_at b then b :: l else c :: insert_created_desc b l'
  end.

Definition sort_created_desc (l : list Bug) : list Bug :=
  fold_right insert_created_desc [] (rev l).

(** [if (options.limit) query += ' LIMIT ?']: [0] (falsy) adds no LIMIT,
    and SQLite reads a negative LIMIT as no bound. *)
Definition sql_limit {A} (limit : option Z) (rows : list A) : list A :=
  match limit with
  | Some n => if n <=? 0 then rows else firstn (Z.to_nat n) rows
  | None => rows
  end.

(** [getAllBugs] *)
Definition getAllBugs (d : BugDatabase) (o : BugQuery) : list Bug :=
  sql_limit (opt_limit o) (sort_created_desc (filter (query_matches o) (bugs d))).

(** [getTotalUpdateCount]: the row count of [bug_updates]. *)
Definition getTotalUpdateCount (d : BugDatabase) : nat := length (bug_updates d).

(** [getStats] (a [SUM] over no rows is [NULL], read as [0]). *)
Record Stats := mkStats {
  s_total : nat; s_open : nat; s_fixed : nat;
  s_bugs_total : nat; s_bugs_open : nat; s_bugs_fixed : nat;
  s_requests_total : nat; s_requests_open : nat; s_requests_fixed : nat
}.

Definition count_where (p : Bug -> bool) (l : list Bug) : nat := length (filter p l).

Definition getStats (d : BugDatabase) : Stats :=
  let bs := bugs d in
  let st s b := status_eqb (status b) s in
  let ty t b := type_eqb (type b) t in
  mkStats (length bs) (count_where (st Open) bs) (count_where (st Fixed) bs)
    (count_where (ty TBug) bs)
    (count_where (fun b => ty TBug b && st Open b) bs)
    (count_where (fun b => ty TBug b && st Fixed b) bs)
    (count_where (ty TRequest) bs)
    (count_where (fun b => ty TRequest b && st Open b) bs)
    (count_where (fun b => ty TRequest b && st Fixed b) bs).

(** The [monitored_channels] table ([channel_id] UNIQUE) and its
    AUTOINCREMENT counter. *)
Record MonitoredChannel := mkMonitoredChannel {
  mc_id : Z;
  mc_guild_id : Z;
  mc_channel_id : Z;
  mc_channel_name : jsstr;
  mc_added_by_user_id : Z;
  mc_added_by_username : jsstr;
  mc_added_at : Z
}.

Record ChannelTable := mkChannelTable {
  monitored_channels : list MonitoredChannel;
  next_channel_rowid : Z
}.

(** [addMonitoredChannel]: [false] on the UNIQUE violation. *)
Definition addMonitoredChannel (t : ChannelTable) (guildId channelId : Z)
    (channelName : jsstr) (addedByUserId : Z) (addedByUsername : jsstr) (now : Z)
    : bool * ChannelTable :=
  if existsb (fun c => mc_channel_id c =? channelId) (monitored_channels t)
  then (false, t)
  else (true, mkChannelTable
                (monitored_channels t ++
                   [mkMonitoredChannel (next_channel_rowid t) guildId channelId channelName
                      addedByUserId addedByUsername now])
                (next_channel_rowid t + 1)).

(** [removeMonitoredChannel]: [result.changes > 0]. *)
Definition removeMonitoredChannel (t : ChannelTable) (channelId : Z) : bool * ChannelTable :=
  let kept := filter (fun c => negb (mc_channel_id c =? channelId)) (monitored_channels t) in
  (Nat.ltb 0 (length (monitored_channels t) - length kept),
   mkChannelTable kept (next_channel_rowid t)).

(** [getAllMonitoredChannelIds] *)
Definition getAllMonitoredChannelIds (t : ChannelTable) : list Z :=
  map mc_channel_id (monitored_channels t).

(** [isChannelMonitored] *)
Definition isChannelMonitored (t : ChannelTable) (channelId : Z) : bool :=
  existsb (fun c => mc_channel_id c =? channelId) (monitored_channels t).

(** The keys the schema guarantees on [bugs]: ids positive, distinct and
    below the AUTOINCREMENT counter, and message ids distinct (the UNIQUE
    column). *)
Definition bugs_wf (d : BugDatabase) : Prop :=
  0 < next_bug_rowid d /\
  Forall (fun b => 0 < id b < next_bug_rowid d) (bugs d) /\
  NoDup (map id (bugs d)) /\
  NoDup (map discord_message_id (bugs d)).

(** Two stores hold the same rows, by id, in both tables. *)
Definition same_rows (d d' : BugDatabase) : Prop :=
  map id (bugs d') = map id (bugs d) /\ map u_id (bug_updates d') = map u_id (bug_updates d).

End DbAdmin.
Import DbAdmin.

(* ------------------------------------------------------------------ *)
(** ** Channel management and the channel-add history scan ([part_000]) *)

Module BotAdmin.

(** [getMonitoredChannelIds]: the table's channels, or [config.channelIds]
    (when set) while the table is empty. *)
Definition getMonitoredChannelIds (t : ChannelTable) (configChannelIds : option (list Z))
    : list Z :=
  let dbChannels := getAllMonitoredChannelIds t in
  match configChannelIds with
  | Some cs => if Nat.eqb (length dbChannels) 0 then cs else dbChannels
  | None => dbChannels
  end.

(** [isMonitoredChannel]: [getMonitoredChannelIds().includes(channelId)]. *)
Definition isMonitoredChannel (t : ChannelTable) (configChannelIds : option (list Z))
    (channelId : Z) : bool :=
  existsb (Z.eqb channelId) (getMonitoredChannelIds t configChannelIds).

(** The two replies of [handleDeleteChannel]. *)
Inductive DeleteReply := Deleted (bugsDeleted : nat) | NothingToDelete.

(** [handleDeleteChannel] for a valid channel option. *)
Definition handleDeleteChannel (t : ChannelTable) (d : BugDatabase) (channelId : Z)
    : DeleteReply * ChannelTable * BugDatabase :=
  let (wasMonitored, t') := removeMonitoredChannel t channelId in
  let (bugsDeleted, d') := deleteBugsByChannel d channelId in
  (if wasMonitored || Nat.ltb 0 bugsDeleted then Deleted bugsDeleted else NothingToDelete,
   t', d').

(** The loop body of [scanChannelHistory] with its two counters
    ([bugsFound], [updatesFound]). *)
Definition scanChannelHistoryCounted (now : Z) (channelName : jsstr)
    (acc : BugDatabase * nat * nat) (m : Message) : BugDatabase * nat * nat :=
  let '(d, bugsFound, updatesFound) := acc in
  if m_author_bot m then acc
  else
    let c := m_content m in
    if isNewBugReport c then
      let st := if hasCheckReaction (m_reactions m) then Fixed else Open in
      let (r, d') := addBug d (bug_of_message m channelName st) in
      (d', match r with Some _ => S bugsFound | None => bugsFound end, updatesFound)
    else
      match m_reference m with
      | Some ref =>
          match resolveReply d ref with
          | Some b =>
              let d1 := if isCompletionMarker c && is_open b
                        then updateBugStatus d (id b) Fixed now else d in
              let (u, d') := addBugUpdate d1 (update_of_message m (id b)) in
              (d', bugsFound, match u with Some _ => S updatesFound | None => updatesFound end)
          | None => acc
          end
      | None => acc
      end.

(** [channel.messages.fetch({ limit, before })] over a history in
    increasing id (and creation time) order: the [limit] newest messages
    older than [before] (the [limit] newest without it), oldest first as
    the code sorts them. *)
Definition fetch_before (hist : list Message) (before : option Z) (limit : nat)
    : list Message :=
  let older :=
    match before with
    | Some b => filter (fun m => m_id m <? b) hist
    | None => hist
    end in
  skipn (length older - limit) older.

(** The [while (totalScanned < maxMessages)] loop; [fuel] bounds the number
    of pages.  The result carries [totalScanned]. *)
Fixpoint history_loop (fuel : nat) (now : Z) (channelName : jsstr) (hist : list Message)
    (maxMessages totalScanned : nat) (lastMessageId : option Z)
    (acc : BugDatabase * nat * nat) : BugDatabase * nat * nat * nat :=
  match fuel with
  | O => (acc, totalScanned)
  | S f =>
      if Nat.ltb totalScanned maxMessages then
        let batchSize := Nat.min 100 (maxMessages - totalScanned) in
        let messages := fetch_before hist lastMessageId batchSize in
        match messages with
        | [] => (acc, totalScanned)
        | oldest :: _ =>
            let acc' := fold_left (scanChannelHistoryCounted now channelName) messages acc in
            let total' := (totalScanned + length messages)%nat in
            if Nat.ltb (length messages) batchSize then (acc', total')
            else history_loop f now channelName hist maxMessages total' (Some (m_id oldest)) acc'
        end
      else (acc, totalScanned)
  end.

(** [scanChannelHistory]: the store after the scan and the returned
    [{ bugs, updates }]. *)
Definition scanChannelHistory (now : Z) (channelName : jsstr) (hist : list Message)
    (maxMessages : nat) (d : BugDatabase) : BugDatabase * nat * nat :=
  fst (history_loop (S maxMessages) now channelName hist maxMessages 0 None (d, 0%nat, 0%nat)).

(** What the two counters of [scanChannelHistory] are meant to be: the
    growth of [bugs] and of [bug_updates] since the store [d0]. *)
Definition counted (d0 : BugDatabase) (acc : BugDatabase * nat * nat) : Prop :=
  length (bugs (fst (fst acc))) = (length (bugs d0) + snd (fst acc))%nat /\
  length (bug_updates (fst (fst acc))) = (length (bug_updates d0) + snd acc)%nat.

End BotAdmin.

(* ------------------------------------------------------------------ *)
(** ** The dashboard server ([index.ts], [createServer]) *)

Module Server.

(** A field of a JSON request body: absent, a string, or another value. *)
Inductive JsonField := JUndefined | JString (s : jsstr) | JOther.

(** The status codes the handlers answer with. *)
Inductive Response := Ok | BadRequest | Unauthorized | NotFound.

(** [!!s] for an optional string: unset and [''] are falsy. *)
Definition truthy (o : option jsstr) : bool :=
  match o with Some (_ :: _) => true | _ => false end.

(** [checkDashboardAuth] / [checkAdminAuth]: no (or an empty) password
    configured lets every request through; otherwise the header must be
    the password. *)
Definition checkAuth (password : option jsstr) (header : option jsstr) : bool :=
  if negb (truthy password) then true
  else
    match header, password with
    | Some h, Some p => jsstr_eqb h p
    | _, _ => false
    end.

Definition checkDashboardAuth := checkAuth.
Definition checkAdminAuth := checkAuth.

(** [['open', 'fixed'].includes(status)] *)
Definition parse_status (f : JsonField) : option Status :=
  match f with
  | JString s =>
      if jsstr_eqb s (of_ascii "open") then Some Open
      else if jsstr_eqb s (of_ascii "fixed") then Some Fixed
      else None
  | _ => None
  end.

(** [PATCH /api/bugs/:id]; [idParam] is [parseInt(req.params.id)] ([None]
    for [NaN], which matches no row). *)
Definition patchBugStatus (apiSecret adminPassword : option jsstr)
    (authorization adminHeader : option jsstr) (idParam : option Z) (statusField : JsonField)
    (now : Z) (d : BugDatabase) : Response * BugDatabase :=
  let isBotAuthed :=
    truthy apiSecret &&
    match authorization, apiSecret with
    | Some a, Some s => jsstr_eqb a (of_ascii "Bearer " ++ s)
    | _, _ => false
    end in
  let isAdminAuthed := checkAdminAuth adminPassword adminHeader in
  if negb isBotAuthed && negb isAdminAuthed then (Unauthorized, d)
  else
    match parse_status statusField with
    | None => (BadRequest, d)
    | Some s =>
        (Ok, match idParam with Some i => updateBugStatus d i s now | None => d end)
    end.

(** The validation of [PUT /api/admin/bugs/:id]: [None] is a 400, [Some
    None] a field left out. *)
Definition edit_content (f : JsonField) : option (option jsstr) :=
  match f with
  | JUndefined => Some None
  | JString s => if Nat.eqb (length (trim s)) 0 then None else Some (Some (trim s))
  | JOther => None
  end.

Definition edit_type (f : JsonField) : option (option BugType) :=
  match f with
  | JUndefined => Some None
  | JString s =>
      if jsstr_eqb s (of_ascii "bug") then Some (Some TBug)
      else if jsstr_eqb s (of_ascii "request") then Some (Some TRequest)
      else None
  | JOther => None
  end.

Definition edit_status (f : JsonField) : option (option Status) :=
  match f with
  | JUndefined => Some None
  | _ => match parse_status f with Some s => Some (Some s) | None => None end
  end.

(** [PUT /api/admin/bugs/:id] *)
Definition adminEditBug (adminPassword adminHeader : option jsstr) (idParam : option Z)
    (contentF typeF statusF : JsonField) (now : Z) (d : BugDatabase)
    : Response * option Bug * BugDatabase :=
  if negb (checkAdminAuth adminPassword adminHeader) then (Unauthorized, None, d)
  else
    match edit_content contentF, edit_type typeF, edit_status statusF with
    | Some c, Some t, Some s =>
        match idParam with
        | None => (NotFound, None, d)
        | Some i =>
            let (r, d') := updateBug d i c t s now in
            match r with
            | Some b => (Ok, Some b, d')
            | None => (NotFound, None, d')
            end
        end
    | _, _, _ => (BadRequest, None, d)
    end.

(** [DELETE /api/admin/bugs/:id] *)
Definition adminDeleteBug (adminPassword adminHeader : option jsstr) (idParam : option Z)
    (d : BugDatabase) : Response * BugDatabase :=
  if negb (checkAdminAuth adminPassword adminHeader) then (Unauthorized, d)
  else
    match idParam with
    | None => (NotFound, d)
    | Some i =>
        let (deleted, d') := deleteBug d i in
        (if deleted then Ok else NotFound, d')
    end.

(** The [involved] list of [GET /api/bugs]: a [Set] filled with the
    author, then each update's author, read back in insertion order. *)
Fixpoint set_add_all (seen : list jsstr) (xs : list jsstr) : list jsstr :=
  match xs with
  | [] => seen
  | x :: xs' => set_add_all (if mem_word x seen then seen else seen ++ [x]) xs'
  end.

Definition involved (b : Bug) (updates : list BugUpdate) : list jsstr :=
  set_add_all [author_name b] (map u_author_name updates).

(** [GET /api/bugs] (after the auth check): each bug with its updates and
    the people involved. *)
Definition apiBugs (d : BugDatabase) (o : BugQuery) : list (Bug * list BugUpdate * list jsstr) :=
  map (fun b => let updates := getBugUpdates d (id b) in (b, updates, involved b updates))
    (getAllBugs d o).

End Server.

(* ------------------------------------------------------------------ *)
(** ** Concrete channels, messages and stores *)

Module Fixtures.

Definition ch : Z := 1.

Definition empty_db : BugDatabase := mkDb [] [] [] 1 1.

Definition st0 : BotState := mkBotState empty_db [].

(** A message by a human author in channel [ch]. *)
Definition msg (i : Z) (ref : option Z) (text : jsstr) : Message :=
  mkMessage i ch 7 42 (of_ascii "alice") false text ref (10 * i) [].

Definition cfg_plain : BotConfig :=
  mkBotConfig [ch] None (fun _ => Some (of_ascii "bugs")).

Definition silent_ai : MessageAnalyzer :=
  mkMessageAnalyzer (fun _ _ _ _ => None) (fun _ _ => None).

Definition cfg_ai (a : MessageAnalyzer) : BotConfig :=
  mkBotConfig [ch] (Some a) (fun _ => Some (of_ascii "bugs")).

(** [▶️ login button is broken on mobile], a [✅] reply to it, and a plain
    reply to that reply. *)
Definition m_issue : Message :=
  msg 100 None (play_glyph ++ of_ascii " login button is broken on mobile").
Definition m_done_reply : Message :=
  msg 101 (Some 100) (check_glyph ++ of_ascii " fixed in the latest build").
Definition m_thanks : Message := msg 102 (Some 101) (of_ascii "thanks, confirmed").

Definition open_bug (i mid : Z) (text : jsstr) (upd : Z) : Bug :=
  mkBug i mid ch (of_ascii "bugs") 42 (of_ascii "alice") text TBug Open upd upd [] [].

(** Two open bugs; [A] is the more recently updated one. *)
Definition bug_A : Bug := open_bug 1 200 (play_glyph ++ of_ascii " mobile login page") 50.
Definition bug_B : Bug :=
  open_bug 2 201 (play_glyph ++ of_ascii " page login mobile broken") 40.
Definition db_AB : BugDatabase := mkDb [bug_A; bug_B] [] [] 3 1.
Definition m_done_plm : Message := msg 300 None (check_glyph ++ of_ascii " page login mobile").

(** Two open bugs and a fixed one; an analyzer answering bug 3, high. *)
Definition bug_C : Bug := open_bug 1 400 (play_glyph ++ of_ascii " login broken") 10.
Definition bug_D : Bug := open_bug 2 401 (play_glyph ++ of_ascii " crash on save") 20.
Definition bug_E : Bug :=
  mkBug 3 402 ch (of_ascii "bugs") 42 (of_ascii "alice")
    (play_glyph ++ of_ascii " slow search") TBug Fixed 30 30 [] [].
Definition db_CDE : BugDatabase := mkDb [bug_C; bug_D; bug_E] [] [] 4 1.
Definition ai_says_3 : MessageAnalyzer :=
  mkMessageAnalyzer (fun _ _ _ _ => None) (fun _ _ => Some (mkMatchParsed (Some 3) (Some High))).
Definition m_done_vague : Message :=
  msg 500 None (check_glyph ++ of_ascii " done with that thing").

(** A store with a single open bug. *)
Definition db_C : BugDatabase := mkDb [bug_C] [] [] 2 1.

(** A channel history of messages 1..n. *)
Definition history_upto (n : nat) : list Message :=
  map (fun k => msg (Z.of_nat k) None (of_ascii "hello")) (seq 1 n).

(** The store after the live [▶️] message, and the bug it recorded. *)
Definition st1 : BotState := Eval vm_compute in handleMessage cfg_plain 0 st0 m_issue.
Definition bug_1 : Bug :=
  Eval vm_compute in
    match getBugByMessageId (db st1) 100 with Some b => b | None => bug_A end.

(** A plain reply to the issue message, and a store holding it as an update. *)
Definition m_details : Message := msg 103 (Some 100) (of_ascii "happens on android too").
Definition st_details : BotState := Eval vm_compute in handleMessage cfg_plain 6 st1 m_details.
Definition update_details : BugUpdate :=
  Eval vm_compute in
    match bug_updates (db st_details) with u :: _ => u | [] => update_of_message m_details 1 end.

(** An analyzer attaching every message to bug 1. *)
Definition ai_attach_1 : MessageAnalyzer :=
  mkMessageAnalyzer (fun _ _ _ _ => Some (mkAddParsed true (Some 1) (Some High)))
    (fun _ _ => None).
Definition m_chat : Message := msg 104 None (of_ascii "the login page still spins").

(** A [▶️] message already carrying a [✅] reaction. *)
Definition m_issue_checked : Message :=
  mkMessage 600 ch 7 42 (of_ascii "alice") false
    (play_glyph ++ of_ascii " export fails") None 6000
    [mkReaction check_glyph 1 [of_ascii "bob"]].

End Fixtures.
Import Fixtures.


(* ================================================================== *)
(** * Properties *)

(** ** Lemmas on the store *)

Module StoreFacts.

Lemma find_app_none {A} (f : A -> bool) (l1 l2 : list A) :
  find f l1 = None -> find f (l1 ++ l2) = find f l2.
Proof.
  induction l1 as [|x l1 IH]; simpl; [reflexivity|].
  destruct (f x); [discriminate|exact IH].
Qed.

Lemma find_app_some {A} (f : A -> bool) (l1 l2 : list A) x :
  find f l1 = Some x -> find f (l1 ++ l2) = Some x.
Proof.
  induction l1 as [|y l1 IH]; simpl; [discriminate|].
  destruct (f y); [exact (fun h => h)|exact IH].
Qed.

Lemma find_map_stable {A} (f : A -> bool) (g : A -> A) (l : list A) :
  (forall x, f (g x) = f x) -> find f (map g l) = option_map g (find f l).
Proof.
  intros Hg; induction l as [|x l IH]; simpl; [reflexivity|].
  rewrite Hg; destruct (f x); [reflexivity|exact IH].
Qed.

Lemma existsb_false_find {A} (f : A -> bool) (l : list A) :
  existsb f l = false -> find f l = None.
Proof.
  induction l as [|x l IH]; simpl; [reflexivity|].
  destruct (f x); simpl; [discriminate|exact IH].
Qed.

Lemma find_none_existsb {A} (f : A -> bool) (l : list A) :
  find f l = None -> existsb f l = false.
Proof.
  induction l as [|x l IH]; simpl; [reflexivity|].
  destruct (f x); simpl; [discriminate|exact IH].
Qed.

Lemma existsb_in {A} (f : A -> bool) (l : list A) x :
  In x l -> f x = true -> existsb f l = true.
Proof. intros Hin Hf; apply existsb_exists; eauto. Qed.

(** Rows matched by [updateBugStatus] keep their id; the others are
    untouched. *)
Lemma getBugById_updateBugStatus d i s t j :
  getBugById (updateBugStatus d i s t) j
  = option_map (fun b => if id b =? i then with_status b s t else b) (getBugById d j).
Proof.
  unfold getBugById, updateBugStatus; simpl.
  apply find_map_stable; intros b; cbv beta; destruct (id b =? i); reflexivity.
Qed.

Lemma status_updateBugStatus_same d i s t :
  option_map status (getBugById (updateBugStatus d i s t) i)
  = option_map (fun _ => s) (getBugById d i).
Proof.
  rewrite getBugById_updateBugStatus.
  destruct (getBugById d i) as [b|] eqn:E; simpl; [|reflexivity].
  apply find_some in E; destruct E as [_ E]; rewrite E; reflexivity.
Qed.

Lemma getBugById_touch d i t j :
  option_map status (getBugById (touch_bug d i t) j) = option_map status (getBugById d j).
Proof.
  unfold getBugById, touch_bug; simpl.
  rewrite find_map_stable.
  - destruct (find _ (bugs d)) as [b|]; simpl; [destruct (id b =? i)|]; reflexivity.
  - intros b; cbv beta; destruct (id b =? i); reflexivity.
Qed.

(** [addBugUpdate] changes no bug's status. *)
Lemma status_addBugUpdate d u j :
  option_map status (getBugById (snd (addBugUpdate d u)) j)
  = option_map status (getBugById d j).
Proof.
  unfold addBugUpdate.
  destruct (existsb _ _); simpl; [reflexivity|].
  rewrite getBugById_touch; reflexivity.
Qed.

(** [addBug] leaves every existing bug row where it was. *)
Lemma getBugById_addBug d b j x :
  getBugById d j = Some x -> getBugById (snd (addBug d b)) j = Some x.
Proof.
  unfold addBug, getBugById; intros H.
  destruct (existsb _ _); simpl; [exact H|].
  apply find_app_some; exact H.
Qed.

Lemma bug_updates_touch d i t : bug_updates (touch_bug d i t) = bug_updates d.
Proof. reflexivity. Qed.

Lemma scan_state_addBug d b : scan_state (snd (addBug d b)) = scan_state d.
Proof. unfold addBug; destruct (existsb _ _); reflexivity. Qed.

Lemma scan_state_addBugUpdate d u : scan_state (snd (addBugUpdate d u)) = scan_state d.
Proof. unfold addBugUpdate; destruct (existsb _ _); reflexivity. Qed.

Lemma scan_state_updateBugStatus d i s t : scan_state (updateBugStatus d i s t) = scan_state d.
Proof. reflexivity. Qed.

Lemma scan_state_closeReplyTarget d r t d' :
  closeReplyTarget d r t = Some d' -> scan_state d' = scan_state d.
Proof.
  unfold closeReplyTarget; intros H.
  destruct (getBugByMessageId d r) as [b|]; [destruct (is_open b)|];
    [injection H as <-; reflexivity| |];
  destruct (getBugIdFromUpdateMessage d r) as [bid|]; try discriminate;
  destruct (getBugById d bid) as [rb|]; try discriminate;
  destruct (is_open rb); try discriminate; injection H as <-; reflexivity.
Qed.

End StoreFacts.
Import StoreFacts.

(** ** C1: idempotent inserts *)

(** C1. Inserting a Bug (resp. a BugUpdate) whose Discord message id is
    already stored returns [null] and leaves the whole store unchanged:
    no row is added and no bug's [updated_at] moves.  [addBug] and
    [addBugUpdate] are the only insert paths of the live handlers and of
    both history scans. *)
Theorem duplicate_insert_is_noop :
  (forall (d : BugDatabase) (b r : Bug),
     In r (bugs d) -> discord_message_id r = discord_message_id b ->
     addBug d b = (None, d)) /\
  (forall (d : BugDatabase) (u r : BugUpdate),
     In r (bug_updates d) -> u_discord_message_id r = u_discord_message_id u ->
     addBugUpdate d u = (None, d)).
Proof.
  split.
  - intros d b r Hin Heq; unfold addBug.
    rewrite (existsb_in _ _ r Hin); [reflexivity|].
    rewrite Heq; apply Z.eqb_refl.
  - intros d u r Hin Heq; unfold addBugUpdate.
    rewrite (existsb_in _ _ r Hin); [reflexivity|].
    rewrite Heq; apply Z.eqb_refl.
Qed.

Lemma duplicate_insert_is_noop_witness :
  (In bug_1 (bugs (db st1)) /\ addBug (db st1) (bug_of_message m_issue (of_ascii "bugs") Open) = (None, db st1)) /\
  (In update_details (bug_updates (db st_details)) /\
   addBugUpdate (db st_details) (update_of_message m_details 1) = (None, db st_details)).
Proof.
  split; split.
  - vm_compute; left; reflexivity.
  - apply (proj1 duplicate_insert_is_noop (db st1) _ bug_1); [vm_compute; left|]; reflexivity.
  - vm_compute; left; reflexivity.
  - apply (proj2 duplicate_insert_is_noop (db st_details) _ update_details);
      [vm_compute; left|]; reflexivity.
Defined.

(** ** C2: status writes *)

Module Monotone.

Lemma keeps_fixed_refl d : keeps_fixed d d.
Proof. intros i H; exact H. Qed.

Lemma keeps_fixed_trans d1 d2 d3 :
  keeps_fixed d1 d2 -> keeps_fixed d2 d3 -> keeps_fixed d1 d3.
Proof. intros H12 H23 i H; apply H23, H12, H. Qed.

Lemma keeps_fixed_updateBugStatus d i t : keeps_fixed d (updateBugStatus d i Fixed t).
Proof.
  intros j H; rewrite getBugById_updateBugStatus.
  destruct (getBugById d j) as [b|]; simpl in *; [|discriminate].
  destruct (id b =? i); [reflexivity|exact H].
Qed.

Lemma keeps_fixed_addBug d b : keeps_fixed d (snd (addBug d b)).
Proof.
  intros j H; destruct (getBugById d j) as [x|] eqn:E; [|discriminate].
  rewrite (getBugById_addBug d b j x E); exact H.
Qed.

Lemma keeps_fixed_addBugUpdate d u : keeps_fixed d (snd (addBugUpdate d u)).
Proof. intros j H; rewrite status_addBugUpdate; exact H. Qed.

Lemma keeps_fixed_updateBugReactions d mid rs : keeps_fixed d (updateBugReactions d mid rs).
Proof.
  intros j H; unfold updateBugReactions, getBugById in *; simpl.
  rewrite find_map_stable; [|intros b; cbv beta; destruct (discord_message_id b =? mid); reflexivity].
  destruct (find _ (bugs d)) as [b|]; simpl in *; [|discriminate].
  destruct (discord_message_id b =? mid); exact H.
Qed.

Lemma keeps_fixed_updateUpdateReactions d mid rs :
  keeps_fixed d (updateUpdateReactions d mid rs).
Proof. intros j H; exact H. Qed.

Lemma keeps_fixed_closeReplyTarget d r t d' :
  closeReplyTarget d r t = Some d' -> keeps_fixed d d'.
Proof.
  unfold closeReplyTarget; intros H.
  destruct (getBugByMessageId d r) as [b|]; [destruct (is_open b)|];
    [injection H as <-; apply keeps_fixed_updateBugStatus| |];
  destruct (getBugIdFromUpdateMessage d r) as [bid|]; try discriminate;
  destruct (getBugById d bid) as [rb|]; try discriminate;
  destruct (is_open rb); try discriminate; injection H as <-;
  apply keeps_fixed_updateBugStatus.
Qed.

Create HintDb fixed.

#[local] Hint Resolve keeps_fixed_refl keeps_fixed_updateBugStatus keeps_fixed_addBug
  keeps_fixed_addBugUpdate keeps_fixed_updateBugReactions
  keeps_fixed_updateUpdateReactions : fixed.

Lemma db_addToRecentMessages st ch m o : db (addToRecentMessages st ch m o) = db st.
Proof. reflexivity. Qed.

Lemma handleCompletion_keeps_fixed cfg now st m :
  keeps_fixed (db st) (db (handleCompletion cfg now st m)).
Proof.
  unfold handleCompletion.
  destruct (match m_reference m with Some ref => closeReplyTarget (db st) ref now
            | None => None end) as [d'|] eqn:E.
  - destruct (m_reference m); [|discriminate]; simpl.
    eapply keeps_fixed_closeReplyTarget; exact E.
  - destruct (getOpenBugs (db st)) as [|b0 [|b1 l]]; [apply keeps_fixed_refl| |];
    destruct (analyzer cfg);
    repeat match goal with
           | |- context [match ?x with _ => _ end] => destruct x
           | |- context [if ?x then _ else _] => destruct x
           end; simpl; auto with fixed.
Qed.

Lemma handleReply_keeps_fixed st m :
  keeps_fixed (db st) (db (snd (handleReply st m))).
Proof.
  unfold handleReply.
  destruct (m_reference m); [|apply keeps_fixed_refl].
  destruct (resolveReply (db st) z); [|apply keeps_fixed_refl].
  destruct (addBugUpdate (db st) _) as [u d'] eqn:E.
  replace d' with (snd (addBugUpdate (db st) (update_of_message m (id b)))) by (rewrite E; reflexivity).
  destruct u; simpl; auto with fixed.
Qed.

Lemma handleContextMessage_keeps_fixed cfg st m :
  keeps_fixed (db st) (db (handleContextMessage cfg st m)).
Proof.
  unfold handleContextMessage.
  destruct (analyzer cfg); [|apply keeps_fixed_refl].
  destruct (getRecentlyActiveBugs (db st) (m_channelId m) 5); [apply keeps_fixed_refl|].
  destruct (shouldAdd _); [|apply keeps_fixed_refl].
  destruct (a_bugId _) as [bid|]; [|apply keeps_fixed_refl].
  destruct (bid =? 0); [apply keeps_fixed_refl|].
  destruct (existsb _ _); [|apply keeps_fixed_refl].
  destruct (addBugUpdate (db st) (update_of_message m bid)) as [u d'] eqn:E.
  replace d' with (snd (addBugUpdate (db st) (update_of_message m bid))) by (rewrite E; reflexivity).
  destruct u; simpl; auto with fixed.
Qed.

(** The live handler never reopens a fixed bug. *)
Lemma handleMessage_keeps_fixed cfg now st m :
  keeps_fixed (db st) (db (handleMessage cfg now st m)).
Proof.
  unfold handleMessage.
  destruct (m_author_bot m); [apply keeps_fixed_refl|].
  destruct (negb _); [apply keeps_fixed_refl|].
  destruct (isNewBugReport _); [simpl; apply keeps_fixed_addBug|].
  destruct (isCompletionMarker _); [apply handleCompletion_keeps_fixed|].
  destruct (m_reference m) eqn:Er.
  - destruct (handleReply st m) as [h st1] eqn:E.
    assert (K : keeps_fixed (db st) (db st1)).
    { replace st1 with (snd (handleReply st m)) by (rewrite E; reflexivity).
      apply handleReply_keeps_fixed. }
    destruct h; [exact K|].
    eapply keeps_fixed_trans; [exact K|apply handleContextMessage_keeps_fixed].
  - apply handleContextMessage_keeps_fixed.
Qed.

(** Neither history scan reopens a fixed bug. *)
Lemma scan_steps_keep_fixed now name d m :
  keeps_fixed d (scanExistingMessage now name d m) /\
  keeps_fixed d (scanChannelHistoryMessage now name d m).
Proof.
  split.
  - unfold scanExistingMessage.
    destruct (m_author_bot m); [apply keeps_fixed_refl|].
    destruct (isNewBugReport _); [apply keeps_fixed_addBug|].
    destruct (isCompletionMarker _); destruct (m_reference m) as [r|]; auto with fixed.
    + destruct (closeReplyTarget d r now) eqn:E; [eapply keeps_fixed_closeReplyTarget; exact E|].
      apply keeps_fixed_refl.
    + destruct (resolveReply d r); auto with fixed.
  - unfold scanChannelHistoryMessage.
    destruct (m_author_bot m); [apply keeps_fixed_refl|].
    destruct (isNewBugReport _); [apply keeps_fixed_addBug|].
    destruct (m_reference m) as [r|]; [|apply keeps_fixed_refl].
    destruct (resolveReply d r) as [b|]; [|apply keeps_fixed_refl].
    destruct (isCompletionMarker _ && is_open b).
    + eapply keeps_fixed_trans; [apply keeps_fixed_updateBugStatus|apply keeps_fixed_addBugUpdate].
    + apply keeps_fixed_addBugUpdate.
Qed.

(** The reaction handler and the reaction sweep never reopen a fixed bug. *)
Lemma reaction_paths_keep_fixed now d e mid live fetched :
  keeps_fixed d (handleReactionAdd now d e mid live) /\
  keeps_fixed d (syncReactionsOnOpenBugs now fetched d).
Proof.
  assert (Href : forall d0, keeps_fixed d0
            (match live with
             | Some rs => match getBugByMessageId d0 mid with
                          | Some _ => updateBugReactions d0 mid rs
                          | None => updateUpdateReactions d0 mid rs end
             | None => d0 end)).
  { intros d0; destruct live; [destruct (getBugByMessageId d0 mid)|]; auto with fixed. }
  assert (Hsync : forall b ups d0, keeps_fixed d0 (sync_updates now fetched b d0 ups)).
  { intros b ups; induction ups as [|u ups IH]; intros d0; simpl; [apply keeps_fixed_refl|].
    destruct (fetched (u_discord_message_id u)) as [rs|]; [|apply IH].
    destruct (hasCheckReaction rs).
    - eapply keeps_fixed_trans; [apply keeps_fixed_updateBugStatus|apply keeps_fixed_updateUpdateReactions].
    - eapply keeps_fixed_trans; [apply keeps_fixed_updateUpdateReactions|apply IH]. }
  split.
  - unfold handleReactionAdd.
    destruct (_ || _); [|apply Href].
    destruct (closeReplyTarget d mid now) eqn:E; [eapply keeps_fixed_closeReplyTarget; exact E|apply Href].
  - unfold syncReactionsOnOpenBugs.
    generalize (getOpenBugs d); intros l.
    assert (G : forall l d0, keeps_fixed d d0 -> keeps_fixed d (fold_left (fun d b =>
      match fetched (discord_message_id b) with
      | Some rs =>
          if hasCheckReaction rs then
            updateBugReactions (updateBugStatus d (id b) Fixed now) (discord_message_id b) rs
          else sync_updates now fetched b (updateBugReactions d (discord_message_id b) rs)
                 (getBugUpdates d (id b))
      | None => sync_updates now fetched b d (getBugUpdates d (id b))
      end) l d0)).
    { intros l0; induction l0 as [|b l0 IH]; intros d0 H0; simpl; [exact H0|].
      apply IH; eapply keeps_fixed_trans; [exact H0|].
      destruct (fetched (discord_message_id b)) as [rs|]; [|apply Hsync].
      destruct (hasCheckReaction rs).
      - eapply keeps_fixed_trans; [apply keeps_fixed_updateBugStatus|apply keeps_fixed_updateBugReactions].
      - eapply keeps_fixed_trans; [apply keeps_fixed_updateBugReactions|apply Hsync]. }
    apply G, keeps_fixed_refl.
Qed.

End Monotone.

(** C2 (code_bug). The status writes of the core all write [fixed] and
    never reopen a bug (see [Monotone]), but the AI branch of
    [handleCompletion] writes to whatever bug id the model names without
    checking it is one of the open bugs it was offered: with two open bugs
    and no text match, an answer naming the already fixed bug 3 rewrites
    that bug's row (status [fixed] again, [updated_at] moved from 30 to the
    current time) and closes nothing. *)
Theorem ai_match_writes_status_of_fixed_bug :
  getBugById db_CDE 3 = Some bug_E /\ status bug_E = Fixed /\ updated_at bug_E = 30 /\
  map id (getOpenBugs db_CDE) = [2; 1] /\
  getBugById (db (handleMessage (cfg_ai ai_says_3) 99 (mkBotState db_CDE []) m_done_vague)) 3
    = Some (with_status bug_E Fixed 99) /\
  map status (getOpenBugs db_CDE) = [Open; Open] /\
  map (fun b => (id b, status b))
    (bugs (db (handleMessage (cfg_ai ai_says_3) 99 (mkBotState db_CDE []) m_done_vague)))
    = [(1, Open); (2, Open); (3, Fixed)].
Proof. vm_compute; repeat split. Qed.

(** ** C3: live replies *)

Module Replies.

Lemma find_sound {A} (f : A -> bool) l x : find f l = Some x -> f x = true.
Proof. intros H; apply find_some in H; tauto. Qed.

(** What [closeReplyTarget] does on a reply whose target resolves to an
    open bug. *)
Lemma closeReplyTarget_resolved d r now b :
  resolveReply d r = Some b -> is_open b = true ->
  closeReplyTarget d r now = Some (updateBugStatus d (id b) Fixed now).
Proof.
  unfold resolveReply, closeReplyTarget; intros Hr Ho.
  destruct (getBugByMessageId d r) as [b0|].
  - injection Hr as <-; rewrite Ho; reflexivity.
  - destruct (getBugIdFromUpdateMessage d r) as [bid|]; [|discriminate].
    rewrite Hr, Ho.
    unfold getBugById in Hr; apply find_sound, Z.eqb_eq in Hr; rewrite Hr; reflexivity.
Qed.

Lemma id_resolveReply d r b :
  resolveReply d r = Some b -> getBugById d (id b) <> None.
Proof.
  unfold resolveReply, getBugById; intros Hr.
  destruct (getBugByMessageId d r) as [b0|] eqn:E.
  - injection Hr as <-; unfold getBugByMessageId in E.
    apply find_some in E; destruct E as [Hin _].
    intros Hn; apply (find_none _ _ Hn) in Hin; rewrite Z.eqb_refl in Hin; discriminate.
  - destruct (getBugIdFromUpdateMessage d r) as [bid|]; [|discriminate].
    assert (Hb := Hr); apply find_sound, Z.eqb_eq in Hb; rewrite Hb, Hr; discriminate.
Qed.

End Replies.

(** C3 (code_bug). A live reply whose target resolves to bug [b] (directly,
    or through a recorded BugUpdate) is inserted as a BugUpdate on [b] when
    it carries no [✅]. When it carries [✅] and [b] is open, [handleMessage]
    routes it to [handleCompletion], which closes [b] and returns without
    inserting anything; [scanChannelHistory], given the same reply on the
    same store, closes [b] and inserts the BugUpdate. *)
Theorem completion_reply_live_vs_history :
  forall cfg now name st m ref b,
    m_author_bot m = false ->
    isMonitoredChannel cfg (m_channelId m) = true ->
    isNewBugReport (m_content m) = false ->
    m_reference m = Some ref ->
    resolveReply (db st) ref = Some b ->
    existsb (fun r => u_discord_message_id r =? m_id m) (bug_updates (db st)) = false ->
    (isCompletionMarker (m_content m) = false ->
     In (with_u_id (update_of_message m (id b)) (next_update_rowid (db st)))
        (bug_updates (db (handleMessage cfg now st m)))) /\
    (isCompletionMarker (m_content m) = true -> is_open b = true ->
     bug_updates (db (handleMessage cfg now st m)) = bug_updates (db st) /\
     option_map status (getBugById (db (handleMessage cfg now st m)) (id b)) = Some Fixed /\
     bug_updates (scanChannelHistoryMessage now name (db st) m)
       = bug_updates (db st) ++ [with_u_id (update_of_message m (id b)) (next_update_rowid (db st))] /\
     option_map status (getBugById (scanChannelHistoryMessage now name (db st) m) (id b))
       = Some Fixed).
Proof.
  intros cfg now name st m ref b Hbot Hmon Hnew Href Hres Hdup.
  assert (Hex : getBugById (db st) (id b) <> None) by exact (Replies.id_resolveReply _ _ _ Hres).
  split.
  - intros Hc; unfold handleMessage.
    rewrite Hbot, Hmon, Hnew, Hc, Href; simpl.
    unfold handleReply; rewrite Href, Hres.
    unfold addBugUpdate; simpl; rewrite Hdup; simpl.
    apply in_or_app; right; left; reflexivity.
  - intros Hc Ho.
    assert (Hlive : bug_updates (db (handleMessage cfg now st m)) = bug_updates (db st) /\
       option_map status (getBugById (db (handleMessage cfg now st m)) (id b)) = Some Fixed).
    { unfold handleMessage.
      rewrite Hbot, Hmon, Hnew, Hc; simpl.
      unfold handleCompletion; rewrite Href.
      rewrite (Replies.closeReplyTarget_resolved _ _ _ _ Hres Ho); simpl.
      split; [reflexivity|].
      rewrite status_updateBugStatus_same.
      destruct (getBugById (db st) (id b)) eqn:E; [reflexivity|].
      congruence. }
    destruct Hlive as [Hl1 Hl2]; split; [exact Hl1|split; [exact Hl2|]].
    assert (Hscan : scanChannelHistoryMessage now name (db st) m
      = snd (addBugUpdate (updateBugStatus (db st) (id b) Fixed now) (update_of_message m (id b)))).
    { unfold scanChannelHistoryMessage; rewrite Hbot, Hnew, Href, Hres, Hc, Ho; reflexivity. }
    rewrite Hscan; split.
    + unfold addBugUpdate.
      change (existsb (fun r => u_discord_message_id r =? m_id m) (bug_updates (db st)) = false)
        in Hdup.
      cbn [u_discord_message_id update_of_message updateBugStatus set_bugs bug_updates].
      rewrite Hdup; reflexivity.
    + rewrite status_addBugUpdate, status_updateBugStatus_same.
      destruct (getBugById (db st) (id b)) eqn:E; [reflexivity|].
      congruence.
Qed.

Lemma completion_reply_live_vs_history_witness :
  bug_updates (db (handleMessage cfg_plain 5 st1 m_done_reply)) = bug_updates (db st1) /\
  bug_updates (scanChannelHistoryMessage 5 (of_ascii "bugs") (db st1) m_done_reply)
    = bug_updates (db st1)
      ++ [with_u_id (update_of_message m_done_reply (id bug_1)) (next_update_rowid (db st1))].
Proof.
  destruct (proj2 (completion_reply_live_vs_history cfg_plain 5 (of_ascii "bugs") st1
                     m_done_reply 100 bug_1
                     ltac:(vm_compute; reflexivity) ltac:(vm_compute; reflexivity)
                     ltac:(vm_compute; reflexivity) ltac:(vm_compute; reflexivity)
                     ltac:(vm_compute; reflexivity) ltac:(vm_compute; reflexivity))
              ltac:(vm_compute; reflexivity) ltac:(vm_compute; reflexivity))
    as (H1 & _ & H3 & _).
  split; [exact H1|exact H3].
Defined.

(** ** C4: reply-chain resolution *)

Module Chains.

Lemma find_key_nodup {A} (k : A -> Z) (l : list A) u :
  NoDup (map k l) -> In u l -> find (fun r => k r =? k u) l = Some u.
Proof.
  induction l as [|v l IH]; simpl; [tauto|].
  intros Hnd Hin; inversion Hnd as [|? ? Hnotin Hnd']; subst.
  destruct (k v =? k u) eqn:E.
  - destruct Hin as [<-|Hin]; [reflexivity|].
    apply Z.eqb_eq in E; exfalso; apply Hnotin; rewrite E; apply in_map; exact Hin.
  - destruct Hin as [<-|Hin]; [rewrite Z.eqb_refl in E; discriminate|].
    apply IH; assumption.
Qed.

End Chains.

(** C4 (code_bug). The chain bug <- [✅] reply <- plain reply.  Live, the
    [✅] reply closes the bug but is not recorded, so the plain reply
    resolves to no bug and is attached to nothing; [scanChannelHistory]
    over the same two messages records both replies on the root bug. *)
Theorem chain_through_completion_reply_live_vs_history :
  m_reference m_done_reply = Some 100 /\ m_reference m_thanks = Some 101 /\
  getBugByMessageId (db st1) 100 = Some bug_1 /\ id bug_1 = 1 /\
  resolveReply (db (handleMessage cfg_plain 5 st1 m_done_reply)) 101 = None /\
  bug_updates (db (handleMessage cfg_plain 6 (handleMessage cfg_plain 5 st1 m_done_reply) m_thanks))
    = [] /\
  map (fun u => (u_discord_message_id u, bug_id u))
    (bug_updates (fst (fst (BotAdmin.scanChannelHistory 6 (of_ascii "bugs")
                              [m_done_reply; m_thanks] 100 (db st1)))))
    = [(101, 1); (102, 1)] /\
  option_map status (getBugById (fst (fst (BotAdmin.scanChannelHistory 6 (of_ascii "bugs")
                              [m_done_reply; m_thanks] 100 (db st1)))) 1) = Some Fixed.
Proof. vm_compute; repeat split. Qed.

(** Reply resolution ([handleReply], [getBugIdFromUpdateMessage]). In a
    store whose updates all name an existing bug, a reply to the message of
    a recorded BugUpdate [u] (not itself a bug message) resolves to [u]'s
    bug, at any depth of the chain of recorded updates; and resolution is
    [none] exactly when the target id is neither a bug message nor a
    recorded update message. *)
Theorem reply_resolution :
  forall d, updates_wf d ->
    (forall u,
       NoDup (map u_discord_message_id (bug_updates d)) -> In u (bug_updates d) ->
       getBugByMessageId d (u_discord_message_id u) = None ->
       resolveReply d (u_discord_message_id u) = getBugById d (bug_id u) /\
       getBugById d (bug_id u) <> None) /\
    (forall r,
       resolveReply d r = None <->
       (getBugByMessageId d r = None /\
        forall u, In u (bug_updates d) -> u_discord_message_id u <> r)).
Proof.
  intros d Hwf; split.
  - intros u Hnd Hin Hnb.
    destruct (Hwf u Hin) as [Hnz Hex].
    unfold resolveReply, getBugIdFromUpdateMessage; rewrite Hnb.
    rewrite (Chains.find_key_nodup u_discord_message_id _ u Hnd Hin).
    apply Z.eqb_neq in Hnz; rewrite Hnz; split; [reflexivity|exact Hex].
  - intros r; split.
    + unfold resolveReply, getBugIdFromUpdateMessage; intros H.
      destruct (getBugByMessageId d r); [discriminate|split; [reflexivity|]].
      intros u Hin Heq.
      destruct (find (fun u0 => u_discord_message_id u0 =? r) (bug_updates d)) as [u0|] eqn:E.
      * apply find_some in E; destruct E as [Hin0 _].
        destruct (Hwf u0 Hin0) as [Hnz Hex].
        apply Z.eqb_neq in Hnz; rewrite Hnz in H; contradiction.
      * apply (find_none _ _ E) in Hin; rewrite Heq, Z.eqb_refl in Hin; discriminate.
    + intros [Hnb Hnu]; unfold resolveReply, getBugIdFromUpdateMessage; rewrite Hnb.
      destruct (find (fun u0 => u_discord_message_id u0 =? r) (bug_updates d)) as [u0|] eqn:E;
        [|reflexivity].
      apply find_some in E; destruct E as [Hin0 Heq].
      apply Z.eqb_eq in Heq; exfalso; exact (Hnu u0 Hin0 Heq).
Qed.

Lemma reply_resolution_witness :
  updates_wf (db st_details) /\
  resolveReply (db st_details) (u_discord_message_id update_details)
    = getBugById (db st_details) (bug_id update_details).
Proof.
  assert (Hwf : updates_wf (db st_details)).
  { intros u Hin; vm_compute in Hin; destruct Hin as [<-|[]].
    split; vm_compute; discriminate. }
  split; [exact Hwf|].
  apply (proj1 (reply_resolution (db st_details) Hwf) update_details).
  - vm_compute; repeat constructor; simpl; tauto.
  - vm_compute; left; reflexivity.
  - vm_compute; reflexivity.
Defined.

(** ** C5 and C6: standalone completions *)

(** C5 (counterexample). With open bugs A ("mobile login page", updated
    last) and B ("page login mobile broken"), the completion
    "✅ page login mobile" is a substring of B's text only, yet A is
    closed: A comes first in [getOpenBugs] order and passes the word-overlap
    test (3 of 3 words), and the first bug passing any test wins. *)
Lemma unique_substring_bug_not_closed :
  getOpenBugs db_AB = [bug_A; bug_B] /\
  trim (replace_check (m_content m_done_plm)) = of_ascii "page login mobile" /\
  includes (toLowerCase (content bug_B)) (of_ascii "page login mobile") = true /\
  includes (toLowerCase (content bug_A)) (of_ascii "page login mobile") = false /\
  map (fun b => (id b, status b))
    (bugs (db (handleMessage (cfg_ai silent_ai) 99 (mkBotState db_AB []) m_done_plm)))
    = [(1, Fixed); (2, Open)].
Proof. vm_compute; repeat split. Qed.

(** C5 (amended). For a live standalone completion (human author,
    monitored channel, no [▶️] prefix, no reply reference): when an analyzer
    is configured and [findExactOrCloseMatch] picks bug [e] (the first open
    bug, most recently updated first, whose text contains or is contained in
    the completion text, equals it once stripped, or shares more than 70% of
    its words), [e] is closed and nothing else happens, whatever the model
    would answer; when no analyzer is configured the text match is not run,
    and with two or more open bugs nothing is closed. *)
Theorem text_match_precedes_ai :
  forall mon names now st m,
    m_author_bot m = false ->
    existsb (Z.eqb (m_channelId m)) mon = true ->
    isNewBugReport (m_content m) = false ->
    isCompletionMarker (m_content m) = true ->
    m_reference m = None ->
    (forall e,
       findExactOrCloseMatch (trim (replace_check (m_content m)))
         (map (fun b => (id b, content b)) (getOpenBugs (db st))) = Some e ->
       e <> 0 ->
       forall a, handleMessage (mkBotConfig mon (Some a) names) now st m
                 = mkBotState (updateBugStatus (db st) e Fixed now) (recentMessages st)) /\
    ((2 <= length (getOpenBugs (db st)))%nat ->
     handleMessage (mkBotConfig mon None names) now st m = st).
Proof.
  intros mon names now st m Hbot Hmon Hnew Hc Href; split.
  - intros e He Hnz a.
    unfold handleMessage, isMonitoredChannel; cbn [monitored].
    rewrite Hbot, Hmon, Hnew, Hc; cbn [negb].
    unfold handleCompletion; cbv zeta; rewrite Href; cbn [analyzer]; rewrite He.
    apply Z.eqb_neq in Hnz; rewrite Hnz.
    destruct (getOpenBugs (db st)); [discriminate|reflexivity].
  - intros H2.
    unfold handleMessage, isMonitoredChannel; simpl.
    rewrite Hbot, Hmon, Hnew, Hc; simpl.
    unfold handleCompletion; rewrite Href; simpl.
    destruct (getOpenBugs (db st)) as [|b0 [|b1 l]]; simpl in H2; try lia; reflexivity.
Qed.

Lemma text_match_precedes_ai_witness :
  handleMessage (cfg_ai silent_ai) 99 (mkBotState db_AB []) m_done_plm
  = mkBotState (updateBugStatus db_AB 1 Fixed 99) [].
Proof.
  apply (proj1 (text_match_precedes_ai [ch] (fun _ => Some (of_ascii "bugs")) 99
                  (mkBotState db_AB []) m_done_plm eq_refl eq_refl
                  ltac:(vm_compute; reflexivity) ltac:(vm_compute; reflexivity) eq_refl) 1);
    [vm_compute; reflexivity | discriminate].
Defined.

(** C6. With exactly one open bug, a live standalone completion (human
    author, monitored channel, no [▶️] prefix, no reply reference) closes
    that bug, with or without an analyzer and whatever the model would
    answer; the analyzer's match for a single candidate is that bug with
    [medium] confidence, and it is given without asking the model. *)
Theorem single_open_bug_closed :
  forall cfg now st m b,
    m_author_bot m = false ->
    isMonitoredChannel cfg (m_channelId m) = true ->
    isNewBugReport (m_content m) = false ->
    isCompletionMarker (m_content m) = true ->
    m_reference m = None ->
    getOpenBugs (db st) = [b] ->
    handleMessage cfg now st m
      = mkBotState (updateBugStatus (db st) (id b) Fixed now) (recentMessages st) /\
    (forall a t, matchCompletionToBug a t [(id b, content b, author_name b)]
                 = mkMatchResult (Some (id b)) Medium).
Proof.
  intros cfg now st m b Hbot Hmon Hnew Hc Href Ho; split; [|reflexivity].
  unfold handleMessage; rewrite Hbot, Hmon, Hnew, Hc; simpl.
  unfold handleCompletion; rewrite Href, Ho.
  destruct (analyzer cfg) as [a|]; [|reflexivity].
  unfold findExactOrCloseMatch; simpl.
  destruct (close_match _ _); simpl;
    destruct (id b =? 0) eqn:E; simpl; try rewrite E; reflexivity.
Qed.

Lemma single_open_bug_closed_witness :
  handleMessage (cfg_ai ai_says_3) 99 (mkBotState db_C []) m_done_vague
  = mkBotState (updateBugStatus db_C 1 Fixed 99) [].
Proof.
  apply (proj1 (single_open_bug_closed (cfg_ai ai_says_3) 99 (mkBotState db_C []) m_done_vague
                  bug_C eq_refl eq_refl ltac:(vm_compute; reflexivity)
                  ltac:(vm_compute; reflexivity) eq_refl ltac:(vm_compute; reflexivity))).
Defined.

(** ** C7: completions during history scans *)

Module ScanFacts.

Lemma status_addBug_open d b j :
  option_map status (getBugById d j) = Some Open ->
  option_map status (getBugById (snd (addBug d b)) j) = Some Open.
Proof.
  destruct (getBugById d j) as [x|] eqn:E; [|discriminate].
  rewrite (getBugById_addBug d b j x E); exact (fun h => h).
Qed.

Lemma status_addBugUpdate_open d u j :
  option_map status (getBugById d j) = Some Open ->
  option_map status (getBugById (snd (addBugUpdate d u)) j) = Some Open.
Proof. rewrite status_addBugUpdate; exact (fun h => h). Qed.

End ScanFacts.

(** C7. In both history scans (the resumable backfill [scanExistingMessages]
    and the channel-add [scanChannelHistory]), a completion message (no [▶️]
    prefix, contains [✅]) with no reply reference leaves the store
    unchanged: no status change and no new row. And a bug that is open
    before a scanned message and fixed after it was closed by a completion
    message from a human author that replies to another message. *)
Theorem scan_skips_standalone_completion :
  (forall now name d m,
     isNewBugReport (m_content m) = false ->
     isCompletionMarker (m_content m) = true ->
     m_reference m = None ->
     scanExistingMessage now name d m = d /\ scanChannelHistoryMessage now name d m = d) /\
  (forall f now name d m i,
     In f [scanExistingMessage; scanChannelHistoryMessage] ->
     option_map status (getBugById d i) = Some Open ->
     option_map status (getBugById (f now name d m) i) = Some Fixed ->
     m_author_bot m = false /\ isNewBugReport (m_content m) = false /\
     isCompletionMarker (m_content m) = true /\ exists r, m_reference m = Some r).
Proof.
  split.
  - intros now name d m Hnew Hc Href.
    unfold scanExistingMessage, scanChannelHistoryMessage.
    rewrite Hnew, Hc, Href; destruct (m_author_bot m); split; reflexivity.
  - intros f now name d m i Hf Hopen Hfix.
    destruct Hf as [<- | [<- | []]];
      [unfold scanExistingMessage in Hfix | unfold scanChannelHistoryMessage in Hfix];
      (destruct (m_author_bot m); [rewrite Hopen in Hfix; discriminate|]);
      (destruct (isNewBugReport (m_content m));
        [rewrite (ScanFacts.status_addBug_open _ _ _ Hopen) in Hfix; discriminate|]);
      destruct (isCompletionMarker (m_content m)), (m_reference m) as [r|];
      cbn [andb] in Hfix;
      try solve [repeat split; eauto];
      try (rewrite Hopen in Hfix; discriminate);
      destruct (resolveReply d r); try (rewrite Hopen in Hfix; discriminate);
      rewrite (ScanFacts.status_addBugUpdate_open _ _ _ Hopen) in Hfix; discriminate.
Qed.

Lemma scan_skips_standalone_completion_witness :
  scanExistingMessage 99 (of_ascii "bugs") db_CDE m_done_vague = db_CDE /\
  scanChannelHistoryMessage 99 (of_ascii "bugs") db_CDE m_done_vague = db_CDE.
Proof.
  apply (proj1 scan_skips_standalone_completion);
    [vm_compute; reflexivity | vm_compute; reflexivity | reflexivity].
Defined.

(** ** C8: the scan watermark *)

Module WatermarkFacts.
Import Watermark.

(** [None], or an id above [w]. *)
Definition above (w : Z) (o : option Z) : Prop :=
  match o with None => True | Some n => w < n end.

Lemma scan_state_scanExistingMessage now name d m :
  scan_state (scanExistingMessage now name d m) = scan_state d.
Proof.
  unfold scanExistingMessage; destruct (m_author_bot m); [reflexivity|].
  destruct (isNewBugReport _); [apply scan_state_addBug|].
  destruct (isCompletionMarker _), (m_reference m) as [r|]; try reflexivity.
  - destruct (closeReplyTarget d r now) eqn:E; [eapply scan_state_closeReplyTarget; eauto|reflexivity].
  - destruct (resolveReply d r); [apply scan_state_addBugUpdate|reflexivity].
Qed.

Lemma scan_state_fold now name l d :
  scan_state (fold_left (scanExistingMessage now name) l d) = scan_state d.
Proof.
  revert d; induction l as [|m l IH]; intros d; simpl; [reflexivity|].
  rewrite IH; apply scan_state_scanExistingMessage.
Qed.

Lemma scan_state_scan_pages fuel now name hist d after newest :
  scan_state (fst (scan_pages fuel now name hist d after newest)) = scan_state d.
Proof.
  revert d after newest; induction fuel as [|f IH]; intros d after newest;
    cbn [scan_pages fst]; [reflexivity|].
  destruct (fetch_batch hist after) as [|m0 rest]; cbn [fst]; [reflexivity|].
  cbv zeta; destruct (Nat.ltb _ _); cbn [fst]; [apply scan_state_fold|].
  rewrite IH; apply scan_state_fold.
Qed.

Lemma in_firstn {A} n (l : list A) x : In x (firstn n l) -> In x l.
Proof. intros H; rewrite <- (firstn_skipn n l); apply in_or_app; left; exact H. Qed.

Lemma last_in {A} (l : list A) x0 : l <> [] -> In (last l x0) l.
Proof.
  induction l as [|x [|y l] IH]; intros H; [congruence|left; reflexivity|].
  change (In (last (y :: l) x0) (x :: y :: l)); right; apply IH; discriminate.
Qed.

Lemma fetch_batch_after hist a m : In m (fetch_batch hist (Some a)) -> a < m_id m.
Proof.
  intros H; apply in_firstn, filter_In in H; destruct H as [_ H].
  apply Z.ltb_lt; exact H.
Qed.

Lemma fold_track_newest w l newest :
  (forall m, In m l -> w < m_id m) -> above w newest ->
  above w (fold_left track_newest l newest).
Proof.
  revert newest; induction l as [|m l IH]; intros newest Hl Hn; simpl; [exact Hn|].
  apply IH; [intros x Hx; apply Hl; right; exact Hx|].
  unfold track_newest; destruct newest as [n|].
  - destruct (n <? m_id m); cbn [above]; [apply Hl; left; reflexivity|exact Hn].
  - cbn [above]; apply Hl; left; reflexivity.
Qed.

Lemma scan_pages_above fuel now name hist d a w newest :
  w <= a -> above w newest ->
  above w (snd (scan_pages fuel now name hist d (Some a) newest)).
Proof.
  revert d a newest; induction fuel as [|f IH]; intros d a newest Ha Hn;
    cbn [scan_pages snd]; [exact Hn|].
  destruct (fetch_batch hist (Some a)) as [|m0 rest] eqn:Eb; cbn [snd]; [exact Hn|].
  assert (Hall : forall m, In m (m0 :: rest) -> w < m_id m).
  { intros m Hm; rewrite <- Eb in Hm; apply fetch_batch_after in Hm; lia. }
  cbv zeta; destruct (Nat.ltb _ _); cbn [snd].
  - apply fold_track_newest; assumption.
  - apply IH.
    + assert (w < m_id (last (m0 :: rest) no_message)) by (apply Hall, last_in; discriminate).
      lia.
    + apply fold_track_newest; assumption.
Qed.

Lemma getScanState_ext d1 d2 c :
  scan_state d1 = scan_state d2 -> getScanState d1 c = getScanState d2 c.
Proof. unfold getScanState; intros ->; reflexivity. Qed.

Lemma scan_state_saveScanState_ext d1 d2 ch n :
  scan_state d1 = scan_state d2 ->
  scan_state (saveScanState d1 ch n) = scan_state (saveScanState d2 ch n).
Proof. unfold saveScanState; intros E; rewrite E; destruct (existsb _ _); reflexivity. Qed.

Lemma getScanState_save_same d ch n : getScanState (saveScanState d ch n) ch = Some n.
Proof.
  unfold getScanState, saveScanState.
  destruct (existsb _ (scan_state d)) eqn:E; cbn [scan_state set_scan_state].
  - rewrite find_map_stable.
    + destruct (find (fun p => fst p =? ch) (scan_state d)) as [p|] eqn:F.
      * apply find_some in F; destruct F as [_ F]; cbn [option_map]; rewrite F; reflexivity.
      * apply find_none_existsb in F; congruence.
    + intros p; destruct (fst p =? ch) eqn:Ep; [apply Z.eqb_refl|exact Ep].
  - rewrite find_app_none by (apply existsb_false_find; exact E).
    cbn; rewrite Z.eqb_refl; reflexivity.
Qed.

Lemma getScanState_save_other d ch ch' n :
  ch' <> ch -> getScanState (saveScanState d ch n) ch' = getScanState d ch'.
Proof.
  intros Hne; unfold getScanState, saveScanState.
  destruct (existsb _ (scan_state d)); cbn [scan_state set_scan_state].
  - rewrite find_map_stable.
    + destruct (find (fun p => fst p =? ch') (scan_state d)) as [p|] eqn:F; cbn [option_map];
        [|reflexivity].
      apply find_some in F; destruct F as [_ F]; apply Z.eqb_eq in F.
      destruct (fst p =? ch) eqn:Ep; [apply Z.eqb_eq in Ep; congruence|reflexivity].
    + intros p; destruct (fst p =? ch) eqn:Ep; [|reflexivity].
      apply Z.eqb_eq in Ep; rewrite Ep; reflexivity.
  - destruct (find (fun p => fst p =? ch') (scan_state d)) as [p|] eqn:F.
    + rewrite (find_app_some _ _ _ _ F); reflexivity.
    + rewrite (find_app_none _ _ _ F); cbn.
      destruct (ch =? ch') eqn:E; [apply Z.eqb_eq in E; congruence|reflexivity].
Qed.

(** [scanExistingChannel] is one [scan_pages] run followed by at most one
    [saveScanState]; in resume mode the run starts after the stored id. *)
Lemma scanExistingChannel_shape now sinceDate resume ch name hist d :
  exists after d1 nw,
    scan_pages (S (length hist)) now name hist d after None = (d1, nw) /\
    (resume = true -> forall w, getScanState d ch = Some w -> after = Some w) /\
    scanExistingChannel now sinceDate resume ch name hist d
      = match nw with Some n => saveScanState d1 ch n | None => d1 end.
Proof.
  unfold scanExistingChannel; cbv zeta.
  exists (match (if resume then getScanState d ch else None) with
          | Some x => Some x
          | None => option_map dateToSnowflake sinceDate
          end).
  destruct (scan_pages _ _ _ _ _ _ _) as [d1 nw] eqn:E.
  exists d1, nw; split; [reflexivity|split; [|reflexivity]].
  intros -> w Hw; rewrite Hw; reflexivity.
Qed.

Lemma fold_scan_step_traced now name msgs d tr nw :
  fold_left (scan_step_traced now name) msgs (d, tr, nw)
  = (fold_left (scanExistingMessage now name) msgs d, tr ++ map Processed msgs,
     fold_left track_newest msgs nw).
Proof.
  revert d tr nw; induction msgs as [|m msgs IH]; intros d tr nw; cbn [fold_left map].
  - rewrite app_nil_r; reflexivity.
  - cbn [scan_step_traced]; rewrite IH, <- app_assoc; reflexivity.
Qed.

(** The traced pagination runs the loop body over a list [seen] of
    messages, the one [scan_pages] runs it over, and records exactly those
    calls. *)
Lemma scan_pages_traced_seen fuel now name hist d tr nw after :
  exists seen,
    scan_pages_traced fuel now name hist (d, tr, nw) after
      = (fold_left (scanExistingMessage now name) seen d, tr ++ map Processed seen,
         fold_left track_newest seen nw) /\
    scan_pages fuel now name hist d after nw
      = (fold_left (scanExistingMessage now name) seen d, fold_left track_newest seen nw).
Proof.
  revert d tr nw after; induction fuel as [|f IH]; intros d tr nw after.
  - exists []; cbn; rewrite app_nil_r; split; reflexivity.
  - cbn [scan_pages_traced scan_pages].
    destruct (fetch_batch hist after) as [|m0 rest].
    + exists []; cbn; rewrite app_nil_r; split; reflexivity.
    + cbv zeta; rewrite fold_scan_step_traced.
      destruct (Nat.ltb (length (m0 :: rest)) 100).
      * exists (m0 :: rest); split; reflexivity.
      * destruct (IH (fold_left (scanExistingMessage now name) (m0 :: rest) d)
                     (tr ++ map Processed (m0 :: rest))
                     (fold_left track_newest (m0 :: rest) nw)
                     (Some (m_id (last (m0 :: rest) no_message)))) as [seen [H1 H2]].
        exists ((m0 :: rest) ++ seen); rewrite H1, H2, !fold_left_app, map_app, app_assoc.
        split; reflexivity.
Qed.

Lemma fold_track_newest_some l k :
  exists n, fold_left track_newest l (Some k) = Some n.
Proof.
  revert k; induction l as [|m l IH]; intros k; cbn [fold_left]; [eauto|].
  unfold track_newest at 2; destruct (k <? m_id m); apply IH.
Qed.

Lemma fold_track_newest_none l : fold_left track_newest l None = None -> l = [].
Proof.
  destruct l as [|m l]; [reflexivity|]; cbn [fold_left track_newest].
  destruct (fold_track_newest_some l (m_id m)) as [n Hn]; rewrite Hn; discriminate.
Qed.

(** [newestMessageId] ends as the largest id of the messages seen. *)
Lemma fold_track_newest_max l nw n :
  fold_left track_newest l nw = Some n ->
  (nw = Some n \/ In n (map m_id l)) /\ (forall m, In m l -> m_id m <= n) /\
  (forall k, nw = Some k -> k <= n).
Proof.
  revert nw; induction l as [|m l IH]; intros nw H; cbn [fold_left] in H.
  - subst nw; split; [left; reflexivity|split; [intros m []|intros k Hk; injection Hk; lia]].
  - destruct (IH _ H) as [Hin [Hall Hk]].
    assert (Hm : exists k', track_newest nw m = Some k' /\ m_id m <= k' /\
                            forall k, nw = Some k -> k <= k' /\ (k' = k \/ k' = m_id m)).
    { unfold track_newest; destruct nw as [k|].
      - destruct (k <? m_id m) eqn:E; [apply Z.ltb_lt in E|apply Z.ltb_ge in E].
        + exists (m_id m); split; [reflexivity|split; [lia|]].
          intros k0 Hk0; injection Hk0 as <-; split; [lia|right; reflexivity].
        + exists k; split; [reflexivity|split; [lia|]].
          intros k0 Hk0; injection Hk0 as <-; split; [lia|left; reflexivity].
      - exists (m_id m); split; [reflexivity|split; [lia|intros k0 Hk0; discriminate]]. }
    destruct Hm as [k' [Ek' [Hmk' Hkk']]].
    rewrite Ek' in Hin, Hk.
    assert (Hk'n : k' <= n) by (apply Hk; reflexivity).
    split; [|split].
    + destruct Hin as [Hin|Hin]; [injection Hin as Hin; subst n|right; right; exact Hin].
      destruct nw as [k|].
      * destruct (proj2 (Hkk' k eq_refl)) as [E|E]; rewrite E;
          [left; reflexivity|right; left; reflexivity].
      * cbn [track_newest] in Ek'; injection Ek' as <-; right; left; reflexivity.
    + intros x [<-|Hx]; [lia|apply Hall, Hx].
    + intros k Hk0; destruct (Hkk' k Hk0); lia.
Qed.

End WatermarkFacts.

(** C8 (counterexample). The shutdown save [saveCurrentPosition] writes the
    id of the channel's current newest message unconditionally: with 5
    stored and the newest live message 4 (message 5 deleted), the stored
    watermark drops to 4. *)
Lemma shutdown_save_lowers_watermark :
  getScanState (mkDb [] [] [(ch, 5)] 1 1) ch = Some 5 /\
  getScanState (Watermark.saveCurrentPosition [ch] (fun _ => history_upto 4)
                  (mkDb [] [] [(ch, 5)] 1 1)) ch = Some 4.
Proof. vm_compute; split; reflexivity. Qed.

(** C8 (amended). One channel scan of [scanExistingMessages], with its store
    calls recorded: the recorded run ends in the same store as
    [scanExistingChannel]; the loop body never writes the scan state; the
    calls are the body run over the messages [seen], then at most one
    [saveScanState], for this channel, with the largest id in [seen] (none
    when nothing was seen, and then the store is unchanged); no other
    channel's watermark changes; and a scan that resumes from a stored
    watermark [w] leaves a watermark [n >= w]. *)
Theorem scan_watermark_once_and_monotone :
  forall now sinceDate resume ch name hist d,
    let d' := Watermark.scanExistingChannel now sinceDate resume ch name hist d in
    let tr := snd (Watermark.scanExistingChannel_traced now sinceDate resume ch name hist d) in
    fst (Watermark.scanExistingChannel_traced now sinceDate resume ch name hist d) = d' /\
    (forall d0 m, scan_state (scanExistingMessage now name d0 m) = scan_state d0) /\
    ((tr = [] /\ d' = d) \/
     (exists seen n,
        tr = map Watermark.Processed seen ++ [Watermark.SavedState ch n] /\
        d' = saveScanState (fold_left (scanExistingMessage now name) seen d) ch n /\
        In n (map m_id seen) /\ (forall m, In m seen -> m_id m <= n) /\
        scan_state d' = scan_state (saveScanState d ch n))) /\
    (forall ch', ch' <> ch -> getScanState d' ch' = getScanState d ch') /\
    (forall w, resume = true -> getScanState d ch = Some w ->
     exists n, w <= n /\ getScanState d' ch = Some n).
Proof.
  intros now sinceDate resume c name hist d d' tr.
  assert (Htr :
    fst (Watermark.scanExistingChannel_traced now sinceDate resume c name hist d) = d' /\
    ((tr = [] /\ d' = d) \/
     (exists seen n,
        tr = map Watermark.Processed seen ++ [Watermark.SavedState c n] /\
        d' = saveScanState (fold_left (scanExistingMessage now name) seen d) c n /\
        In n (map m_id seen) /\ (forall m, In m seen -> m_id m <= n) /\
        scan_state d' = scan_state (saveScanState d c n)))).
  { subst d' tr; unfold Watermark.scanExistingChannel_traced, Watermark.scanExistingChannel.
    cbv zeta.
    destruct (WatermarkFacts.scan_pages_traced_seen (S (length hist)) now name hist d [] None
                (match (if resume then getScanState d c else None) with
                 | Some x => Some x
                 | None => option_map dateToSnowflake sinceDate
                 end)) as [seen [H1 H2]].
    rewrite H1, H2; cbn [app].
    destruct (fold_left track_newest seen None) as [n|] eqn:En; cbn [fst snd].
    - split; [reflexivity|right; exists seen, n].
      destruct (WatermarkFacts.fold_track_newest_max seen None n En) as [[Hn|Hn] [Hall _]];
        [discriminate|].
      split; [reflexivity|split; [reflexivity|split; [exact Hn|split; [exact Hall|]]]].
      apply WatermarkFacts.scan_state_saveScanState_ext, WatermarkFacts.scan_state_fold.
    - apply WatermarkFacts.fold_track_newest_none in En; subst seen.
      split; [reflexivity|left; split; reflexivity]. }
  destruct Htr as [Htr1 Htr2].
  split; [exact Htr1|split; [apply WatermarkFacts.scan_state_scanExistingMessage|split; [exact Htr2|]]].
  destruct (WatermarkFacts.scanExistingChannel_shape now sinceDate resume c name hist d)
    as (after & d1 & nw & Es & Ha & Ed).
  subst d'; rewrite Ed.
  pose proof (WatermarkFacts.scan_state_scan_pages (S (length hist)) now name hist d after None)
    as Hs; rewrite Es in Hs; cbn [fst] in Hs.
  split.
  - intros ch' Hne; destruct nw as [n|].
    + rewrite WatermarkFacts.getScanState_save_other by exact Hne.
      apply WatermarkFacts.getScanState_ext, Hs.
    + apply WatermarkFacts.getScanState_ext, Hs.
  - intros w Hr Hw.
    rewrite (Ha Hr w Hw) in Es.
    pose proof (WatermarkFacts.scan_pages_above (S (length hist)) now name hist d w w None
                  (Z.le_refl w) I) as Hab.
    rewrite Es in Hab; cbn [snd] in Hab.
    destruct nw as [n|].
    + exists n; split; [cbn in Hab; lia|apply WatermarkFacts.getScanState_save_same].
    + exists w; split; [lia|].
      rewrite (WatermarkFacts.getScanState_ext _ d c Hs); exact Hw.
Qed.

Lemma scan_watermark_once_and_monotone_witness :
  (exists n, 5 <= n /\
    getScanState (Watermark.scanExistingChannel 0 None true ch (of_ascii "bugs")
                    (history_upto 250) (mkDb [] [] [(ch, 5)] 1 1)) ch = Some n) /\
  snd (Watermark.scanExistingChannel_traced 0 None true ch (of_ascii "bugs")
         (history_upto 3) (mkDb [] [] [(ch, 1)] 1 1))
  = [Watermark.Processed (msg 2 None (of_ascii "hello"));
     Watermark.Processed (msg 3 None (of_ascii "hello")); Watermark.SavedState ch 3].
Proof.
  split.
  - apply (proj2 (proj2 (proj2 (proj2 (scan_watermark_once_and_monotone 0 None true ch
             (of_ascii "bugs") (history_upto 250) (mkDb [] [] [(ch, 5)] 1 1))))) 5);
      [reflexivity | vm_compute; reflexivity].
  - vm_compute; reflexivity.
Defined.

(** ** C9: attaching plain messages *)

(** C9. A live plain message (human author, monitored channel, neither
    [▶️] nor [✅], no reply reference) either only enters the recent-message
    cache, the store unchanged; or an analyzer is configured, its answer
    says [shouldAdd] with a non-zero [bugId] that is one of the (at most 5)
    recently active open bugs of the channel it was offered, and the
    message is recorded as an update of that bug. A failed model call
    ([ask_add] giving no parsed answer) reads as [shouldAdd = false]. *)
Theorem plain_message_attach_guard :
  (forall cfg now st m,
     m_author_bot m = false ->
     isMonitoredChannel cfg (m_channelId m) = true ->
     isNewBugReport (m_content m) = false ->
     isCompletionMarker (m_content m) = false ->
     m_reference m = None ->
     (handleMessage cfg now st m = addToRecentMessages st (m_channelId m) m None /\
      db (handleMessage cfg now st m) = db st) \/
     (exists a bid,
        analyzer cfg = Some a /\
        let r := shouldAddToBug a (m_content m) (m_author_name m)
                   (map (fun b => (id b, content b, author_name b))
                      (getRecentlyActiveBugs (db st) (m_channelId m) 5))
                   (map (fun r => (rm_author r, rm_content r, rm_bugId r))
                      (recent_of st (m_channelId m))) in
        shouldAdd r = true /\ a_bugId r = Some bid /\ bid <> 0 /\
        In bid (map id (getRecentlyActiveBugs (db st) (m_channelId m) 5)) /\
        db (handleMessage cfg now st m) = snd (addBugUpdate (db st) (update_of_message m bid)))) /\
  (forall a c au bs rs,
     ask_add a c au bs rs = None -> shouldAdd (shouldAddToBug a c au bs rs) = false).
Proof.
  split.
  - intros cfg now st m Hbot Hmon Hnew Hc Href.
    assert (Hh : handleMessage cfg now st m = handleContextMessage cfg st m).
    { unfold handleMessage; rewrite Hbot, Hmon, Hnew, Hc, Href; reflexivity. }
    rewrite Hh; unfold handleContextMessage; cbv zeta.
    destruct (analyzer cfg) as [a|]; [|left; split; reflexivity].
    destruct (getRecentlyActiveBugs (db st) (m_channelId m) 5) as [|b0 l] eqn:Er;
      [left; split; reflexivity|].
    destruct (shouldAdd _) eqn:Es; [|left; split; reflexivity].
    destruct (a_bugId _) as [bid|] eqn:Eb; [|left; split; reflexivity].
    destruct (bid =? 0) eqn:Ez; [left; split; reflexivity|].
    destruct (existsb (fun b => id b =? bid) (b0 :: l)) eqn:Ex; [|left; split; reflexivity].
    right; exists a, bid; split; [reflexivity|]; cbv zeta.
    split; [exact Es|split; [exact Eb|split; [apply Z.eqb_neq, Ez|split]]].
    + apply existsb_exists in Ex; destruct Ex as [b [Hb Hid]].
      apply Z.eqb_eq in Hid; subst bid; apply in_map; exact Hb.
    + destruct (addBugUpdate (db st) (update_of_message m bid)) as [[u|] d'];
        reflexivity.
  - intros a c au bs rs H; unfold shouldAddToBug.
    destruct bs; [reflexivity|rewrite H; reflexivity].
Qed.

Lemma plain_message_attach_guard_witness :
  (handleMessage (cfg_ai ai_attach_1) 0 st1 m_chat
     = addToRecentMessages st1 (m_channelId m_chat) m_chat None /\
   db (handleMessage (cfg_ai ai_attach_1) 0 st1 m_chat) = db st1) \/
  (exists a bid,
     analyzer (cfg_ai ai_attach_1) = Some a /\
     let r := shouldAddToBug a (m_content m_chat) (m_author_name m_chat)
                (map (fun b => (id b, content b, author_name b))
                   (getRecentlyActiveBugs (db st1) (m_channelId m_chat) 5))
                (map (fun r => (rm_author r, rm_content r, rm_bugId r))
                   (recent_of st1 (m_channelId m_chat))) in
     shouldAdd r = true /\ a_bugId r = Some bid /\ bid <> 0 /\
     In bid (map id (getRecentlyActiveBugs (db st1) (m_channelId m_chat) 5)) /\
     db (handleMessage (cfg_ai ai_attach_1) 0 st1 m_chat)
       = snd (addBugUpdate (db st1) (update_of_message m_chat bid))).
Proof.
  apply (proj1 plain_message_attach_guard);
    [reflexivity | reflexivity | vm_compute; reflexivity | vm_compute; reflexivity | reflexivity].
Defined.

(** ** C10: [▶️] messages already marked done *)

(** C10. In both history scans, a [▶️] message from a human author that
    already carries a [✅] reaction and is not yet in the store is recorded
    as a bug whose status is [fixed] from its creation. *)
Theorem scan_checked_issue_created_fixed :
  forall f now name d m,
    In f [scanExistingMessage; scanChannelHistoryMessage] ->
    m_author_bot m = false ->
    isNewBugReport (m_content m) = true ->
    hasCheckReaction (m_reactions m) = true ->
    getBugByMessageId d (m_id m) = None ->
    exists b, getBugByMessageId (f now name d m) (m_id m) = Some b /\ status b = Fixed.
Proof.
  intros f now name d m Hf Hbot Hnew Hck Hnone.
  assert (Hstep : f now name d m = snd (addBug d (bug_of_message m name Fixed))).
  { destruct Hf as [<- | [<- | []]];
      [unfold scanExistingMessage | unfold scanChannelHistoryMessage];
      rewrite Hbot, Hnew, Hck; reflexivity. }
  rewrite Hstep; unfold addBug.
  assert (Hex : existsb (fun r => discord_message_id r
                                  =? discord_message_id (bug_of_message m name Fixed)) (bugs d)
                = false) by exact (find_none_existsb _ _ Hnone).
  rewrite Hex; cbn [snd].
  exists (with_id (bug_of_message m name Fixed) (next_bug_rowid d)); split; [|reflexivity].
  unfold getBugByMessageId; cbn [bugs].
  rewrite (find_app_none _ _ _ Hnone); cbn; rewrite Z.eqb_refl; reflexivity.
Qed.

Lemma scan_checked_issue_created_fixed_witness :
  exists b, getBugByMessageId (scanChannelHistoryMessage 0 (of_ascii "bugs") empty_db m_issue_checked)
              (m_id m_issue_checked) = Some b /\ status b = Fixed.
Proof.
  apply (scan_checked_issue_created_fixed scanChannelHistoryMessage 0 (of_ascii "bugs")
           empty_db m_issue_checked);
    [right; left; reflexivity | reflexivity | vm_compute; reflexivity
    | vm_compute; reflexivity | reflexivity].
Defined.

(* ================================================================== *)
(** * Further properties of the code *)

(** ** The insertion sorts behind [ORDER BY] *)

Module SortFacts.

Section Ins.
Context {A : Type} (lt : A -> A -> bool) (R : A -> A -> Prop).
Hypothesis R_not_lt : forall x y, lt x y = false -> R x y.
Hypothesis R_lt : forall x y, lt x y = true -> R y x.

(** The shape shared by [insert_desc], [insert_created_desc] and
    [insert_created_asc]: [b] goes before the first [c] with [lt c b]. *)
Fixpoint gins (b : A) (l : list A) : list A :=
  match l with
  | [] => [b]
  | c :: l' => if lt c b then b :: l else c :: gins b l'
  end.

Lemma gins_perm b l : Permutation (b :: l) (gins b l).
Proof.
  induction l as [|c l IH]; simpl; [reflexivity|].
  destruct (lt c b); [reflexivity|].
  rewrite perm_swap; constructor; exact IH.
Qed.

Lemma gins_sorted b l : Sorted R l -> Sorted R (gins b l).
Proof.
  induction l as [|c l IH]; intros Hs; simpl; [repeat constructor|].
  destruct (lt c b) eqn:E.
  - constructor; [exact Hs|constructor; apply R_lt; exact E].
  - apply Sorted_inv in Hs; destruct Hs as [Hs Hh].
    constructor; [apply IH, Hs|].
    destruct l as [|c' l]; simpl; [constructor; apply R_not_lt; exact E|].
    destruct (lt c' b); constructor; [apply R_not_lt; exact E|].
    inversion Hh; assumption.
Qed.

Lemma gsort_perm l : Permutation l (fold_right gins [] (rev l)).
Proof.
  rewrite (Permutation_rev l) at 1.
  induction (rev l) as [|x r IH]; simpl; [reflexivity|].
  rewrite <- gins_perm; constructor; exact IH.
Qed.

Lemma gsort_sorted l : Sorted R (fold_right gins [] (rev l)).
Proof.
  induction (rev l) as [|x r IH]; simpl; [constructor|].
  apply gins_sorted, IH.
Qed.

End Ins.

Lemma sort_updated_desc_gins l :
  sort_updated_desc l = fold_right (gins (fun c b => updated_at c <? updated_at b)) [] (rev l).
Proof.
  unfold sort_updated_desc; induction (rev l) as [|x r IH]; simpl; [reflexivity|].
  rewrite IH; generalize (fold_right (gins (fun c b => updated_at c <? updated_at b)) [] r).
  induction l0 as [|c l0 IHl]; simpl; [reflexivity|].
  destruct (updated_at c <? updated_at x); [reflexivity|rewrite IHl; reflexivity].
Qed.

Lemma sort_created_desc_gins l :
  sort_created_desc l = fold_right (gins (fun c b => created_at c <? created_at b)) [] (rev l).
Proof.
  unfold sort_created_desc; induction (rev l) as [|x r IH]; simpl; [reflexivity|].
  rewrite IH; generalize (fold_right (gins (fun c b => created_at c <? created_at b)) [] r).
  induction l0 as [|c l0 IHl]; simpl; [reflexivity|].
  destruct (created_at c <? created_at x); [reflexivity|rewrite IHl; reflexivity].
Qed.

Lemma getBugUpdates_gins d i :
  getBugUpdates d i
  = fold_right (gins (fun v u => u_created_at u <? u_created_at v)) []
      (rev (filter (fun u => bug_id u =? i) (bug_updates d))).
Proof.
  unfold getBugUpdates; induction (rev _) as [|x r IH]; simpl; [reflexivity|].
  rewrite IH; generalize (fold_right (gins (fun v u => u_created_at u <? u_created_at v)) [] r).
  induction l as [|c l IHl]; simpl; [reflexivity|].
  destruct (u_created_at x <? u_created_at c); [reflexivity|rewrite IHl; reflexivity].
Qed.

Lemma sort_updated_desc_perm l : Permutation l (sort_updated_desc l).
Proof. rewrite sort_updated_desc_gins; apply gsort_perm. Qed.

Lemma sort_updated_desc_sorted l :
  Sorted (fun x y => updated_at y <= updated_at x) (sort_updated_desc l).
Proof.
  rewrite sort_updated_desc_gins; apply gsort_sorted.
  - intros x y H; apply Z.ltb_ge in H; exact H.
  - intros x y H; apply Z.ltb_lt in H; lia.
Qed.

Lemma sort_created_desc_perm l : Permutation l (sort_created_desc l).
Proof. rewrite sort_created_desc_gins; apply gsort_perm. Qed.

Lemma sort_created_desc_sorted l :
  Sorted (fun x y => created_at y <= created_at x) (sort_created_desc l).
Proof.
  rewrite sort_created_desc_gins; apply gsort_sorted.
  - intros x y H; apply Z.ltb_ge in H; exact H.
  - intros x y H; apply Z.ltb_lt in H; lia.
Qed.

Lemma sorted_firstn {A} (R : A -> A -> Prop) n l : Sorted R l -> Sorted R (firstn n l).
Proof.
  revert l; induction n as [|n IH]; intros l Hs; [constructor|].
  destruct l as [|x l]; [constructor|]; simpl.
  apply Sorted_inv in Hs; destruct Hs as [Hs Hh].
  constructor; [apply IH, Hs|].
  destruct n, l; simpl; constructor; inversion Hh; assumption.
Qed.

Lemma strongly_sorted_app {A} (R : A -> A -> Prop) l1 l2 x y :
  StronglySorted R (l1 ++ l2) -> In x l1 -> In y l2 -> R x y.
Proof.
  induction l1 as [|z l1 IH]; intros Hs Hx Hy; [destruct Hx|].
  apply StronglySorted_inv in Hs; destruct Hs as [Hs Hall].
  destruct Hx as [<-|Hx]; [|exact (IH Hs Hx Hy)].
  rewrite Forall_forall in Hall; apply Hall, in_or_app; right; exact Hy.
Qed.

End SortFacts.

(** ** Listings of the store *)

(** The updates of a bug, as [getBugUpdates] lists them, are exactly the
    rows naming that bug, in increasing [created_at] order. *)
Theorem getBugUpdates_sorted_complete :
  forall d i,
    Permutation (filter (fun u => bug_id u =? i) (bug_updates d)) (getBugUpdates d i) /\
    Sorted (fun u v => u_created_at u <= u_created_at v) (getBugUpdates d i).
Proof.
  intros d i; rewrite SortFacts.getBugUpdates_gins; split.
  - apply SortFacts.gsort_perm.
  - apply SortFacts.gsort_sorted.
    + intros x y H; apply Z.ltb_ge in H; exact H.
    + intros x y H; apply Z.ltb_lt in H; lia.
Qed.

(** [getOpenBugs] lists exactly the open bugs, most recently updated
    first. *)
Theorem getOpenBugs_sorted_complete :
  forall d,
    Permutation (filter is_open (bugs d)) (getOpenBugs d) /\
    Sorted (fun x y => updated_at y <= updated_at x) (getOpenBugs d).
Proof.
  intros d; split; [apply SortFacts.sort_updated_desc_perm|apply SortFacts.sort_updated_desc_sorted].
Qed.

(** [getRecentlyActiveBugs d ch limit] gives [min limit k] bugs, where [k]
    is the number of open bugs of channel [ch]; each is an open bug of
    that channel; and an open bug of the channel left out was updated no
    later than any bug given. *)
Theorem getRecentlyActiveBugs_most_recent :
  forall d ch limit,
    let r := getRecentlyActiveBugs d ch limit in
    length r = Nat.min limit (length (filter (fun b => (channel_id b =? ch) && is_open b) (bugs d))) /\
    (forall b, In b r -> In b (bugs d) /\ channel_id b = ch /\ status b = Open) /\
    (forall b, In b (bugs d) -> channel_id b = ch -> status b = Open -> ~ In b r ->
       forall x, In x r -> updated_at b <= updated_at x).
Proof.
  intros d c limit r.
  set (f := filter (fun b => (channel_id b =? c) && is_open b) (bugs d)).
  pose proof (SortFacts.sort_updated_desc_perm f) as Hp.
  pose proof (SortFacts.sort_updated_desc_sorted f) as Hs.
  assert (Hr : r = firstn limit (sort_updated_desc f)) by reflexivity.
  split; [|split].
  - rewrite Hr, length_firstn, <- (Permutation_length Hp); reflexivity.
  - intros b Hb; rewrite Hr in Hb; apply WatermarkFacts.in_firstn in Hb.
    apply (Permutation_in _ (Permutation_sym Hp)) in Hb.
    unfold f in Hb; apply filter_In in Hb; destruct Hb as [Hb Hc].
    apply andb_prop in Hc; destruct Hc as [Hc Ho].
    apply Z.eqb_eq in Hc; unfold is_open in Ho.
    split; [exact Hb|split; [exact Hc|destruct (status b); [reflexivity|discriminate]]].
  - intros b Hb Hc Ho Hn x Hx.
    assert (Hbf : In b (sort_updated_desc f)).
    { apply (Permutation_in _ Hp); unfold f; apply filter_In; split; [exact Hb|].
      unfold is_open; rewrite Hc, Z.eqb_refl, Ho; reflexivity. }
    rewrite <- (firstn_skipn limit (sort_updated_desc f)) in Hbf.
    apply in_app_or in Hbf; destruct Hbf as [Hbf|Hbf]; [rewrite <- Hr in Hbf; contradiction|].
    apply Sorted_StronglySorted in Hs; [|intros a1 a2 a3; lia].
    rewrite <- (firstn_skipn limit (sort_updated_desc f)) in Hs.
    rewrite Hr in Hx.
    exact (SortFacts.strongly_sorted_app _ _ _ _ _ Hs Hx Hbf).
Qed.

Lemma getRecentlyActiveBugs_most_recent_witness :
  updated_at bug_B <= updated_at bug_A.
Proof.
  apply (proj2 (proj2 (getRecentlyActiveBugs_most_recent db_AB ch 1)) bug_B);
    [simpl; auto | reflexivity | reflexivity
    | vm_compute; intros [H|[]]; discriminate | vm_compute; left; reflexivity].
Defined.

(** [getAllBugs] gives bugs of the store that pass every filter given,
    newest [created_at] first; a positive [limit] [n] gives the [min n k]
    first of the [k] matching bugs, and a limit that is absent, [NaN], [0]
    or negative gives all [k] of them. *)
Theorem getAllBugs_filter_order_limit :
  forall d o,
    let r := getAllBugs d o in
    (forall b, In b r -> In b (bugs d) /\ query_matches o b = true) /\
    Sorted (fun x y => created_at y <= created_at x) r /\
    (forall n, opt_limit o = Some n -> 0 < n ->
       length r = Nat.min (Z.to_nat n) (length (filter (query_matches o) (bugs d)))) /\
    ((match opt_limit o with Some n => n <= 0 | None => True end) ->
       Permutation (filter (query_matches o) (bugs d)) r).
Proof.
  intros d o r.
  set (f := filter (query_matches o) (bugs d)).
  pose proof (SortFacts.sort_created_desc_perm f) as Hp.
  pose proof (SortFacts.sort_created_desc_sorted f) as Hs.
  assert (Hr : r = sql_limit (opt_limit o) (sort_created_desc f)) by reflexivity.
  assert (Hsub : forall b, In b r -> In b (sort_created_desc f)).
  { intros b Hb; rewrite Hr in Hb; unfold sql_limit in Hb.
    destruct (opt_limit o) as [n|]; [destruct (n <=? 0)|]; try exact Hb.
    apply WatermarkFacts.in_firstn in Hb; exact Hb. }
  split; [|split; [|split]].
  - intros b Hb; apply Hsub, (Permutation_in _ (Permutation_sym Hp)), filter_In in Hb; exact Hb.
  - rewrite Hr; unfold sql_limit.
    destruct (opt_limit o) as [n|]; [destruct (n <=? 0)|]; try exact Hs.
    apply SortFacts.sorted_firstn, Hs.
  - intros n Hn Hpos; rewrite Hr; unfold sql_limit; rewrite Hn.
    replace (n <=? 0) with false by (symmetry; apply Z.leb_gt; exact Hpos).
    rewrite length_firstn, <- (Permutation_length Hp); reflexivity.
  - intros Hl; rewrite Hr; unfold sql_limit.
    destruct (opt_limit o) as [n|]; [|exact Hp].
    replace (n <=? 0) with true by (symmetry; apply Z.leb_le; exact Hl); exact Hp.
Qed.

Lemma getAllBugs_filter_order_limit_witness :
  length (getAllBugs db_CDE (mkBugQuery (Some Open) None None (Some 1))) = 1%nat /\
  Permutation (filter (query_matches (mkBugQuery None None (Some ch) (Some 0))) (bugs db_CDE))
    (getAllBugs db_CDE (mkBugQuery None None (Some ch) (Some 0))).
Proof.
  split.
  - apply (proj1 (proj2 (proj2 (getAllBugs_filter_order_limit db_CDE
                                  (mkBugQuery (Some Open) None None (Some 1))))) 1);
      reflexivity.
  - apply (proj2 (proj2 (proj2 (getAllBugs_filter_order_limit db_CDE
                                  (mkBugQuery None None (Some ch) (Some 0)))))).
    simpl; lia.
Defined.

(** The counters of [getStats] add up: every bug is open or fixed, and a
    bug or a request. *)
Theorem getStats_consistent :
  forall d,
    let s := getStats d in
    s_total s = (s_open s + s_fixed s)%nat /\
    s_total s = (s_bugs_total s + s_requests_total s)%nat /\
    s_open s = (s_bugs_open s + s_requests_open s)%nat /\
    s_fixed s = (s_bugs_fixed s + s_requests_fixed s)%nat /\
    s_bugs_total s = (s_bugs_open s + s_bugs_fixed s)%nat /\
    s_requests_total s = (s_requests_open s + s_requests_fixed s)%nat.
Proof.
  intros d s; unfold s, getStats, count_where; cbn [s_total s_open s_fixed s_bugs_total
    s_bugs_open s_bugs_fixed s_requests_total s_requests_open s_requests_fixed].
  induction (bugs d) as [|b l IH]; [repeat split|].
  destruct IH as (H1 & H2 & H3 & H4 & H5 & H6).
  cbn [filter length]; destruct (status b), (type b); cbn; lia.
Qed.

(** ** Inserts, edits and deletions *)

Module MutationFacts.

Lemma NoDup_snoc {A} (l : list A) x : NoDup l -> ~ In x l -> NoDup (l ++ [x]).
Proof.
  induction l as [|a l IH]; intros Hn Hx; simpl; [constructor; [intros []|constructor]|].
  apply NoDup_cons_iff in Hn; destruct Hn as [Ha Hn].
  constructor.
  - intros H; apply in_app_or in H; destruct H as [H|[H|[]]]; [contradiction|].
    apply Hx; left; symmetry; exact H.
  - apply IH; [exact Hn|intros H; apply Hx; right; exact H].
Qed.

Lemma map_id_stable {B} (k : Bug -> B) (g : Bug -> Bug) l :
  (forall b, k (g b) = k b) -> map k (map g l) = map k l.
Proof. intros H; rewrite map_map; apply map_ext; exact H. Qed.

Lemma find_filter_sub {A} (p q : A -> bool) l :
  (forall x, p x = true -> q x = true) -> find p (filter q l) = find p l.
Proof.
  intros H; induction l as [|x l IH]; simpl; [reflexivity|].
  destruct (p x) eqn:Ep.
  - rewrite (H x Ep); simpl; rewrite Ep; reflexivity.
  - destruct (q x); simpl; [rewrite Ep|]; exact IH.
Qed.

Lemma find_filter_neg {A} (p : A -> bool) l : find p (filter (fun x => negb (p x)) l) = None.
Proof.
  induction l as [|x l IH]; simpl; [reflexivity|].
  destruct (p x) eqn:Ep; simpl; [exact IH|rewrite Ep; exact IH].
Qed.

Lemma find_filter_some {A} (p q : A -> bool) l x :
  find p l = Some x -> q x = true -> find p (filter q l) = Some x.
Proof.
  induction l as [|y l IH]; simpl; [discriminate|].
  destruct (p y) eqn:Ep.
  - intros [= <-] Hq; simpl; rewrite Hq; simpl; rewrite Ep; reflexivity.
  - intros H Hq; destruct (q y); simpl; [rewrite Ep|]; apply IH; assumption.
Qed.

Lemma Forall_filter {A} (P : A -> Prop) f l : Forall P l -> Forall P (filter f l).
Proof. rewrite !Forall_forall; intros H x Hx; apply filter_In in Hx; apply H, Hx. Qed.

Lemma NoDup_map_filter {A B} (k : A -> B) f l : NoDup (map k l) -> NoDup (map k (filter f l)).
Proof.
  induction l as [|x l IH]; simpl; [constructor|].
  intros Hn; apply NoDup_cons_iff in Hn; destruct Hn as [Hx Hn].
  destruct (f x); simpl; [|apply IH, Hn].
  constructor; [|apply IH, Hn].
  intros Hin; apply Hx; apply in_map_iff in Hin; destruct Hin as [y [Hy Hin]].
  apply filter_In in Hin; rewrite <- Hy; apply in_map, Hin.
Qed.

Lemma getBugById_map d (g : Bug -> Bug) j :
  (forall b, id (g b) = id b) ->
  find (fun b => id b =? j) (map g (bugs d)) = option_map g (getBugById d j).
Proof.
  intros Hg; apply find_map_stable; intros b; rewrite Hg; reflexivity.
Qed.

(** Rewriting every row with a map that keeps ids and message ids keeps
    [bugs_wf]. *)
Lemma bugs_wf_map d d' (g : Bug -> Bug) :
  bugs_wf d -> bugs d' = map g (bugs d) -> next_bug_rowid d' = next_bug_rowid d ->
  (forall b, id (g b) = id b) -> (forall b, discord_message_id (g b) = discord_message_id b) ->
  bugs_wf d'.
Proof.
  intros (H0 & Hf & Hi & Hm) Hb Hn Hg Hgm; unfold bugs_wf; rewrite Hb, Hn.
  split; [exact H0|split; [|split]].
  - rewrite Forall_map; rewrite Forall_forall in *; intros b Hin; rewrite Hg; apply Hf, Hin.
  - rewrite map_id_stable by exact Hg; exact Hi.
  - rewrite map_id_stable by exact Hgm; exact Hm.
Qed.

Lemma bugs_wf_filter d f :
  bugs_wf d -> forall d', bugs d' = filter f (bugs d) -> next_bug_rowid d' = next_bug_rowid d ->
  bugs_wf d'.
Proof.
  intros (H0 & Hf & Hi & Hm) d' Hb Hn; unfold bugs_wf; rewrite Hb, Hn.
  split; [exact H0|split; [apply Forall_filter, Hf|split; apply NoDup_map_filter; assumption]].
Qed.

End MutationFacts.

(** A fresh [▶️] row is stored at the end of [bugs] under the next
    AUTOINCREMENT id, [addBug] returns that row, and it is what
    [getBugByMessageId] reads back for its message id. *)
Theorem addBug_returns_inserted_row :
  forall d b,
    bugs_wf d ->
    ~ In (discord_message_id b) (map discord_message_id (bugs d)) ->
    let row := with_id b (next_bug_rowid d) in
    fst (addBug d b) = Some row /\
    bugs (snd (addBug d b)) = bugs d ++ [row] /\
    getBugByMessageId (snd (addBug d b)) (discord_message_id b) = Some row /\
    getBugById (snd (addBug d b)) (next_bug_rowid d) = Some row.
Proof.
  intros d b Hwf Hfresh row.
  destruct Hwf as (H0 & Hf & Hi & Hm).
  assert (Hex : existsb (fun r => discord_message_id r =? discord_message_id b) (bugs d) = false).
  { apply not_true_iff_false; intros H; apply existsb_exists in H.
    destruct H as [x [Hx Heq]]; apply Z.eqb_eq in Heq.
    apply Hfresh; rewrite <- Heq; apply in_map, Hx. }
  assert (Hid : find (fun x => id x =? next_bug_rowid d) (bugs d) = None).
  { apply existsb_false_find, not_true_iff_false; intros H; apply existsb_exists in H.
    destruct H as [x [Hx Heq]]; apply Z.eqb_eq in Heq.
    rewrite Forall_forall in Hf; specialize (Hf x Hx); lia. }
  assert (Hmid : find (fun x => discord_message_id x =? discord_message_id b) (bugs d) = None)
    by (apply existsb_false_find, Hex).
  unfold addBug; rewrite Hex; cbn [fst snd bugs].
  unfold getBugById, getBugByMessageId; cbn [bugs].
  rewrite (find_app_none _ _ _ Hid), (find_app_none _ _ _ Hmid); cbn.
  rewrite Z.eqb_refl; cbn; rewrite Z.eqb_refl; repeat split; reflexivity.
Qed.

Lemma addBug_returns_inserted_row_witness :
  fst (addBug db_AB (bug_of_message m_issue (of_ascii "bugs") Open))
  = Some (with_id (bug_of_message m_issue (of_ascii "bugs") Open) 3).
Proof.
  apply (addBug_returns_inserted_row db_AB (bug_of_message m_issue (of_ascii "bugs") Open)).
  - unfold bugs_wf; vm_compute; split; [reflexivity|split; [|split]].
    + repeat constructor; discriminate.
    + repeat constructor; simpl; intuition discriminate.
    + repeat constructor; simpl; intuition discriminate.
  - vm_compute; intuition discriminate.
Defined.

Module WfFacts.
Import MutationFacts.

Lemma bugs_wf_ext d d' :
  bugs_wf d -> bugs d' = bugs d -> next_bug_rowid d' = next_bug_rowid d -> bugs_wf d'.
Proof. unfold bugs_wf; intros H -> ->; exact H. Qed.

Lemma bugs_wf_addBug d b : bugs_wf d -> bugs_wf (snd (addBug d b)).
Proof.
  intros Hwf; unfold addBug.
  destruct (existsb _ (bugs d)) eqn:Ex; [exact Hwf|].
  destruct Hwf as (H0 & Hf & Hi & Hm); unfold bugs_wf; cbn [snd bugs next_bug_rowid].
  split; [lia|split; [|split]].
  - apply Forall_app; split.
    + rewrite Forall_forall in *; intros x Hx; specialize (Hf x Hx); lia.
    + constructor; [simpl; lia|constructor].
  - rewrite map_app; apply NoDup_snoc; [exact Hi|].
    intros Hin; apply in_map_iff in Hin; destruct Hin as [x [Hx Hin]].
    rewrite Forall_forall in Hf; specialize (Hf x Hin); simpl in Hx; lia.
  - rewrite map_app; apply NoDup_snoc; [exact Hm|].
    intros Hin; apply in_map_iff in Hin; destruct Hin as [x [Hx Hin]].
    assert (existsb (fun r => discord_message_id r =? discord_message_id b) (bugs d) = true)
      as Ht by (apply existsb_exists; exists x; split; [exact Hin|apply Z.eqb_eq; exact Hx]).
    congruence.
Qed.

Lemma bugs_wf_touch d i t : bugs_wf d -> bugs_wf (touch_bug d i t).
Proof.
  intros Hwf; eapply bugs_wf_map; [exact Hwf|reflexivity|reflexivity| |];
    intros b; cbv beta; destruct (id b =? i); reflexivity.
Qed.

Lemma bugs_wf_addBugUpdate d u : bugs_wf d -> bugs_wf (snd (addBugUpdate d u)).
Proof.
  intros Hwf; unfold addBugUpdate.
  destruct (existsb _ (bug_updates d)); [exact Hwf|].
  apply bugs_wf_touch; eapply bugs_wf_ext; [exact Hwf|reflexivity|reflexivity].
Qed.

Lemma bugs_wf_updateBugStatus d i s now : bugs_wf d -> bugs_wf (updateBugStatus d i s now).
Proof.
  intros Hwf; eapply bugs_wf_map; [exact Hwf|reflexivity|reflexivity| |];
    intros b; cbv beta; destruct (id b =? i); reflexivity.
Qed.

Lemma bugs_wf_updateBug d i c t s now : bugs_wf d -> bugs_wf (snd (updateBug d i c t s now)).
Proof.
  intros Hwf; unfold updateBug.
  destruct c, t, s; cbn [snd]; try exact Hwf;
    (eapply bugs_wf_map; [exact Hwf|reflexivity|reflexivity| |];
     intros x; cbv beta; destruct (id x =? i); reflexivity).
Qed.

Lemma bugs_wf_deleteBug d i : bugs_wf d -> bugs_wf (snd (deleteBug d i)).
Proof.
  intros Hwf; unfold deleteBug; destruct (getBugById d i); [|exact Hwf].
  eapply bugs_wf_filter; [exact Hwf|reflexivity|reflexivity].
Qed.

Lemma bugs_wf_deleteBugsByChannel d ch : bugs_wf d -> bugs_wf (snd (deleteBugsByChannel d ch)).
Proof.
  intros Hwf; unfold deleteBugsByChannel.
  destruct (map id _); [exact Hwf|].
  eapply bugs_wf_filter; [exact Hwf|reflexivity|reflexivity].
Qed.

End WfFacts.

(** Every write of [db.ts] to the store keeps its keys: bug ids stay
    positive, distinct and below the AUTOINCREMENT counter, and message ids
    stay distinct. *)
Theorem store_writes_keep_bugs_wf :
  forall d, bugs_wf d ->
    (forall b, bugs_wf (snd (addBug d b))) /\
    (forall u, bugs_wf (snd (addBugUpdate d u))) /\
    (forall i s now, bugs_wf (updateBugStatus d i s now)) /\
    (forall i c t s now, bugs_wf (snd (updateBug d i c t s now))) /\
    (forall i, bugs_wf (snd (deleteBug d i))) /\
    (forall ch, bugs_wf (snd (deleteBugsByChannel d ch))) /\
    (forall mid rs, bugs_wf (updateBugReactions d mid rs)) /\
    (forall mid rs, bugs_wf (updateUpdateReactions d mid rs)) /\
    (forall ch n, bugs_wf (saveScanState d ch n)).
Proof.
  intros d Hwf.
  split; [intros; apply WfFacts.bugs_wf_addBug, Hwf|].
  split; [intros; apply WfFacts.bugs_wf_addBugUpdate, Hwf|].
  split; [intros; apply WfFacts.bugs_wf_updateBugStatus, Hwf|].
  split; [intros; apply WfFacts.bugs_wf_updateBug, Hwf|].
  split; [intros; apply WfFacts.bugs_wf_deleteBug, Hwf|].
  split; [intros; apply WfFacts.bugs_wf_deleteBugsByChannel, Hwf|].
  split; [intros mid rs; eapply MutationFacts.bugs_wf_map;
          [exact Hwf|reflexivity|reflexivity| |];
          intros b; cbv beta; destruct (discord_message_id b =? mid); reflexivity|].
  split; [intros; eapply WfFacts.bugs_wf_ext; [exact Hwf|reflexivity|reflexivity]|].
  intros ch n; unfold saveScanState; destruct (existsb _ _);
    eapply WfFacts.bugs_wf_ext; solve [exact Hwf|reflexivity].
Qed.

Lemma store_writes_keep_bugs_wf_witness :
  bugs_wf (snd (addBug db_AB (bug_of_message m_issue (of_ascii "bugs") Open))).
Proof.
  apply (store_writes_keep_bugs_wf db_AB).
  unfold bugs_wf; vm_compute; split; [reflexivity|split; [|split]].
  - repeat constructor; discriminate.
  - repeat constructor; simpl; intuition discriminate.
  - repeat constructor; simpl; intuition discriminate.
Defined.

(** A fresh reply row for an existing bug (so that the FOREIGN KEY holds)
    is stored under the next AUTOINCREMENT id and returned;
    [getBugUpdates] lists it for its bug, the bug's [updated_at] becomes the
    update's creation time, and no other bug changes. *)
Theorem addBugUpdate_inserts_and_touches :
  forall d u,
    getBugById d (bug_id u) <> None ->
    ~ In (u_discord_message_id u) (map u_discord_message_id (bug_updates d)) ->
    let row := with_u_id u (next_update_rowid d) in
    let d' := snd (addBugUpdate d u) in
    fst (addBugUpdate d u) = Some row /\
    bug_updates d' = bug_updates d ++ [row] /\
    In row (getBugUpdates d' (bug_id u)) /\
    getBugById d' (bug_id u)
      = option_map (fun b => with_updated_at b (u_created_at u)) (getBugById d (bug_id u)) /\
    (forall j, j <> bug_id u -> getBugById d' j = getBugById d j).
Proof.
  intros d u _ Hfresh row d'.
  assert (Hex : existsb (fun r => u_discord_message_id r =? u_discord_message_id u)
                  (bug_updates d) = false).
  { apply not_true_iff_false; intros H; apply existsb_exists in H.
    destruct H as [x [Hx Heq]]; apply Z.eqb_eq in Heq.
    apply Hfresh; rewrite <- Heq; apply in_map, Hx. }
  unfold d'; unfold addBugUpdate; rewrite Hex; cbn [fst snd].
  split; [reflexivity|]. split; [reflexivity|].
  split.
  - rewrite SortFacts.getBugUpdates_gins.
    eapply Permutation_in; [apply SortFacts.gsort_perm|].
    apply filter_In; split.
    + unfold touch_bug, set_bugs; cbn [bug_updates]; apply in_or_app; right; left; reflexivity.
    + unfold row; simpl; apply Z.eqb_refl.
  - split.
    + unfold touch_bug, getBugById, set_bugs; cbn [bugs].
      rewrite (find_map_stable (fun b => id b =? bug_id u)) by
        (intros b; cbv beta; destruct (id b =? bug_id u) eqn:E; exact E).
      destruct (find (fun b => id b =? bug_id u) (bugs d)) as [b|] eqn:Ef; [|reflexivity].
      apply find_some in Ef; destruct Ef as [_ Ei]; cbn; rewrite Ei; reflexivity.
    + intros j Hj; unfold touch_bug, getBugById, set_bugs; cbn [bugs].
      rewrite (find_map_stable (fun b => id b =? j)) by
        (intros b; cbv beta; destruct (id b =? bug_id u); reflexivity).
      destruct (find (fun b => id b =? j) (bugs d)) as [b|] eqn:Ef; [|reflexivity].
      apply find_some in Ef; destruct Ef as [_ Ei]; apply Z.eqb_eq in Ei; cbn.
      destruct (id b =? bug_id u) eqn:E; [apply Z.eqb_eq in E; congruence|reflexivity].
Qed.

Lemma addBugUpdate_inserts_and_touches_witness :
  fst (addBugUpdate db_AB (update_of_message m_thanks 1))
  = Some (with_u_id (update_of_message m_thanks 1) 1).
Proof.
  apply (addBugUpdate_inserts_and_touches db_AB (update_of_message m_thanks 1)).
  - vm_compute; discriminate.
  - vm_compute; intros [].
Defined.

Module EditFacts.
Import MutationFacts.

(** With at least one field given, [updateBug] writes every row with the
    id and reads the row back. *)
Lemma updateBug_some_field d i c t s now :
  (c <> None \/ t <> None \/ s <> None) ->
  let U := fun b =>
    mkBug (id b) (discord_message_id b) (channel_id b) (channel_name b)
      (author_id b) (author_name b)
      (match c with Some x => x | None => content b end)
      (match t with Some x => x | None => type b end)
      (match s with Some x => x | None => status b end)
      (created_at b) now (discord_url b) (reactions b) in
  let d' := set_bugs d (map (fun b => if id b =? i then U b else b) (bugs d)) in
  updateBug d i c t s now = (getBugById d' i, d').
Proof.
  intros H; destruct c, t, s; try reflexivity.
  exfalso; intuition congruence.
Qed.

Lemma getBugById_mapU d i (U : Bug -> Bug) j :
  (forall b, id (U b) = id b) ->
  getBugById (set_bugs d (map (fun b => if id b =? i then U b else b) (bugs d))) j
  = option_map (fun b => if id b =? i then U b else b) (getBugById d j).
Proof.
  intros HU; unfold getBugById, set_bugs; cbn [bugs].
  apply find_map_stable; intros b; cbv beta.
  destruct (id b =? i); [rewrite HU|]; reflexivity.
Qed.

End EditFacts.

(** [updateBug] with no field only reads the row back; with a field it
    sets exactly the given fields of bug [i] and stamps [updated_at] with
    [now], returns the row as stored, and leaves every other bug as it was;
    an unknown id gives [undefined] and changes no row. *)
Theorem updateBug_sets_given_fields :
  forall d i c t s now,
    (c = None -> t = None -> s = None -> updateBug d i c t s now = (getBugById d i, d)) /\
    (forall j, j <> i -> getBugById (snd (updateBug d i c t s now)) j = getBugById d j) /\
    (getBugById d i = None ->
       fst (updateBug d i c t s now) = None /\ bugs (snd (updateBug d i c t s now)) = bugs d) /\
    (forall b, getBugById d i = Some b -> (c <> None \/ t <> None \/ s <> None) ->
       exists b',
         fst (updateBug d i c t s now) = Some b' /\
         getBugById (snd (updateBug d i c t s now)) i = Some b' /\
         id b' = i /\ discord_message_id b' = discord_message_id b /\
         content b' = match c with Some x => x | None => content b end /\
         type b' = match t with Some x => x | None => type b end /\
         status b' = match s with Some x => x | None => status b end /\
         created_at b' = created_at b /\ updated_at b' = now).
Proof.
  intros d i c t s now.
  assert (Hsome : (c <> None \/ t <> None \/ s <> None) ->
            (forall j, getBugById (snd (updateBug d i c t s now)) j
                 = option_map (fun b => if id b =? i then
                     mkBug (id b) (discord_message_id b) (channel_id b) (channel_name b)
                       (author_id b) (author_name b)
                       (match c with Some x => x | None => content b end)
                       (match t with Some x => x | None => type b end)
                       (match s with Some x => x | None => status b end)
                       (created_at b) now (discord_url b) (reactions b)
                     else b) (getBugById d j)) /\
            fst (updateBug d i c t s now) = getBugById (snd (updateBug d i c t s now)) i).
  { intros H; rewrite (EditFacts.updateBug_some_field d i c t s now H); cbn [fst snd].
    split; [|reflexivity]. intros j; apply EditFacts.getBugById_mapU; reflexivity. }
  assert (Hnone : c = None /\ t = None /\ s = None \/ (c <> None \/ t <> None \/ s <> None)).
  { destruct c, t, s; intuition discriminate. }
  split; [intros -> -> ->; reflexivity|].
  split.
  - intros j Hj; destruct Hnone as [(-> & -> & ->)|H]; [reflexivity|].
    rewrite (proj1 (Hsome H) j).
    destruct (getBugById d j) as [b|] eqn:Ef; [|reflexivity].
    unfold getBugById in Ef; apply find_some in Ef; destruct Ef as [_ Ei].
    apply Z.eqb_eq in Ei; cbn; destruct (id b =? i) eqn:E; [apply Z.eqb_eq in E; congruence|].
    reflexivity.
  - split.
    + intros Hn; destruct Hnone as [(-> & -> & ->)|H]; [split; [exact Hn|reflexivity]|].
      rewrite (EditFacts.updateBug_some_field d i c t s now H); cbn [fst snd bugs set_bugs].
      split.
      * rewrite EditFacts.getBugById_mapU by reflexivity; rewrite Hn; reflexivity.
      * assert (Hall : forall x, In x (bugs d) -> (id x =? i) = false).
        { intros x Hx; destruct (id x =? i) eqn:E; [|reflexivity].
          pose proof (find_none_existsb _ _ Hn) as He.
          assert (existsb (fun b => id b =? i) (bugs d) = true) as Ht
            by (apply existsb_exists; exists x; split; assumption).
          congruence. }
        rewrite <- (map_id (bugs d)) at 2; apply map_ext_in; intros x Hx.
        rewrite (Hall x Hx); reflexivity.
    + intros b Hb H; destruct (Hsome H) as [Hj Hf].
      rewrite Hf, (Hj i), Hb.
      unfold getBugById in Hb; apply find_some in Hb; destruct Hb as [_ Ei].
      cbn; rewrite Ei.
      eexists; split; [reflexivity|]; split; [reflexivity|].
      cbn; apply Z.eqb_eq in Ei; repeat split; assumption || reflexivity.
Qed.

Lemma updateBug_sets_given_fields_witness :
  exists b', fst (updateBug db_AB 1 (Some (of_ascii "login fixed")) None None 99) = Some b'
             /\ updated_at b' = 99.
Proof.
  destruct (proj2 (proj2 (proj2
     (updateBug_sets_given_fields db_AB 1 (Some (of_ascii "login fixed")) None None 99)))
     bug_A) as [b' Hb'].
  - vm_compute; reflexivity.
  - left; discriminate.
  - exists b'; split; [apply Hb'|apply Hb'].
Defined.

(** [deleteBug] of an unknown id answers [false] and changes nothing;
    otherwise it answers [true], the bug is gone with all its updates, every
    other bug and update stays, and no update is left pointing at a missing
    bug. *)
Theorem deleteBug_cascades :
  forall d i,
    (getBugById d i = None -> deleteBug d i = (false, d)) /\
    (getBugById d i <> None ->
       fst (deleteBug d i) = true /\
       getBugById (snd (deleteBug d i)) i = None /\
       (forall u, In u (bug_updates (snd (deleteBug d i))) <->
                  In u (bug_updates d) /\ bug_id u <> i) /\
       (forall j, j <> i -> getBugById (snd (deleteBug d i)) j = getBugById d j)) /\
    (updates_wf d -> updates_wf (snd (deleteBug d i))).
Proof.
  intros d i.
  assert (Hj : getBugById d i <> None -> forall j, j <> i ->
            getBugById (snd (deleteBug d i)) j = getBugById d j).
  { intros Hi j Hne; unfold deleteBug; destruct (getBugById d i); [|congruence].
    unfold getBugById, set_bugs; cbn [snd bugs].
    apply MutationFacts.find_filter_sub; intros x Hx; apply Z.eqb_eq in Hx.
    destruct (id x =? i) eqn:E; [apply Z.eqb_eq in E; congruence|reflexivity]. }
  split; [intros Hn; unfold deleteBug; rewrite Hn; reflexivity|].
  split.
  - intros Hi; split; [unfold deleteBug; destruct (getBugById d i); [reflexivity|congruence]|].
    split; [|split; [|exact (Hj Hi)]].
    + unfold deleteBug; destruct (getBugById d i); [|congruence].
      unfold getBugById, set_bugs; cbn [snd bugs].
      apply MutationFacts.find_filter_neg.
    + intros u; unfold deleteBug; destruct (getBugById d i); [|congruence].
      unfold set_bugs; cbn [snd bug_updates]; rewrite filter_In.
      rewrite negb_true_iff, Z.eqb_neq; reflexivity.
  - intros Hwf u Hu.
    destruct (getBugById d i) eqn:Ei.
    + unfold deleteBug in Hu; rewrite Ei in Hu; unfold set_bugs in Hu; cbn [snd bug_updates] in Hu.
      apply filter_In in Hu; destruct Hu as [Hu Hne].
      apply negb_true_iff, Z.eqb_neq in Hne.
      destruct (Hwf u Hu) as [H0 Hb]; split; [exact H0|].
      rewrite (Hj ltac:(congruence) _ Hne); exact Hb.
    + unfold deleteBug in Hu |- *; rewrite Ei in Hu |- *; apply Hwf, Hu.
Qed.

Lemma deleteBug_cascades_witness :
  fst (deleteBug (db st_details) 1) = true /\
  getBugById (snd (deleteBug (db st_details) 1)) 1 = None.
Proof.
  destruct (proj1 (proj2 (deleteBug_cascades (db st_details) 1))) as (H1 & H2 & _).
  - vm_compute; discriminate.
  - split; [exact H1|exact H2].
Defined.

Lemma deleteBugsByChannel_spec :
  forall d ch,
    fst (deleteBugsByChannel d ch) = length (filter (fun b => channel_id b =? ch) (bugs d)) /\
    (forall b, In b (bugs (snd (deleteBugsByChannel d ch))) <->
               In b (bugs d) /\ channel_id b <> ch) /\
    (updates_wf d -> updates_wf (snd (deleteBugsByChannel d ch))).
Proof.
  intros d ch; unfold deleteBugsByChannel.
  destruct (map id (filter (fun b => channel_id b =? ch) (bugs d))) as [|z zs] eqn:E.
  - apply map_eq_nil in E; cbn [fst snd].
    split; [rewrite E; reflexivity|].
    split; [|intros H; exact H].
    intros b; split; [|intros [H _]; exact H].
    intros Hb; split; [exact Hb|intros Hc].
    assert (In b (filter (fun b => channel_id b =? ch) (bugs d))) as Hin
      by (apply filter_In; split; [exact Hb|apply Z.eqb_eq, Hc]).
    rewrite E in Hin; destruct Hin.
  - cbn [fst snd bugs set_bugs bug_updates].
    split; [reflexivity|].
    split.
    + intros b; rewrite filter_In, negb_true_iff, Z.eqb_neq; reflexivity.
    + intros Hwf u Hu; unfold set_bugs in Hu; cbn [bug_updates] in Hu.
      apply filter_In in Hu; destruct Hu as [Hu Hx]; rewrite <- E in Hx.
      destruct (Hwf u Hu) as [H0 Hb]; split; [exact H0|].
      destruct (getBugById d (bug_id u)) as [b|] eqn:Ef; [|congruence].
      assert (Hc : (negb (channel_id b =? ch)) = true).
      { apply negb_true_iff; destruct (channel_id b =? ch) eqn:Ec; [|reflexivity].
        unfold getBugById in Ef; apply find_some in Ef; destruct Ef as [Hin Hi].
        apply Z.eqb_eq in Hi.
        assert (existsb (Z.eqb (bug_id u)) (map id (filter (fun b => channel_id b =? ch) (bugs d)))
                = true) as Ht.
        { apply existsb_exists; exists (id b); split.
          - apply in_map, filter_In; split; assumption.
          - apply Z.eqb_eq; symmetry; exact Hi. }
        rewrite Ht in Hx; discriminate. }
      unfold getBugById, set_bugs; cbn [bugs].
      rewrite (MutationFacts.find_filter_some _ _ _ _ Ef Hc); discriminate.
Qed.

(** [deleteBugsByChannel] answers the number of bugs the channel had,
    removes exactly those, and leaves no update pointing at a missing bug. *)
Theorem deleteBugsByChannel_removes_channel :
  forall d ch,
    fst (deleteBugsByChannel d ch) = length (filter (fun b => channel_id b =? ch) (bugs d)) /\
    (forall b, In b (bugs (snd (deleteBugsByChannel d ch))) <->
               In b (bugs d) /\ channel_id b <> ch) /\
    (updates_wf d -> updates_wf (snd (deleteBugsByChannel d ch))).
Proof. exact deleteBugsByChannel_spec. Qed.

Lemma deleteBugsByChannel_removes_channel_witness :
  updates_wf (snd (deleteBugsByChannel (db st_details) 1)).
Proof.
  apply (deleteBugsByChannel_removes_channel (db st_details) 1).
  intros u Hu; vm_compute in Hu; destruct Hu as [<-|[]]; vm_compute; split; discriminate.
Defined.

(** [saveScanState] then [getScanState] reads back the saved id, other
    channels keep theirs, and the [channel_id] key stays unique. *)
Theorem saveScanState_upsert :
  forall d ch n,
    getScanState (saveScanState d ch n) ch = Some n /\
    (forall c, c <> ch -> getScanState (saveScanState d ch n) c = getScanState d c) /\
    (NoDup (map fst (scan_state d)) -> NoDup (map fst (scan_state (saveScanState d ch n)))).
Proof.
  intros d ch n.
  split; [apply WatermarkFacts.getScanState_save_same|].
  split; [intros c Hc; apply WatermarkFacts.getScanState_save_other, Hc|].
  intros Hn; unfold saveScanState.
  destruct (existsb (fun p => fst p =? ch) (scan_state d)) eqn:Ex; cbn [scan_state set_scan_state].
  - rewrite map_map.
    replace (map (fun x => fst (if fst x =? ch then (ch, n) else x)) (scan_state d))
      with (map fst (scan_state d)); [exact Hn|].
    apply map_ext; intros [k v]; cbn.
    destruct (k =? ch) eqn:E; [apply Z.eqb_eq in E; exact E|reflexivity].
  - rewrite map_app; apply MutationFacts.NoDup_snoc; [exact Hn|].
    intros Hin; apply in_map_iff in Hin; destruct Hin as [[k v] [Hk Hin]].
    cbn in Hk; subst k.
    assert (existsb (fun p => fst p =? ch) (scan_state d) = true) as Ht
      by (apply existsb_exists; exists (ch, v); split; [exact Hin|apply Z.eqb_refl]).
    congruence.
Qed.

Lemma saveScanState_upsert_witness :
  NoDup (map fst (scan_state (saveScanState (mkDb [] [] [(1, 10); (2, 20)] 1 1) 3 30))).
Proof.
  apply (saveScanState_upsert (mkDb [] [] [(1, 10); (2, 20)] 1 1) 3 30).
  vm_compute; constructor; [intros [H|[]]; discriminate|constructor; [intros []|constructor]].
Defined.

Module ChannelFacts.

Lemma existsb_ext_in {A} (f g : A -> bool) l :
  (forall x, In x l -> f x = g x) -> existsb f l = existsb g l.
Proof.
  induction l as [|x l IH]; intros H; simpl; [reflexivity|].
  rewrite (H x (or_introl eq_refl)), IH; [reflexivity|intros y Hy; apply H; right; exact Hy].
Qed.

Lemma existsb_filter {A} (f g : A -> bool) l :
  existsb f (filter g l) = existsb (fun x => g x && f x) l.
Proof.
  induction l as [|x l IH]; simpl; [reflexivity|].
  destruct (g x); simpl; rewrite IH; reflexivity.
Qed.

Lemma filter_negb_length {A} (p : A -> bool) l :
  length (filter (fun x => negb (p x)) l) = length l <-> existsb p l = false.
Proof.
  induction l as [|x l IH]; simpl; [split; reflexivity|].
  pose proof (filter_length_le (fun x => negb (p x)) l) as Hle.
  destruct (p x); simpl; [split; [intros H; lia|discriminate]|].
  rewrite <- IH; lia.
Qed.

Lemma isChannelMonitored_ids t c :
  isChannelMonitored t c = existsb (Z.eqb c) (getAllMonitoredChannelIds t).
Proof.
  unfold isChannelMonitored, getAllMonitoredChannelIds.
  induction (monitored_channels t) as [|x l IH]; simpl; [reflexivity|].
  rewrite IH, Z.eqb_sym; reflexivity.
Qed.

Lemma removeMonitoredChannel_spec t c :
  fst (removeMonitoredChannel t c) = isChannelMonitored t c /\
  (forall c', isChannelMonitored (snd (removeMonitoredChannel t c)) c'
              = negb (c' =? c) && isChannelMonitored t c').
Proof.
  unfold removeMonitoredChannel, isChannelMonitored; cbn [fst snd monitored_channels].
  split.
  - pose proof (filter_negb_length (fun x => mc_channel_id x =? c) (monitored_channels t)) as Hl.
    pose proof (filter_length_le (fun x => negb (mc_channel_id x =? c)) (monitored_channels t)).
    destruct (existsb (fun x => mc_channel_id x =? c) (monitored_channels t)).
    + apply Nat.ltb_lt; destruct Hl as [Hl _].
      assert (length (filter (fun x => negb (mc_channel_id x =? c)) (monitored_channels t))
              <> length (monitored_channels t)) by (intros E; specialize (Hl E); discriminate).
      lia.
    + apply Nat.ltb_ge; destruct Hl as [_ Hl]; rewrite Hl by reflexivity; lia.
  - intros c'; rewrite existsb_filter.
    destruct (c' =? c) eqn:E; simpl.
    + apply Z.eqb_eq in E; subst c'.
      induction (monitored_channels t) as [|x l IH]; simpl; [reflexivity|].
      destruct (mc_channel_id x =? c); simpl; exact IH.
    + apply existsb_ext_in; intros x _.
      destruct (mc_channel_id x =? c') eqn:Ex; [|apply andb_false_r].
      apply Z.eqb_eq in Ex; subst c'.
      destruct (mc_channel_id x =? c) eqn:Ec; [discriminate|reflexivity].
Qed.

End ChannelFacts.

(** [addMonitoredChannel] succeeds exactly when the channel is not yet
    monitored (and then changes nothing); afterwards the channel is
    monitored, no other channel changes, and channel ids stay unique. *)
Theorem addMonitoredChannel_once :
  forall t g c name uid uname now,
    let r := addMonitoredChannel t g c name uid uname now in
    fst r = negb (isChannelMonitored t c) /\
    (isChannelMonitored t c = true -> snd r = t) /\
    isChannelMonitored (snd r) c = true /\
    (forall c', c' <> c -> isChannelMonitored (snd r) c' = isChannelMonitored t c') /\
    (NoDup (getAllMonitoredChannelIds t) -> NoDup (getAllMonitoredChannelIds (snd r))).
Proof.
  intros t g c name uid uname now r; unfold r, addMonitoredChannel.
  fold (isChannelMonitored t c).
  destruct (isChannelMonitored t c) eqn:Em; cbn [fst snd].
  - repeat split; intros; solve [reflexivity|exact Em|assumption].
  - split; [reflexivity|]. split; [discriminate|].
    unfold isChannelMonitored, getAllMonitoredChannelIds; cbn [monitored_channels].
    split; [|split].
    + rewrite existsb_app; simpl; rewrite Z.eqb_refl, orb_true_r; reflexivity.
    + intros c' Hc; rewrite existsb_app; simpl.
      destruct (c =? c') eqn:E; [apply Z.eqb_eq in E; congruence|].
      rewrite !orb_false_r; reflexivity.
    + intros Hn; rewrite map_app; apply MutationFacts.NoDup_snoc; [exact Hn|].
      intros Hin; simpl in Hin.
      rewrite ChannelFacts.isChannelMonitored_ids in Em.
      assert (existsb (Z.eqb c) (getAllMonitoredChannelIds t) = true) as Ht
        by (apply existsb_exists; exists c; split; [exact Hin|apply Z.eqb_refl]).
      congruence.
Qed.

Lemma addMonitoredChannel_once_witness :
  NoDup (getAllMonitoredChannelIds
    (snd (addMonitoredChannel
            (mkChannelTable [mkMonitoredChannel 1 7 1 (of_ascii "bugs") 5 (of_ascii "vale") 0] 2)
            7 2 (of_ascii "requests") 5 (of_ascii "vale") 10))).
Proof.
  apply (addMonitoredChannel_once
           (mkChannelTable [mkMonitoredChannel 1 7 1 (of_ascii "bugs") 5 (of_ascii "vale") 0] 2)
           7 2 (of_ascii "requests") 5 (of_ascii "vale") 10).
  vm_compute; constructor; [intros []|constructor].
Defined.

(** [removeMonitoredChannel] answers whether the channel was monitored;
    afterwards it is not, and every other channel keeps its state. *)
Theorem removeMonitoredChannel_exact :
  forall t c,
    fst (removeMonitoredChannel t c) = isChannelMonitored t c /\
    isChannelMonitored (snd (removeMonitoredChannel t c)) c = false /\
    (forall c', c' <> c ->
       isChannelMonitored (snd (removeMonitoredChannel t c)) c' = isChannelMonitored t c').
Proof.
  intros t c; destruct (ChannelFacts.removeMonitoredChannel_spec t c) as [H1 H2].
  split; [exact H1|split].
  - rewrite H2, Z.eqb_refl; reflexivity.
  - intros c' Hc; rewrite H2; apply Z.eqb_neq in Hc; rewrite Hc; reflexivity.
Qed.

Lemma removeMonitoredChannel_exact_witness :
  isChannelMonitored
    (snd (removeMonitoredChannel
            (mkChannelTable [mkMonitoredChannel 1 7 1 (of_ascii "bugs") 5 (of_ascii "vale") 0;
                             mkMonitoredChannel 2 7 2 (of_ascii "requests") 5 (of_ascii "vale") 0] 3)
            1)) 2 = true.
Proof.
  rewrite (proj2 (proj2 (removeMonitoredChannel_exact
    (mkChannelTable [mkMonitoredChannel 1 7 1 (of_ascii "bugs") 5 (of_ascii "vale") 0;
                     mkMonitoredChannel 2 7 2 (of_ascii "requests") 5 (of_ascii "vale") 0] 3)
    1)) 2) by discriminate.
  vm_compute; reflexivity.
Defined.

(** [config.channelIds] count as monitored only while the
    [monitored_channels] table is empty: the first [/addchannel] replaces
    them, and removing the last table entry brings them back. *)
Theorem config_channels_only_while_table_empty :
  forall t cs ch,
    (monitored_channels t = [] -> BotAdmin.isMonitoredChannel t (Some cs) ch = existsb (Z.eqb ch) cs) /\
    (monitored_channels t <> [] -> BotAdmin.isMonitoredChannel t (Some cs) ch = isChannelMonitored t ch) /\
    BotAdmin.isMonitoredChannel t None ch = isChannelMonitored t ch.
Proof.
  intros t cs ch; unfold BotAdmin.isMonitoredChannel, BotAdmin.getMonitoredChannelIds.
  rewrite ChannelFacts.isChannelMonitored_ids.
  unfold getAllMonitoredChannelIds.
  split; [|split; [|reflexivity]].
  - intros -> ; reflexivity.
  - intros Hne; destruct (monitored_channels t); [congruence|reflexivity].
Qed.

Lemma config_channels_only_while_table_empty_witness :
  BotAdmin.isMonitoredChannel (mkChannelTable [] 1) (Some [5; 6]) 6 = true /\
  BotAdmin.isMonitoredChannel
    (mkChannelTable [mkMonitoredChannel 1 7 1 (of_ascii "bugs") 5 (of_ascii "vale") 0] 2)
    (Some [5; 6]) 6 = false.
Proof.
  split.
  - rewrite (proj1 (config_channels_only_while_table_empty (mkChannelTable [] 1) [5; 6] 6))
      by reflexivity.
    reflexivity.
  - rewrite (proj1 (proj2 (config_channels_only_while_table_empty
      (mkChannelTable [mkMonitoredChannel 1 7 1 (of_ascii "bugs") 5 (of_ascii "vale") 0] 2)
      [5; 6] 6))) by discriminate.
    vm_compute; reflexivity.
Defined.

(** [/deletechannel] leaves the channel unmonitored and without bugs,
    reports the number of bugs it had, and answers "nothing to delete"
    exactly when the channel was not monitored and had no bugs. *)
Theorem handleDeleteChannel_outcome :
  forall t d ch,
    let res := BotAdmin.handleDeleteChannel t d ch in
    isChannelMonitored (snd (fst res)) ch = false /\
    (forall b, In b (bugs (snd res)) <-> In b (bugs d) /\ channel_id b <> ch) /\
    (forall k, fst (fst res) = BotAdmin.Deleted k ->
               k = length (filter (fun b => channel_id b =? ch) (bugs d))) /\
    (fst (fst res) = BotAdmin.NothingToDelete <->
       isChannelMonitored t ch = false /\ forall b, In b (bugs d) -> channel_id b <> ch).
Proof.
  intros t d ch res; unfold res, BotAdmin.handleDeleteChannel.
  destruct (ChannelFacts.removeMonitoredChannel_spec t ch) as [Hr1 Hr2].
  destruct (deleteBugsByChannel_spec d ch) as (Hd1 & Hd2 & _).
  destruct (removeMonitoredChannel t ch) as [was t'] eqn:Er.
  destruct (deleteBugsByChannel d ch) as [n d'] eqn:Ed.
  cbn [fst snd] in *.
  split; [rewrite Hr2, Z.eqb_refl; reflexivity|].
  split; [exact Hd2|].
  subst was n.
  assert (Hnone : (forall b, In b (bugs d) -> channel_id b <> ch) <->
                  length (filter (fun b => channel_id b =? ch) (bugs d)) = 0%nat).
  { rewrite length_zero_iff_nil; split.
    - intros H; revert H; generalize (bugs d) as l0.
      induction l0 as [|x l IH]; intros H; simpl; [reflexivity|].
      destruct (channel_id x =? ch) eqn:Ex.
      + apply Z.eqb_eq in Ex; exfalso; apply (H x); [left; reflexivity|exact Ex].
      + apply IH; intros b Hb; apply H; right; exact Hb.
    - intros H b Hb Hc.
      assert (In b (filter (fun b => channel_id b =? ch) (bugs d))) as Hin
        by (apply filter_In; split; [exact Hb|apply Z.eqb_eq, Hc]).
      rewrite H in Hin; destruct Hin. }
  destruct (isChannelMonitored t ch); simpl.
  - split; [intros k [= ->]; reflexivity|].
    split; [discriminate|intros [H _]; discriminate].
  - rewrite Hnone.
    destruct (length (filter (fun b => channel_id b =? ch) (bugs d))) as [|m]; simpl.
    + split; [discriminate|tauto].
    + split; [intros k [= <-]; reflexivity|].
      split; [discriminate|intros [_ H]; discriminate].
Qed.

Lemma handleDeleteChannel_outcome_witness :
  fst (fst (BotAdmin.handleDeleteChannel (mkChannelTable [] 1) db_AB 5)) = BotAdmin.NothingToDelete.
Proof.
  apply (proj2 (proj2 (proj2 (proj2 (handleDeleteChannel_outcome (mkChannelTable [] 1) db_AB 5))))).
  split; [reflexivity|].
  intros b Hb; vm_compute in Hb; destruct Hb as [<-|[<-|[]]]; vm_compute; discriminate.
Defined.

Module ReactionFacts.
Import Monotone.

Lemma fold_left_pres {A} (R : BugDatabase -> BugDatabase -> Prop)
    (f : BugDatabase -> A -> BugDatabase) :
  (forall d, R d d) -> (forall d1 d2 d3, R d1 d2 -> R d2 d3 -> R d1 d3) ->
  (forall d x, R d (f d x)) -> forall l d, R d (fold_left f l d).
Proof.
  intros Hr Ht Hf l; induction l as [|x l IH]; intros d; simpl; [apply Hr|].
  eapply Ht; [apply Hf|apply IH].
Qed.

Lemma same_rows_refl d : same_rows d d.
Proof. split; reflexivity. Qed.

Lemma same_rows_trans d1 d2 d3 : same_rows d1 d2 -> same_rows d2 d3 -> same_rows d1 d3.
Proof. intros [H1 H2] [H3 H4]; split; congruence. Qed.

Lemma same_rows_updateBugStatus d i s t : same_rows d (updateBugStatus d i s t).
Proof.
  split; [|reflexivity]; unfold updateBugStatus, set_bugs; cbn [bugs].
  rewrite map_map; apply map_ext; intros b; destruct (id b =? i); reflexivity.
Qed.

Lemma same_rows_updateBugReactions d mid rs : same_rows d (updateBugReactions d mid rs).
Proof.
  split; [|reflexivity]; unfold updateBugReactions, set_bugs; cbn [bugs].
  rewrite map_map; apply map_ext; intros b; destruct (discord_message_id b =? mid); reflexivity.
Qed.

Lemma same_rows_updateUpdateReactions d mid rs : same_rows d (updateUpdateReactions d mid rs).
Proof.
  split; [reflexivity|]; unfold updateUpdateReactions; cbn [bug_updates].
  rewrite map_map; apply map_ext; intros u; destruct (u_discord_message_id u =? mid); reflexivity.
Qed.

Lemma same_rows_sync_updates now fetched b ups d :
  same_rows d (sync_updates now fetched b d ups).
Proof.
  revert d; induction ups as [|u ups IH]; intros d; simpl; [apply same_rows_refl|].
  destruct (fetched (u_discord_message_id u)) as [rs|]; [|apply IH].
  destruct (hasCheckReaction rs).
  - eapply same_rows_trans; [apply same_rows_updateBugStatus|apply same_rows_updateUpdateReactions].
  - eapply same_rows_trans; [apply same_rows_updateUpdateReactions|apply IH].
Qed.

Lemma keeps_fixed_sync_updates now fetched b ups d :
  keeps_fixed d (sync_updates now fetched b d ups).
Proof.
  revert d; induction ups as [|u ups IH]; intros d; simpl; [apply keeps_fixed_refl|].
  destruct (fetched (u_discord_message_id u)) as [rs|]; [|apply IH].
  destruct (hasCheckReaction rs).
  - eapply keeps_fixed_trans; [apply keeps_fixed_updateBugStatus|apply keeps_fixed_updateUpdateReactions].
  - eapply keeps_fixed_trans; [apply keeps_fixed_updateUpdateReactions|apply IH].
Qed.

Lemma getBugById_some_iff d i : getBugById d i <> None <-> In i (map id (bugs d)).
Proof.
  unfold getBugById; split.
  - intros H; destruct (find (fun b => id b =? i) (bugs d)) as [b|] eqn:E; [|congruence].
    apply find_some in E; destruct E as [Hin Hi]; apply Z.eqb_eq in Hi.
    rewrite <- Hi; apply in_map, Hin.
  - intros Hin E; apply find_none_existsb in E.
    apply in_map_iff in Hin; destruct Hin as [b [Hb Hin]].
    rewrite (existsb_in _ _ b Hin) in E; [discriminate|apply Z.eqb_eq, Hb].
Qed.

Lemma status_updateBugReactions d mid rs j :
  option_map status (getBugById (updateBugReactions d mid rs) j) = option_map status (getBugById d j).
Proof.
  unfold updateBugReactions, getBugById, set_bugs; cbn [bugs].
  rewrite find_map_stable by (intros b; cbv beta; destruct (discord_message_id b =? mid); reflexivity).
  destruct (find _ (bugs d)) as [b|]; [|reflexivity]; cbn.
  destruct (discord_message_id b =? mid); reflexivity.
Qed.

End ReactionFacts.

(** A reaction other than [✅] (or its name [white_check_mark]) never
    changes the status of a bug and adds or removes no row: it only
    refreshes the stored reactions (every row is unchanged once its
    reactions are blanked, and so are the scan state and the counters). *)
Theorem handleReactionAdd_other_emoji_keeps_status :
  forall now d e mid live,
    (jsstr_eqb e check_glyph || jsstr_eqb e (of_ascii "white_check_mark")) = false ->
    let d' := handleReactionAdd now d e mid live in
    (forall i, option_map status (getBugById d' i) = option_map status (getBugById d i)) /\
    map id (bugs d') = map id (bugs d) /\
    map u_id (bug_updates d') = map u_id (bug_updates d) /\
    map (fun b => with_reactions b []) (bugs d') = map (fun b => with_reactions b []) (bugs d) /\
    map (fun u => with_u_reactions u []) (bug_updates d')
      = map (fun u => with_u_reactions u []) (bug_updates d) /\
    scan_state d' = scan_state d /\
    next_bug_rowid d' = next_bug_rowid d /\ next_update_rowid d' = next_update_rowid d.
Proof.
  intros now d e mid live He d'; unfold d', handleReactionAdd; rewrite He.
  destruct live as [rs|]; [|repeat split].
  destruct (getBugByMessageId d mid).
  - destruct (ReactionFacts.same_rows_updateBugReactions d mid rs) as [H1 H2].
    split; [apply ReactionFacts.status_updateBugReactions|split; [assumption|split; [assumption|]]].
    split; [|repeat split].
    unfold updateBugReactions, set_bugs; cbn [bugs]; rewrite map_map; apply map_ext.
    intros x; destruct (discord_message_id x =? mid); reflexivity.
  - destruct (ReactionFacts.same_rows_updateUpdateReactions d mid rs) as [H1 H2].
    split; [intros i; reflexivity|split; [assumption|split; [assumption|]]].
    split; [reflexivity|split; [|repeat split]].
    unfold updateUpdateReactions; cbn [bug_updates]; rewrite map_map; apply map_ext.
    intros u; destruct (u_discord_message_id u =? mid); reflexivity.
Qed.

Lemma handleReactionAdd_other_emoji_keeps_status_witness :
  option_map status (getBugById (handleReactionAdd 9 db_AB (of_ascii "eyes") 200 (Some [])) 1)
  = option_map status (getBugById db_AB 1).
Proof.
  apply (proj1 (handleReactionAdd_other_emoji_keeps_status 9 db_AB (of_ascii "eyes") 200
                  (Some []) eq_refl)).
Defined.

(** A [✅] reaction on the message of an open bug closes that bug. *)
Theorem handleReactionAdd_check_closes_bug :
  forall now d mid live b,
    getBugByMessageId d mid = Some b -> is_open b = true ->
    option_map status (getBugById (handleReactionAdd now d check_glyph mid live) (id b))
    = Some Fixed.
Proof.
  intros now d mid live b Hm Ho.
  unfold handleReactionAdd; cbn [jsstr_eqb check_glyph N.eqb Pos.eqb orb andb].
  unfold closeReplyTarget; rewrite Hm, Ho.
  rewrite status_updateBugStatus_same.
  destruct (getBugById d (id b)) eqn:E; [reflexivity|].
  exfalso; refine (proj2 (ReactionFacts.getBugById_some_iff d (id b)) _ E).
  unfold getBugByMessageId in Hm; apply find_some in Hm; apply in_map, Hm.
Qed.

Lemma handleReactionAdd_check_closes_bug_witness :
  option_map status (getBugById (handleReactionAdd 9 db_AB check_glyph 200 None) 1) = Some Fixed.
Proof.
  apply (handleReactionAdd_check_closes_bug 9 db_AB 200 None bug_A); vm_compute; reflexivity.
Defined.

(** After [syncReactionsOnOpenBugs], every bug that was open and whose own
    message now carries a [✅] is fixed, and no row was added or removed. *)
Theorem syncReactions_closes_checked_bugs :
  forall now fetched d,
    same_rows d (syncReactionsOnOpenBugs now fetched d) /\
    (forall b rs, In b (getOpenBugs d) -> fetched (discord_message_id b) = Some rs ->
       hasCheckReaction rs = true ->
       option_map status (getBugById (syncReactionsOnOpenBugs now fetched d) (id b)) = Some Fixed).
Proof.
  intros now fetched d.
  assert (Hrows : forall d0 b, same_rows d0
    (match fetched (discord_message_id b) with
     | Some rs =>
         if hasCheckReaction rs then
           updateBugReactions (updateBugStatus d0 (id b) Fixed now) (discord_message_id b) rs
         else sync_updates now fetched b (updateBugReactions d0 (discord_message_id b) rs)
                (getBugUpdates d0 (id b))
     | None => sync_updates now fetched b d0 (getBugUpdates d0 (id b))
     end)).
  { intros d0 b; destruct (fetched (discord_message_id b)) as [rs|];
      [|apply ReactionFacts.same_rows_sync_updates].
    destruct (hasCheckReaction rs).
    - eapply ReactionFacts.same_rows_trans;
        [apply ReactionFacts.same_rows_updateBugStatus|apply ReactionFacts.same_rows_updateBugReactions].
    - eapply ReactionFacts.same_rows_trans;
        [apply ReactionFacts.same_rows_updateBugReactions|apply ReactionFacts.same_rows_sync_updates]. }
  assert (Hfix : forall d0 b, keeps_fixed d0
    (match fetched (discord_message_id b) with
     | Some rs =>
         if hasCheckReaction rs then
           updateBugReactions (updateBugStatus d0 (id b) Fixed now) (discord_message_id b) rs
         else sync_updates now fetched b (updateBugReactions d0 (discord_message_id b) rs)
                (getBugUpdates d0 (id b))
     | None => sync_updates now fetched b d0 (getBugUpdates d0 (id b))
     end)).
  { intros d0 b; destruct (fetched (discord_message_id b)) as [rs|];
      [|apply ReactionFacts.keeps_fixed_sync_updates].
    destruct (hasCheckReaction rs).
    - eapply Monotone.keeps_fixed_trans;
        [apply Monotone.keeps_fixed_updateBugStatus|apply Monotone.keeps_fixed_updateBugReactions].
    - eapply Monotone.keeps_fixed_trans;
        [apply Monotone.keeps_fixed_updateBugReactions|apply ReactionFacts.keeps_fixed_sync_updates]. }
  unfold syncReactionsOnOpenBugs; split.
  - apply ReactionFacts.fold_left_pres;
      [apply ReactionFacts.same_rows_refl|apply ReactionFacts.same_rows_trans|apply Hrows].
  - intros b rs Hin Hf Hc.
    assert (Hb : In (id b) (map id (bugs d))).
    { apply in_map; unfold getOpenBugs in Hin.
      apply (Permutation_in _ (Permutation_sym (SortFacts.sort_updated_desc_perm _))) in Hin.
      apply filter_In in Hin; apply Hin. }
    destruct (in_split _ _ Hin) as (l1 & l2 & Hl); rewrite Hl, fold_left_app; cbn [fold_left].
    match goal with |- context [fold_left ?f l1 d] => set (d1 := fold_left f l1 d) end.
    assert (Hd1 : In (id b) (map id (bugs d1))).
    { destruct (ReactionFacts.fold_left_pres same_rows _
        ReactionFacts.same_rows_refl ReactionFacts.same_rows_trans Hrows l1 d) as [E _].
      unfold d1; rewrite E; exact Hb. }
    eapply (ReactionFacts.fold_left_pres keeps_fixed _ Monotone.keeps_fixed_refl
              Monotone.keeps_fixed_trans Hfix).
    rewrite Hf, Hc, ReactionFacts.status_updateBugReactions, status_updateBugStatus_same.
    apply ReactionFacts.getBugById_some_iff in Hd1.
    destruct (getBugById d1 (id b)); [reflexivity|congruence].
Qed.

Lemma syncReactions_closes_checked_bugs_witness :
  option_map status
    (getBugById (syncReactionsOnOpenBugs 9
                   (fun m => if m =? 200 then Some [mkReaction check_glyph 1 []] else None) db_AB) 1)
  = Some Fixed.
Proof.
  apply (proj2 (syncReactions_closes_checked_bugs 9
    (fun m => if m =? 200 then Some [mkReaction check_glyph 1 []] else None) db_AB)
    bug_A [mkReaction check_glyph 1 []]); vm_compute; [left; reflexivity|reflexivity|reflexivity].
Defined.

Module RecentFacts.

Lemma find_upsert {V} (tbl : list (Z * V)) ch v c :
  find (fun p => fst p =? c)
    (if existsb (fun p => fst p =? ch) tbl
     then map (fun p => if fst p =? ch then (ch, v) else p) tbl
     else tbl ++ [(ch, v)])
  = if c =? ch then Some (ch, v) else find (fun p => fst p =? c) tbl.
Proof.
  destruct (existsb (fun p => fst p =? ch) tbl) eqn:Ex.
  - rewrite find_map_stable.
    2: { intros [k w]; cbn; destruct (k =? ch) eqn:E; [apply Z.eqb_eq in E; subst k|]; reflexivity. }
    destruct (c =? ch) eqn:Ec.
    + apply Z.eqb_eq in Ec; subst c.
      destruct (find (fun p => fst p =? ch) tbl) as [[k w]|] eqn:Ef.
      * apply find_some in Ef; destruct Ef as [_ Ek]; cbn in Ek |- *; rewrite Ek; reflexivity.
      * apply find_none_existsb in Ef; congruence.
    + destruct (find (fun p => fst p =? c) tbl) as [[k w]|] eqn:Ef; [|reflexivity].
      apply find_some in Ef; destruct Ef as [_ Ek]; cbn in Ek |- *.
      apply Z.eqb_eq in Ek; subst k; rewrite Ec; reflexivity.
  - destruct (find (fun p => fst p =? c) tbl) as [[k w]|] eqn:Ef.
    + rewrite (find_app_some _ _ _ _ Ef).
      destruct (c =? ch) eqn:Ec; [|reflexivity].
      apply Z.eqb_eq in Ec; subst c; apply find_some in Ef; destruct Ef as [Hin Hk].
      rewrite (existsb_in _ _ _ Hin Hk) in Ex; discriminate.
    + rewrite (find_app_none _ _ _ Ef); cbn.
      rewrite Z.eqb_sym; destruct (c =? ch); reflexivity.
Qed.

Lemma recent_of_add st ch m o c :
  recent_of (addToRecentMessages st ch m o) c
  = if c =? ch then
      (let recent := recent_of st ch ++
         [mkRecentMessage (m_id m) (m_author_name m) (m_author_id m) (m_content m) o
            (m_createdAt m)] in
       if Nat.ltb MAX_RECENT_MESSAGES (length recent) then tl recent else recent)
    else recent_of st c.
Proof.
  unfold recent_of at 1, addToRecentMessages; cbn [recentMessages].
  rewrite find_upsert; destruct (c =? ch); reflexivity.
Qed.

End RecentFacts.

(** [addToRecentMessages] keeps at most ten messages per channel: the new
    message goes last, only the oldest ones are dropped, the other channels
    and the store are untouched. *)
Theorem addToRecentMessages_window :
  forall st ch m o,
    (length (recent_of st ch) <= MAX_RECENT_MESSAGES)%nat ->
    let st' := addToRecentMessages st ch m o in
    let entry := mkRecentMessage (m_id m) (m_author_name m) (m_author_id m) (m_content m) o
                   (m_createdAt m) in
    (length (recent_of st' ch) <= MAX_RECENT_MESSAGES)%nat /\
    (exists dropped kept, recent_of st ch = dropped ++ kept /\
                          recent_of st' ch = kept ++ [entry] /\ (length dropped <= 1)%nat) /\
    (forall c, c <> ch -> recent_of st' c = recent_of st c) /\
    db st' = db st.
Proof.
  intros st ch m o Hlen st' entry; unfold st'.
  split; [|split; [|split; [|reflexivity]]].
  - rewrite RecentFacts.recent_of_add, Z.eqb_refl; cbv zeta.
    unfold MAX_RECENT_MESSAGES in *.
    generalize dependent (recent_of st ch); intros r Hlen.
    destruct (Nat.ltb 10 _) eqn:E.
    + destruct r as [|x l]; cbn [tl app]; rewrite ?length_app in *; cbn [length] in *; lia.
    + apply Nat.ltb_ge in E; exact E.
  - rewrite RecentFacts.recent_of_add, Z.eqb_refl; cbv zeta.
    unfold MAX_RECENT_MESSAGES in *.
    generalize dependent (recent_of st ch); intros r Hlen.
    destruct (Nat.ltb 10 _) eqn:E.
    + destruct r as [|x l].
      * exists [], []; split; [reflexivity|split; [|cbn; lia]].
        cbn in E; discriminate.
      * exists [x], l; split; [reflexivity|split; [reflexivity|cbn; lia]].
    + exists [], r; split; [reflexivity|split; [reflexivity|cbn; lia]].
  - intros c Hc; rewrite RecentFacts.recent_of_add.
    apply Z.eqb_neq in Hc; rewrite Hc; reflexivity.
Qed.

Lemma addToRecentMessages_window_witness :
  (length (recent_of (addToRecentMessages st0 ch m_issue None) ch) <= MAX_RECENT_MESSAGES)%nat.
Proof.
  apply (addToRecentMessages_window st0 ch m_issue None); vm_compute; lia.
Defined.

(** [dateToSnowflake] puts the date in the timestamp bits of a snowflake:
    it is strictly increasing, decodes back to the date, and every message
    id whose timestamp bits are later (earlier) than the date is above
    (below) it, so [after: dateToSnowflake(sinceDate)] skips exactly the
    messages from before the date. *)
Theorem dateToSnowflake_orders_ids :
  forall t,
    Z.shiftr (Watermark.dateToSnowflake t) 22 = t - Watermark.DISCORD_EPOCH /\
    (forall t', t < t' -> Watermark.dateToSnowflake t < Watermark.dateToSnowflake t') /\
    (forall m, t - Watermark.DISCORD_EPOCH < Z.shiftr m 22 -> Watermark.dateToSnowflake t < m) /\
    (forall m, Z.shiftr m 22 < t - Watermark.DISCORD_EPOCH -> m < Watermark.dateToSnowflake t).
Proof.
  intros t; unfold Watermark.dateToSnowflake.
  rewrite !Z.shiftl_mul_pow2 by lia.
  assert (Hp : 2 ^ 22 = 4194304) by reflexivity.
  split; [rewrite Z.shiftr_div_pow2 by lia; rewrite Hp; apply Z.div_mul; lia|].
  split; [intros t' Ht; rewrite Z.shiftl_mul_pow2, Hp by lia; lia|].
  split; intros mm Hm; rewrite Z.shiftr_div_pow2 in Hm by lia; rewrite Hp in *;
    pose proof (Z.div_mod mm 4194304 ltac:(lia)) as Hd;
    pose proof (Z.mod_pos_bound mm 4194304 ltac:(lia)) as Hb; lia.
Qed.

Lemma dateToSnowflake_orders_ids_witness :
  Watermark.dateToSnowflake 1700000000000 < Z.shiftl (1700000000001 - Watermark.DISCORD_EPOCH) 22 + 5.
Proof.
  apply (dateToSnowflake_orders_ids 1700000000000); vm_compute; reflexivity.
Defined.

Module ServerFacts.

Lemma jsstr_eqb_eq a b : jsstr_eqb a b = true <-> a = b.
Proof.
  revert b; induction a as [|x a IH]; intros [|y b]; cbn; try (split; congruence).
  rewrite andb_true_iff, N.eqb_eq, IH; split; [intros [-> ->]; reflexivity|intros [= -> ->]; split; reflexivity].
Qed.

Lemma jsstr_eqb_refl a : jsstr_eqb a a = true.
Proof. apply jsstr_eqb_eq; reflexivity. Qed.

Lemma updateBug_content d i c t s now j b' :
  getBugById (snd (updateBug d i c t s now)) j = Some b' ->
  exists b, getBugById d j = Some b /\ (content b' = content b \/ c = Some (content b')).
Proof.
  intros Hget.
  assert (Hcase : (c = None /\ t = None /\ s = None) \/ (c <> None \/ t <> None \/ s <> None))
    by (destruct c, t, s; intuition discriminate).
  destruct Hcase as [(-> & -> & ->)|Hf].
  - cbn in Hget; exists b'; split; [exact Hget|left; reflexivity].
  - rewrite (EditFacts.updateBug_some_field d i c t s now Hf) in Hget; cbn [snd] in Hget.
    rewrite EditFacts.getBugById_mapU in Hget by reflexivity.
    destruct (getBugById d j) as [b|]; cbn in Hget; [|discriminate].
    exists b; split; [reflexivity|].
    destruct (id b =? i); injection Hget as <-; cbn;
      [destruct c; [right; reflexivity|left; reflexivity]|left; reflexivity].
Qed.

Lemma set_add_all_spec seen xs :
  (exists rest, Server.set_add_all seen xs = seen ++ rest) /\
  (forall x, In x seen \/ In x xs -> In x (Server.set_add_all seen xs)) /\
  (forall x, In x (Server.set_add_all seen xs) -> In x seen \/ In x xs) /\
  (NoDup seen -> NoDup (Server.set_add_all seen xs)).
Proof.
  revert seen; induction xs as [|x xs IH]; intros seen; cbn [Server.set_add_all].
  - split; [exists []; symmetry; apply app_nil_r|].
    split; [intros y [H|[]]; exact H|split; [intros y H; left; exact H|intros H; exact H]].
  - destruct (mem_word x seen) eqn:Em.
    + assert (Hx : In x seen).
      { unfold mem_word in Em; apply existsb_exists in Em; destruct Em as [y [Hy E]].
        apply jsstr_eqb_eq in E; subst y; exact Hy. }
      destruct (IH seen) as (H1 & H2 & H3 & H4).
      split; [exact H1|split; [|split; [|exact H4]]].
      * intros y [Hy|[<-|Hy]]; apply H2; [left; exact Hy|left; exact Hx|right; exact Hy].
      * intros y Hy; destruct (H3 y Hy) as [H|H]; [left; exact H|right; right; exact H].
    + destruct (IH (seen ++ [x])) as (H1 & H2 & H3 & H4).
      split; [destruct H1 as [rest Hr]; exists (x :: rest); rewrite Hr, <- app_assoc; reflexivity|].
      split; [|split].
      * intros y [Hy|[<-|Hy]]; apply H2.
        -- left; apply in_or_app; left; exact Hy.
        -- left; apply in_or_app; right; left; reflexivity.
        -- right; exact Hy.
      * intros y Hy; destruct (H3 y Hy) as [H|H]; [|right; right; exact H].
        apply in_app_or in H; destruct H as [H|[<-|[]]]; [left; exact H|right; left; reflexivity].
      * intros Hn; apply H4, MutationFacts.NoDup_snoc; [exact Hn|].
        intros Hin; assert (mem_word x seen = true) as Ht
          by (apply existsb_exists; exists x; split; [exact Hin|apply jsstr_eqb_refl]).
        congruence.
Qed.

End ServerFacts.

(** Without an [ADMIN_PASSWORD], [PATCH /api/bugs/:id] accepts every
    request: any caller, with no header at all, sets the status of any bug,
    reopening a fixed one included. *)
Theorem patchBugStatus_open_without_admin_password :
  forall sec pw authz hdr i f s now d,
    Server.truthy pw = false -> Server.parse_status f = Some s -> getBugById d i <> None ->
    fst (Server.patchBugStatus sec pw authz hdr (Some i) f now d) = Server.Ok /\
    option_map status (getBugById (snd (Server.patchBugStatus sec pw authz hdr (Some i) f now d)) i)
    = Some s.
Proof.
  intros sec pw authz hdr i f s now d Hpw Hs Hi.
  unfold Server.patchBugStatus, Server.checkAdminAuth, Server.checkAuth; rewrite Hpw; cbn [negb].
  rewrite andb_false_r, Hs; cbn [fst snd]; split; [reflexivity|].
  rewrite status_updateBugStatus_same; destruct (getBugById d i); [reflexivity|congruence].
Qed.

Lemma patchBugStatus_open_without_admin_password_witness :
  option_map status
    (getBugById (snd (Server.patchBugStatus None None None None (Some 2)
                        (Server.JString (of_ascii "open")) 9 db_AB)) 2) = Some Open.
Proof.
  apply (patchBugStatus_open_without_admin_password None None None None 2
           (Server.JString (of_ascii "open")) Open 9 db_AB); vm_compute; [reflexivity|reflexivity|discriminate].
Defined.

(** [PATCH /api/bugs/:id] writes nothing unless it answers 200; with an
    admin password and no API secret it is refused exactly when the header
    is not the password; a bot sending [Bearer <API_SECRET>] is never
    refused. *)
Theorem patchBugStatus_auth_gate :
  forall sec pw authz hdr idp f now d,
    let r := Server.patchBugStatus sec pw authz hdr idp f now d in
    (fst r <> Server.Ok -> snd r = d) /\
    (Server.truthy sec = false -> Server.truthy pw = true ->
       (fst r = Server.Unauthorized <-> Server.checkAdminAuth pw hdr = false)) /\
    (forall s, sec = Some s -> Server.truthy sec = true ->
       authz = Some (of_ascii "Bearer " ++ s) -> fst r <> Server.Unauthorized).
Proof.
  intros sec pw authz hdr idp f now d r; unfold r, Server.patchBugStatus.
  split; [|split].
  - destruct (negb _ && negb _); [reflexivity|].
    destruct (Server.parse_status f); [|reflexivity]; cbn; congruence.
  - intros Hs Hp; rewrite Hs; cbn [andb negb].
    destruct (Server.checkAdminAuth pw hdr); cbn [negb andb].
    + destruct (Server.parse_status f); cbn; split; congruence.
    + split; reflexivity.
  - intros s -> Ht ->; rewrite Ht, ServerFacts.jsstr_eqb_refl; cbn [andb negb].
    destruct (Server.parse_status f); cbn; discriminate.
Qed.

Lemma patchBugStatus_auth_gate_witness :
  fst (Server.patchBugStatus (Some (of_ascii "k")) (Some (of_ascii "pw")) (Some (of_ascii "Bearer k"))
         None (Some 1) (Server.JString (of_ascii "fixed")) 9 db_AB) <> Server.Unauthorized.
Proof.
  apply (proj2 (proj2 (patchBugStatus_auth_gate (Some (of_ascii "k")) (Some (of_ascii "pw"))
     (Some (of_ascii "Bearer k")) None (Some 1) (Server.JString (of_ascii "fixed")) 9 db_AB))
     (of_ascii "k")); reflexivity.
Defined.

(** [PUT /api/admin/bugs/:id] never stores blank content: a bug's content
    afterwards is its old content or the trimmed, non-empty string sent. *)
Theorem adminEditBug_no_blank_content :
  forall pw hdr idp cf tf sf now d j b',
    getBugById (snd (Server.adminEditBug pw hdr idp cf tf sf now d)) j = Some b' ->
    (exists b, getBugById d j = Some b /\ content b' = content b) \/
    (exists s, cf = Server.JString s /\ content b' = trim s /\ trim s <> []).
Proof.
  intros pw hdr idp cf tf sf now d j b'.
  unfold Server.adminEditBug.
  destruct (negb _); [cbn; intros H; left; exists b'; split; [exact H|reflexivity]|].
  destruct (Server.edit_content cf) as [c|] eqn:Ec;
    [|cbn; intros H; left; exists b'; split; [exact H|reflexivity]].
  destruct (Server.edit_type tf) as [t|];
    [|cbn; intros H; left; exists b'; split; [exact H|reflexivity]].
  destruct (Server.edit_status sf) as [s|];
    [|cbn; intros H; left; exists b'; split; [exact H|reflexivity]].
  destruct idp as [i|]; [|cbn; intros H; left; exists b'; split; [exact H|reflexivity]].
  intros H.
  assert (H' : getBugById (snd (updateBug d i c t s now)) j = Some b').
  { destruct (updateBug d i c t s now) as [[r|] d']; exact H. }
  destruct (ServerFacts.updateBug_content d i c t s now j b' H') as [b [Hb [Hc|Hc]]].
  - left; exists b; split; assumption.
  - right; subst c; destruct cf as [|x|]; cbn in Ec; try discriminate.
    destruct (Nat.eqb (length (trim x)) 0) eqn:El; [discriminate|].
    injection Ec as Ec; exists x; split; [reflexivity|split; [symmetry; exact Ec|]].
    intros E; rewrite E in El; discriminate.
Qed.

Lemma adminEditBug_no_blank_content_witness :
  exists s, Server.JString (of_ascii "  new text ") = Server.JString s /\
    content (match getBugById (snd (Server.adminEditBug None None (Some 1)
          (Server.JString (of_ascii "  new text ")) Server.JUndefined Server.JUndefined 9 db_AB)) 1
        with Some b => b | None => bug_A end) = trim s /\ trim s <> [].
Proof.
  destruct (adminEditBug_no_blank_content None None (Some 1)
     (Server.JString (of_ascii "  new text ")) Server.JUndefined Server.JUndefined 9 db_AB 1
     (match getBugById (snd (Server.adminEditBug None None (Some 1)
          (Server.JString (of_ascii "  new text ")) Server.JUndefined Server.JUndefined 9 db_AB)) 1
        with Some b => b | None => bug_A end)) as [[b [Hb Hc]]|H].
  - vm_compute; reflexivity.
  - exfalso; vm_compute in Hb; injection Hb as <-; vm_compute in Hc; discriminate.
  - exact H.
Defined.

(** The [involved] list of [GET /api/bugs] starts with the bug's author,
    names every update author, names no one else, and names nobody twice. *)
Theorem involved_lists_each_author_once :
  forall b ups,
    (exists rest, Server.involved b ups = author_name b :: rest) /\
    (forall u, In u ups -> In (u_author_name u) (Server.involved b ups)) /\
    (forall x, In x (Server.involved b ups) ->
       x = author_name b \/ exists u, In u ups /\ u_author_name u = x) /\
    NoDup (Server.involved b ups).
Proof.
  intros b ups; unfold Server.involved.
  destruct (ServerFacts.set_add_all_spec [author_name b] (map u_author_name ups)) as (H1 & H2 & H3 & H4).
  split; [destruct H1 as [rest Hr]; exists rest; exact Hr|].
  split; [intros u Hu; apply H2; right; apply in_map, Hu|].
  split.
  - intros x Hx; destruct (H3 x Hx) as [[<-|[]]|H]; [left; reflexivity|right].
    apply in_map_iff in H; destruct H as [u [Hu Hin]]; exists u; split; assumption.
  - apply H4; constructor; [intros []|constructor].
Qed.

Lemma involved_lists_each_author_once_witness :
  In (u_author_name update_details) (Server.involved bug_A [update_details]).
Proof.
  apply (proj1 (proj2 (involved_lists_each_author_once bug_A [update_details])) update_details).
  left; reflexivity.
Defined.

(** [findExactOrCloseMatch] only answers ids of the given bugs; a bug whose
    content contains the normalised completion text always gives a match;
    and a completion text that is blank after normalising (a bare [✅])
    matches the first bug given, which [handleCompletion] takes to be the
    most recently updated open bug. *)
Theorem findExactOrCloseMatch_edges :
  forall text bugs,
    (forall e, findExactOrCloseMatch text bugs = Some e -> In e (map fst bugs)) /\
    (forall e c, In (e, c) bugs -> includes (toLowerCase c) (trim (toLowerCase text)) = true ->
       findExactOrCloseMatch text bugs <> None) /\
    (trim (toLowerCase text) = [] -> findExactOrCloseMatch text bugs = option_map fst (hd_error bugs)).
Proof.
  intros text bugs; unfold findExactOrCloseMatch.
  split; [|split].
  - intros e He.
    destruct (find _ bugs) as [p|] eqn:Ef; cbn in He; [|discriminate].
    injection He as <-; apply find_some in Ef; apply in_map, Ef.
  - intros e c Hin Hinc Hn.
    destruct (find (fun b => close_match (trim (toLowerCase text)) (snd b)) bugs) eqn:Ef;
      [discriminate|].
    apply find_none_existsb in Ef.
    rewrite (existsb_in _ _ (e, c) Hin) in Ef; [discriminate|].
    unfold close_match; cbn [snd]; rewrite Hinc; reflexivity.
  - intros Ht; rewrite Ht; destruct bugs as [|[e c] rest]; [reflexivity|].
    cbn [find hd_error snd]; unfold close_match.
    assert (Hinc : forall s, includes s [] = true) by (intros [|x s]; reflexivity).
    rewrite Hinc; reflexivity.
Qed.

Lemma findExactOrCloseMatch_edges_witness :
  findExactOrCloseMatch (trim (replace_check check_glyph)) [(2, of_ascii "crash"); (1, of_ascii "login")]
  = Some 2.
Proof.
  rewrite (proj2 (proj2 (findExactOrCloseMatch_edges (trim (replace_check check_glyph))
             [(2, of_ascii "crash"); (1, of_ascii "login")]))); vm_compute; reflexivity.
Defined.

Module HistoryFacts.

Lemma find_snoc_hit {A} (p : A -> bool) l x : p x = true -> find p (l ++ [x]) <> None.
Proof.
  intros Hx; induction l as [|y l IH]; cbn; [rewrite Hx; discriminate|].
  destruct (p y); [discriminate|exact IH].
Qed.

Lemma addBug_counts d b :
  length (bugs (snd (addBug d b)))
  = (length (bugs d) + match fst (addBug d b) with Some _ => 1 | None => 0 end)%nat.
Proof.
  unfold addBug; destruct (existsb _ _); cbn [fst snd]; [lia|].
  unfold getBugById; cbn [bugs].
  destruct (find _ _) eqn:Ef; [rewrite length_app; reflexivity|].
  exfalso; revert Ef; apply find_snoc_hit; cbn; apply Z.eqb_refl.
Qed.

Lemma addBugUpdate_counts d u :
  length (bugs (snd (addBugUpdate d u))) = length (bugs d) /\
  length (bug_updates (snd (addBugUpdate d u)))
  = (length (bug_updates d) + match fst (addBugUpdate d u) with Some _ => 1 | None => 0 end)%nat.
Proof.
  unfold addBugUpdate; destruct (existsb _ _); cbn [fst snd]; [split; lia|].
  unfold touch_bug, set_bugs; cbn [bugs bug_updates]; rewrite length_map, length_app; split; reflexivity.
Qed.

Lemma counted_step now name d0 acc m :
  BotAdmin.counted d0 acc -> BotAdmin.counted d0 (BotAdmin.scanChannelHistoryCounted now name acc m).
Proof.
  destruct acc as [[d nb] nu]; unfold BotAdmin.counted; cbn [fst snd]; intros [Hb Hu].
  unfold BotAdmin.scanChannelHistoryCounted.
  destruct (m_author_bot m); [cbn; split; assumption|].
  destruct (isNewBugReport (m_content m)).
  - cbv zeta.
    generalize (bug_of_message m name (if hasCheckReaction (m_reactions m) then Fixed else Open)).
    intros bm.
    pose proof (addBug_counts d bm) as Hc.
    assert (Hu' : bug_updates (snd (addBug d bm)) = bug_updates d)
      by (unfold addBug; destruct (existsb _ _); reflexivity).
    destruct (addBug d bm) as [r d']; cbn [fst snd] in *.
    destruct r; cbn [fst snd]; rewrite Hu'; split; lia.
  - destruct (m_reference m) as [ref|]; [|cbn; split; assumption].
    destruct (resolveReply d ref) as [b|]; [|cbn; split; assumption].
    set (d1 := if isCompletionMarker (m_content m) && is_open b
               then updateBugStatus d (id b) Fixed now else d).
    assert (H1 : length (bugs d1) = length (bugs d) /\ bug_updates d1 = bug_updates d).
    { unfold d1; destruct (_ && _); [|split; reflexivity].
      unfold updateBugStatus, set_bugs; cbn [bugs bug_updates]; rewrite length_map; split; reflexivity. }
    pose proof (addBugUpdate_counts d1 (update_of_message m (id b))) as [Hc1 Hc2].
    destruct (addBugUpdate d1 _) as [u d']; cbn [fst snd] in *.
    destruct H1 as [H1 H2]; rewrite H2 in Hc2.
    destruct u; cbn [fst snd]; split; lia.
Qed.

Lemma counted_fold now name d0 ms acc :
  BotAdmin.counted d0 acc -> BotAdmin.counted d0 (fold_left (BotAdmin.scanChannelHistoryCounted now name) ms acc).
Proof.
  revert acc; induction ms as [|m ms IH]; intros acc H; cbn; [exact H|].
  apply IH, counted_step, H.
Qed.

Lemma fetch_before_length hist before limit :
  (length (BotAdmin.fetch_before hist before limit) <= limit)%nat.
Proof. unfold BotAdmin.fetch_before; rewrite length_skipn; lia. Qed.

Lemma history_loop_spec fuel now name hist maxM d0 :
  forall total last acc, (total <= maxM)%nat -> BotAdmin.counted d0 acc ->
    BotAdmin.counted d0 (fst (BotAdmin.history_loop fuel now name hist maxM total last acc)) /\
    (snd (BotAdmin.history_loop fuel now name hist maxM total last acc) <= maxM)%nat.
Proof.
  induction fuel as [|f IH]; intros total last acc Ht Hc; cbn [BotAdmin.history_loop].
  - split; [exact Hc|exact Ht].
  - destruct (Nat.ltb total maxM) eqn:Elt; [|split; [exact Hc|exact Ht]].
    pose proof (fetch_before_length hist last (Nat.min 100 (maxM - total))) as Hl.
    destruct (BotAdmin.fetch_before hist last (Nat.min 100 (maxM - total))) as [|oldest rest] eqn:Ef;
      [split; [exact Hc|exact Ht]|].
    assert (Ht' : (total + length (oldest :: rest) <= maxM)%nat) by lia.
    pose proof (counted_fold now name d0 (oldest :: rest) acc Hc) as Hc'.
    destruct (Nat.ltb (length (oldest :: rest)) (Nat.min 100 (maxM - total)));
      [split; [exact Hc'|exact Ht']|].
    apply IH; [exact Ht'|exact Hc'].
Qed.

Lemma addBug_fresh d b :
  existsb (fun r => discord_message_id r =? discord_message_id b) (bugs d) = false ->
  bugs (snd (addBug d b)) = bugs d ++ [with_id b (next_bug_rowid d)] /\
  getBugByMessageId (snd (addBug d b)) (discord_message_id b) = Some (with_id b (next_bug_rowid d)).
Proof.
  intros Hex; unfold addBug; rewrite Hex; cbn [snd bugs]; split; [reflexivity|].
  unfold getBugByMessageId; cbn [bugs].
  rewrite (find_app_none _ _ _ (existsb_false_find _ _ Hex)); cbn; rewrite Z.eqb_refl; reflexivity.
Qed.

End HistoryFacts.

(** [scanChannelHistory] reports exactly the rows it inserted (its
    [bugs] and [updates] counts are the growth of the two tables), and its
    loop never reads more than [maxMessages] messages. *)
Theorem scanChannelHistory_counts_inserted_rows :
  forall now name hist maxM d,
    let r := BotAdmin.scanChannelHistory now name hist maxM d in
    length (bugs (fst (fst r))) = (length (bugs d) + snd (fst r))%nat /\
    length (bug_updates (fst (fst r))) = (length (bug_updates d) + snd r)%nat /\
    (snd (BotAdmin.history_loop (S maxM) now name hist maxM 0 None (d, 0%nat, 0%nat)) <= maxM)%nat.
Proof.
  intros now name hist maxM d r; unfold r, BotAdmin.scanChannelHistory.
  destruct (HistoryFacts.history_loop_spec (S maxM) now name hist maxM d 0 None (d, 0%nat, 0%nat))
    as [[H1 H2] H3]; [lia|unfold BotAdmin.counted; cbn; split; lia|].
  split; [exact H1|split; [exact H2|exact H3]].
Qed.

(** A live [▶️] message with a new id in a monitored channel is stored as
    an open bug with its content and detected type, whatever reactions it
    already carries (the history scans would store one with a [✅] as
    fixed). *)
Theorem handleMessage_play_creates_open_bug :
  forall cfg now st m,
    m_author_bot m = false -> isMonitoredChannel cfg (m_channelId m) = true ->
    isNewBugReport (m_content m) = true ->
    ~ In (m_id m) (map discord_message_id (bugs (db st))) ->
    exists b,
      bugs (db (handleMessage cfg now st m)) = bugs (db st) ++ [b] /\
      getBugByMessageId (db (handleMessage cfg now st m)) (m_id m) = Some b /\
      status b = Open /\ content b = m_content m /\ type b = detectType (m_content m) /\
      id b = next_bug_rowid (db st).
Proof.
  intros cfg now st m Hbot Hmon Hnew Hfresh.
  unfold handleMessage; rewrite Hbot, Hmon, Hnew; cbn [negb].
  rewrite Monotone.db_addToRecentMessages; unfold createBug; cbn [db].
  set (name := match channel_names cfg (m_channelId m) with Some n => n | None => of_ascii "unknown" end).
  assert (Hex : existsb (fun r => discord_message_id r =? discord_message_id (bug_of_message m name Open))
                  (bugs (db st)) = false).
  { apply not_true_iff_false; intros H; apply existsb_exists in H.
    destruct H as [x [Hx Heq]]; apply Z.eqb_eq in Heq.
    apply Hfresh; cbn in Heq; rewrite <- Heq; apply in_map, Hx. }
  destruct (HistoryFacts.addBug_fresh (db st) (bug_of_message m name Open) Hex) as [H1 H2].
  exists (with_id (bug_of_message m name Open) (next_bug_rowid (db st))).
  split; [exact H1|split; [exact H2|repeat split]].
Qed.

Lemma handleMessage_play_creates_open_bug_witness :
  exists b, getBugByMessageId (db (handleMessage cfg_plain 0 st0 m_issue_checked)) 600 = Some b /\
            status b = Open.
Proof.
  destruct (handleMessage_play_creates_open_bug cfg_plain 0 st0 m_issue_checked)
    as (b & _ & Hb & Hs & _); [reflexivity|reflexivity|vm_compute; reflexivity|vm_compute; intros []|].
  exists b; split; [exact Hb|exact Hs].
Defined.

(** [DELETE /api/admin/bugs/:id] refuses a wrong admin header without
    touching the store; an authorised request answers 200 exactly when the
    bug existed, and the bug is gone afterwards either way. *)
Theorem adminDeleteBug_reports_existence :
  forall pw hdr i d,
    (Server.checkAdminAuth pw hdr = false ->
       Server.adminDeleteBug pw hdr (Some i) d = (Server.Unauthorized, d)) /\
    (Server.checkAdminAuth pw hdr = true ->
       (fst (Server.adminDeleteBug pw hdr (Some i) d) = Server.Ok <-> getBugById d i <> None) /\
       getBugById (snd (Server.adminDeleteBug pw hdr (Some i) d)) i = None).
Proof.
  intros pw hdr i d; unfold Server.adminDeleteBug.
  split; [intros ->; reflexivity|intros ->; cbn [negb]].
  unfold deleteBug; destruct (getBugById d i) eqn:E; cbn [fst snd].
  - split; [split; [discriminate|reflexivity]|].
    unfold getBugById, set_bugs; cbn [bugs]; apply MutationFacts.find_filter_neg.
  - split; [split; [discriminate|congruence]|exact E].
Qed.

Lemma adminDeleteBug_reports_existence_witness :
  fst (Server.adminDeleteBug (Some (of_ascii "pw")) (Some (of_ascii "pw")) (Some 1) db_AB) = Server.Ok.
Proof.
  apply (proj2 (adminDeleteBug_reports_existence (Some (of_ascii "pw")) (Some (of_ascii "pw")) 1 db_AB));
    [reflexivity|vm_compute; discriminate].
Defined.
